(** * A shallow embedding of the shell pretty-printer [print.go]

    The printer walks a parsed shell syntax tree and writes its canonical
    text to a buffered sink.  This development embeds the printer as
    state-passing functions over a [printer] record, in a monad that also
    accounts for Go run-time panics and for recursion that does not end, and
    proves the properties the specification states about it. *)

From Stdlib Require Import ZArith List String Ascii Bool Lia.
Import ListNotations.
Open Scope string_scope.
Open Scope Z_scope.

Set Implicit Arguments.

(** ** Go integers and strings *)

(** Go's [int] is a 64-bit two's complement integer: arithmetic wraps. *)
Definition int := Z.

Definition wrap (z : Z) : int := (z + 2 ^ 63) mod 2 ^ 64 - 2 ^ 63.

Definition in_int (z : Z) : Prop := - 2 ^ 63 <= z < 2 ^ 63.

Definition add (a b : int) : int := wrap (a + b).
Definition sub (a b : int) : int := wrap (a - b).
Definition mul (a b : int) : int := wrap (a * b).

(** [len(s)] of a Go string: its number of bytes. *)
Definition len (s : string) : int := Z.of_nat (String.length s).

Definition newline_byte : ascii := "010"%char.
Definition tab_byte : ascii := "009"%char.
Definition space_byte : ascii := " "%char.
Definition bslash_byte : ascii := "\"%char.

Definition nl : string := String newline_byte EmptyString.

(** [strings.Count(s, "\n")] *)
Fixpoint count_newlines (s : string) : nat :=
  match s with
  | EmptyString => 0
  | String c r =>
      (if Ascii.eqb c newline_byte then 1 else 0) + count_newlines r
  end%nat.

Definition strings_Count_nl (s : string) : int := Z.of_nat (count_newlines s).

(** [s[n:]] for [n <= len(s)] *)
Fixpoint drop (n : nat) (s : string) : string :=
  match n, s with
  | O, _ => s
  | S k, String _ r => drop k r
  | S _, EmptyString => EmptyString
  end.

(** [s[:n]] for [n <= len(s)] *)
Fixpoint take (n : nat) (s : string) : string :=
  match n, s with
  | O, _ => EmptyString
  | S k, String c r => String c (take k r)
  | S _, EmptyString => EmptyString
  end.

Fixpoint repeat_byte (c : ascii) (n : nat) : string :=
  match n with
  | O => EmptyString
  | S k => String c (repeat_byte c k)
  end.

(** ** Tokens *)

(** The token kinds [print.go] names.  The declaration of [Token] lives in
    another file of the package; [OtherToken] stands for every kind the
    printer does not name. *)
Inductive Token : Set :=
  | DQUOTE | DOLLSQ | SQUOTE | DOLLDQ
  | COLON | ADD | CADD | SUB | CSUB | QUEST | CQUEST | ASSIGN | CASSIGN
  | REM | DREM | HASH | DHASH
  | MUL | QUO | AND | OR | LAND | LOR | XOR | POW
  | EQL | NEQ | LEQ | GEQ
  | ADDASSGN | SUBASSGN | MULASSGN | QUOASSGN | REMASSGN
  | ANDASSGN | ORASSGN | XORASSGN | SHLASSGN | SHRASSGN
  | LSS | GTR | SHL | SHR | COMMA
  | NOT | INC | DEC
  | RDRINOUT | DPLIN | DPLOUT | DHEREDOC | WHEREDOC | RDRALL | APPALL
  | PIPEALL
  | DSEMICOLON | SEMIFALL | DSEMIFALL
  | CMDIN | CMDOUT
  | OtherToken (n : nat).

Definition Token_eq_dec (a b : Token) : {a = b} + {a <> b}.
Proof. decide equality. apply Nat.eq_dec. Defined.

Definition Token_eqb (a b : Token) : bool :=
  if Token_eq_dec a b then true else false.

(** ** Syntax tree *)

(** A byte offset into the source; [0] is the invalid position. *)
Definition Pos := Z.

Record Position : Set := mkPosition { Line : int; Column : int }.

Record Lit : Set := mkLit { Value : string }.

(** The node types [print.go] reads.  Their declarations are in another
    file of the package, so each node stores what the printer asks of it:
    the fields it reads, and the results of the methods [Pos()] and [End()]
    (and of [wordFirstPos]) as fields of their own.  The nil value of an
    interface type is a constructor where a parsed tree has it. *)
Unset Elimination Schemes.

Inductive Word : Type :=
  | mkWord (Word_Pos : Pos) (Parts : list WordPart)
with WordPart : Type :=
  | LitPart (End : Pos) (l : Lit)
  | SglQuoted (End : Pos) (value : string)
  | Quoted (End : Pos) (Quote : Token) (Parts : list WordPart)
  | CmdSubst (End : Pos) (Backquotes : bool) (Stmts : list Stmt) (Right : Pos)
  | ParamExp (End : Pos) (Short Length : bool) (Param : Lit)
             (Ind : option Word)
             (Repl : option (bool * Word * Word))
             (Exp : option (Token * Word))
  | ArithmExp (End : Pos) (X : ArithmExpr)
  | ArrayExpr (End : Pos) (List : list Word) (Rparen : Pos)
  | ProcSubst (End : Pos) (Op : Token) (Stmts : list Stmt)
with ArithmExpr : Type :=
  | NilArithm
  | WordExpr (w : Word)
  | BinaryExpr (X : ArithmExpr) (Op : Token) (Y : ArithmExpr)
  | UnaryExpr (Post : bool) (Op : Token) (X : ArithmExpr)
  | ParenExpr (X : ArithmExpr)
with Stmt : Type :=
  | mkStmt (Stmt_Pos : Pos) (Negated : bool) (Assigns : list Assign)
           (Cmd : Command) (Redirs : list Redirect) (Background : bool)
with Assign : Type :=
  | mkAssign (Assign_Pos : Pos) (Name : option Lit) (Append : bool)
             (value : Word)
with Redirect : Type :=
  | mkRedirect (Redirect_Pos : Pos) (OpPos : Pos) (Op : Token)
               (N : option Lit) (word : Word) (Hdoc : Lit)
with Command : Type :=
  | NilCommand
  | CallExpr (Args : list Word)
  | Block (Stmts : list Stmt) (Rbrace : Pos)
  | IfClause (cond : Cond) (Then : Pos) (ThenStmts : list Stmt)
             (Elifs : list Elif) (Else : Pos) (ElseStmts : list Stmt)
             (Fi : Pos)
  | Subshell (Stmts : list Stmt) (Rparen : Pos)
  | WhileClause (cond : Cond) (Do : Pos) (DoStmts : list Stmt) (done : Pos)
  | ForClause (loop : Loop) (Do : Pos) (DoStmts : list Stmt) (done : Pos)
  | BinaryCmd (X : Stmt) (Op : Token) (Y : Stmt)
  | FuncDecl (BashStyle : bool) (Name : Lit) (Body : Stmt)
  | CaseClause (word : Word) (List : list PatternList) (Esac : Pos)
  | UntilClause (cond : Cond) (Do : Pos) (DoStmts : list Stmt) (done : Pos)
  | DeclClause (Local : bool) (Opts : list Word) (Assigns : list Assign)
  | EvalClause (stmt : option Stmt)
  | LetClause (Exprs : list ArithmExpr)
with Elif : Type :=
  | mkElif (ElifPos : Pos) (cond : Cond) (Then : Pos) (ThenStmts : list Stmt)
with PatternList : Type :=
  | mkPatternList (FirstPos : Pos) (Patterns : list Word)
                  (Stmts : list Stmt) (OpPos : Pos) (Op : Token)
with Cond : Type :=
  | NilCond
  | StmtCond (Stmts : list Stmt)
  | CStyleCond (X : ArithmExpr)
with Loop : Type :=
  | NilLoop
  | WordIter (Name : Lit) (List : list Word)
  | CStyleLoop (Init Cond Post : ArithmExpr).

Set Elimination Schemes.

Definition Word_Parts (w : Word) : list WordPart :=
  match w with mkWord _ ps => ps end.
Definition Word_pos (w : Word) : Pos :=
  match w with mkWord p _ => p end.

Definition WordPart_End (wp : WordPart) : Pos :=
  match wp with
  | LitPart e _ | SglQuoted e _ | Quoted e _ _ | CmdSubst e _ _ _
  | ParamExp e _ _ _ _ _ _ | ArithmExp e _ | ArrayExpr e _ _
  | ProcSubst e _ _ => e
  end.

Definition Stmt_pos (s : Stmt) : Pos :=
  match s with mkStmt p _ _ _ _ _ => p end.
Definition Stmt_Cmd (s : Stmt) : Command :=
  match s with mkStmt _ _ _ c _ _ => c end.

Definition Assign_pos (a : Assign) : Pos :=
  match a with mkAssign p _ _ _ => p end.

Definition Redirect_pos (r : Redirect) : Pos :=
  match r with mkRedirect p _ _ _ _ _ => p end.
Definition Redirect_OpPos (r : Redirect) : Pos :=
  match r with mkRedirect _ p _ _ _ _ => p end.
Definition Redirect_Op (r : Redirect) : Token :=
  match r with mkRedirect _ _ o _ _ _ => o end.
Definition Redirect_N (r : Redirect) : option Lit :=
  match r with mkRedirect _ _ _ n _ _ => n end.
Definition Redirect_Word (r : Redirect) : Word :=
  match r with mkRedirect _ _ _ _ w _ => w end.
Definition Redirect_Hdoc (r : Redirect) : Lit :=
  match r with mkRedirect _ _ _ _ _ h => h end.

Record Comment : Set := mkComment { Hash : Pos; Text : string }.

(** The file: its statements, its comments in order of position, and the
    service that resolves an offset to a line and a column. *)
Record File : Type := mkFile {
  File_Stmts : list Stmt;
  File_Comments : list Comment;
  File_Position : Pos -> Position
}.

(** [PrintConfig]: 0 for tabs, [> 0] for that number of spaces. *)
Record PrintConfig : Set := mkPrintConfig { Spaces : int }.

(** ** Writers *)

Definition error := string.

(** [io.ErrShortWrite] *)
Definition ErrShortWrite : error := "short write".

(** The sink handed to [Fprint] is any [io.Writer].  A deterministic sink is
    the history of the [Write] calls it has received together with the
    function that answers a call given that history: the number of bytes
    accepted and the error, if any. *)
Record io_Writer : Type := mkWriter {
  calls : list string;
  answer : list string -> string -> nat * option error
}.

Definition io_Write (w : io_Writer) (data : string)
  : io_Writer * (nat * option error) :=
  (mkWriter (calls w ++ [data]) (answer w), answer w (calls w) data).

(** [bufio.Writer] of Go's standard library, with the default buffer size
    that [bufio.NewWriter] gives it.  [buf] is the filled part [buf[0:n]]
    of the buffer, [berr] the sticky error, [wr] the sink. *)
Module bufio.

Definition defaultBufSize : int := 4096.

Record Writer : Type := mkW {
  buf : string;
  berr : option error;
  wr : io_Writer
}.

(** [b.Reset(w)] *)
Definition Reset (w : io_Writer) : Writer := mkW "" None w.

Definition Available (b : Writer) : int := defaultBufSize - len (buf b).

(** [b.Flush()] *)
Definition Flush (b : Writer) : Writer * option error :=
  match berr b with
  | Some e => (b, Some e)
  | None =>
      if len (buf b) =? 0 then (b, None)
      else
        let '(w', (n, err)) := io_Write (wr b) (buf b) in
        let err :=
          match err with
          | None => if Z.of_nat n <? len (buf b)
                    then Some ErrShortWrite else None
          | Some e => Some e
          end in
        match err with
        | Some e => (mkW (drop n (buf b)) (Some e) w', Some e)
        | None => (mkW "" None w', None)
        end
  end.

(** [b.WriteByte(c)] *)
Definition WriteByte (c : ascii) (b : Writer) : Writer * option error :=
  match berr b with
  | Some e => (b, Some e)
  | None =>
      if Available b <=? 0 then
        match Flush b with
        | (b', Some e) => (b', berr b')
        | (b', None) => (mkW (buf b' ++ String c "") (berr b') (wr b'), None)
        end
      else (mkW (buf b ++ String c "") (berr b) (wr b), None)
  end.

(** The loop of [b.WriteString(s)]: while [s] does not fit and no error
    has occurred, fill the buffer and flush it.  [fuel] bounds the number
    of iterations. *)
Fixpoint WriteString_loop (fuel : nat) (s : string) (b : Writer)
  : string * Writer :=
  match fuel with
  | O => (s, b)
  | S k =>
      match berr b with
      | None =>
          if Available b <? len s then
            let n := Z.to_nat (Z.min (Available b) (len s)) in
            let b1 := mkW (buf b ++ take n s) (berr b) (wr b) in
            WriteString_loop k (drop n s) (fst (Flush b1))
          else (s, b)
      | Some _ => (s, b)
      end
  end.

(** [b.WriteString(s)]; the byte count it also returns is never read. *)
Definition WriteString (s : string) (b : Writer) : Writer * option error :=
  let '(s', b') := WriteString_loop (S (String.length s)) s b in
  match berr b' with
  | Some e => (b', Some e)
  | None => (mkW (buf b' ++ s') (berr b') (wr b'), None)
  end.

End bufio.

(** The writers the printer is run with: a [bytes.Buffer], which never
    fails, in [stmtLen] and its siblings, and a [bufio.Writer] in
    [Fprint]. *)
Inductive bufWriter : Type :=
  | BytesBuffer (content : string)
  | BufioWriter (b : bufio.Writer).

Definition WriteByte (c : ascii) (w : bufWriter) : bufWriter * option error :=
  match w with
  | BytesBuffer s => (BytesBuffer (s ++ String c ""), None)
  | BufioWriter b =>
      let '(b', e) := bufio.WriteByte c b in (BufioWriter b', e)
  end.

Definition WriteString (s : string) (w : bufWriter)
  : bufWriter * option error :=
  match w with
  | BytesBuffer t => (BytesBuffer (t ++ s), None)
  | BufioWriter b =>
      let '(b', e) := bufio.WriteString s b in (BufioWriter b', e)
  end.

(** [buf.Len()] and [buf.String()] of a [bytes.Buffer] *)
Definition Buffer_String (w : bufWriter) : string :=
  match w with
  | BytesBuffer s => s
  | BufioWriter b => bufio.buf b
  end.

Definition Buffer_Len (w : bufWriter) : int := len (Buffer_String w).

(** ** The printer's state *)

Record printer : Type := mkPrinter {
  w : bufWriter;
  f : File;
  c : PrintConfig;
  err : option error;
  nestedBinary : bool;
  wantSpace : bool;
  wantNewline : bool;
  wantSpaces : int;
  curLine : int;
  lastLevel : int;
  level : int;
  levelIncs : list bool;
  comments : list Comment;
  pendingHdocs : list Redirect
}.

(** [printer{w: w, f: f, c: c}]: every other field has its zero value. *)
Definition new_printer (w0 : bufWriter) (f0 : File) (c0 : PrintConfig)
  : printer :=
  mkPrinter w0 f0 c0 None false false false 0 0 0 0 [] [] [].

Definition set_w v p := mkPrinter v (f p) (c p) (err p) (nestedBinary p)
  (wantSpace p) (wantNewline p) (wantSpaces p) (curLine p) (lastLevel p)
  (level p) (levelIncs p) (comments p) (pendingHdocs p).
Definition set_err v p := mkPrinter (w p) (f p) (c p) v (nestedBinary p)
  (wantSpace p) (wantNewline p) (wantSpaces p) (curLine p) (lastLevel p)
  (level p) (levelIncs p) (comments p) (pendingHdocs p).
Definition set_nestedBinary v p := mkPrinter (w p) (f p) (c p) (err p) v
  (wantSpace p) (wantNewline p) (wantSpaces p) (curLine p) (lastLevel p)
  (level p) (levelIncs p) (comments p) (pendingHdocs p).
Definition set_wantSpace v p := mkPrinter (w p) (f p) (c p) (err p)
  (nestedBinary p) v (wantNewline p) (wantSpaces p) (curLine p) (lastLevel p)
  (level p) (levelIncs p) (comments p) (pendingHdocs p).
Definition set_wantNewline v p := mkPrinter (w p) (f p) (c p) (err p)
  (nestedBinary p) (wantSpace p) v (wantSpaces p) (curLine p) (lastLevel p)
  (level p) (levelIncs p) (comments p) (pendingHdocs p).
Definition set_wantSpaces v p := mkPrinter (w p) (f p) (c p) (err p)
  (nestedBinary p) (wantSpace p) (wantNewline p) v (curLine p) (lastLevel p)
  (level p) (levelIncs p) (comments p) (pendingHdocs p).
Definition set_curLine v p := mkPrinter (w p) (f p) (c p) (err p)
  (nestedBinary p) (wantSpace p) (wantNewline p) (wantSpaces p) v (lastLevel p)
  (level p) (levelIncs p) (comments p) (pendingHdocs p).
Definition set_lastLevel v p := mkPrinter (w p) (f p) (c p) (err p)
  (nestedBinary p) (wantSpace p) (wantNewline p) (wantSpaces p) (curLine p) v
  (level p) (levelIncs p) (comments p) (pendingHdocs p).
Definition set_level v p := mkPrinter (w p) (f p) (c p) (err p)
  (nestedBinary p) (wantSpace p) (wantNewline p) (wantSpaces p) (curLine p)
  (lastLevel p) v (levelIncs p) (comments p) (pendingHdocs p).
Definition set_levelIncs v p := mkPrinter (w p) (f p) (c p) (err p)
  (nestedBinary p) (wantSpace p) (wantNewline p) (wantSpaces p) (curLine p)
  (lastLevel p) (level p) v (comments p) (pendingHdocs p).
Definition set_comments v p := mkPrinter (w p) (f p) (c p) (err p)
  (nestedBinary p) (wantSpace p) (wantNewline p) (wantSpaces p) (curLine p)
  (lastLevel p) (level p) (levelIncs p) v (pendingHdocs p).
Definition set_pendingHdocs v p := mkPrinter (w p) (f p) (c p) (err p)
  (nestedBinary p) (wantSpace p) (wantNewline p) (wantSpaces p) (curLine p)
  (lastLevel p) (level p) (levelIncs p) (comments p) v.

(** ** The printing monad *)

(** A call either returns a value and the next state, or panics (an index
    out of range), or has not returned within the recursion depth it was
    given. *)
Inductive res (A : Type) : Type :=
  | Ok (a : A) (p : printer)
  | Panic
  | NoFuel.

Arguments Panic {A}.
Arguments NoFuel {A}.

Definition M (A : Type) : Type := printer -> res A.

Definition ret {A} (a : A) : M A := fun p => Ok a p.

Definition bind {A B} (m : M A) (k : A -> M B) : M B :=
  fun p =>
    match m p with
    | Ok a p' => k a p'
    | Panic => Panic
    | NoFuel => NoFuel
    end.

Definition gets {A} (g : printer -> A) : M A := fun p => Ok (g p) p.

Definition modify (g : printer -> printer) : M unit := fun p => Ok tt (g p).

Definition panic {A} : M A := fun _ => Panic.

Declare Scope go_scope.
Delimit Scope go_scope with go.
Notation "x <- m ;; k" := (bind m (fun x => k))
  (at level 61, m at next level, right associativity) : go_scope.
Notation "m ;; k" := (bind m (fun _ => k))
  (at level 61, right associativity) : go_scope.
Open Scope go_scope.

Definition when (b : bool) (m : M unit) : M unit :=
  if b then m else ret tt.

(** [for _, x := range l { body x }] *)
Fixpoint forM {A} (body : A -> M unit) (l : list A) : M unit :=
  match l with
  | [] => ret tt
  | x :: r => body x ;; forM body r
  end.

(** A range loop that threads a local variable through its iterations. *)
Fixpoint foldM {A S} (body : S -> A -> M S) (s : S) (l : list A) : M S :=
  match l with
  | [] => ret s
  | x :: r => s' <- body s x ;; foldM body s' r
  end.

Fixpoint repeatM (n : nat) (m : M unit) : M unit :=
  match n with
  | O => ret tt
  | S k => m ;; repeatM k m
  end.

(** [l[len(l)-1]] together with [l[:len(l)-1]]; [None] on the empty slice,
    where Go panics. *)
Fixpoint unsnoc {A} (l : list A) : option (list A * A) :=
  match l with
  | [] => None
  | x :: r =>
      match unsnoc r with
      | None => Some ([], x)
      | Some (i, y) => Some (x :: i, y)
      end
  end.

(** ** Token tables *)

Definition dquote : string := String "034"%char "".

Definition quotedOp (tok : Token) : string :=
  match tok with
  | DQUOTE => dquote
  | DOLLSQ => "$'"
  | SQUOTE => "'"
  | _ => "$" ++ dquote
  end.

(** Modelled from the spec: [quotedStop] is declared in another file of the
    package; a quoting form is closed by the delimiter matching its opener,
    so the ANSI-C and locale quotes close with the plain quote. *)
Definition quotedStop (tok : Token) : Token :=
  match tok with
  | DOLLSQ => SQUOTE
  | DOLLDQ => DQUOTE
  | t => t
  end.

Definition expansionOp (tok : Token) : string :=
  match tok with
  | COLON => ":" | ADD => "+" | CADD => ":+" | SUB => "-" | CSUB => ":-"
  | QUEST => "?" | CQUEST => ":?" | ASSIGN => "=" | CASSIGN => ":="
  | REM => "%" | DREM => "%%" | HASH => "#"
  | _ => "##"
  end.

Definition binaryExprOp (tok : Token) : string :=
  match tok with
  | ASSIGN => "=" | ADD => "+" | SUB => "-" | REM => "%" | MUL => "*"
  | QUO => "/" | AND => "&" | OR => "|" | LAND => "&&" | LOR => "||"
  | XOR => "^" | POW => "**" | EQL => "==" | NEQ => "!=" | LEQ => "<="
  | GEQ => ">=" | ADDASSGN => "+=" | SUBASSGN => "-=" | MULASSGN => "*="
  | QUOASSGN => "/=" | REMASSGN => "%=" | ANDASSGN => "&=" | ORASSGN => "|="
  | XORASSGN => "^=" | SHLASSGN => "<<=" | SHRASSGN => ">>=" | LSS => "<"
  | GTR => ">" | SHL => "<<" | SHR => ">>" | QUEST => "?" | COLON => ":"
  | _ => ","
  end.

Definition unaryExprOp (tok : Token) : string :=
  match tok with
  | ADD => "+" | SUB => "-" | NOT => "!" | INC => "++"
  | _ => "--"
  end.

Definition redirectOp (tok : Token) : string :=
  match tok with
  | LSS => "<" | GTR => ">" | SHL => "<<" | SHR => ">>" | RDRINOUT => "<>"
  | DPLIN => "<&" | DPLOUT => ">&" | DHEREDOC => "<<-" | WHEREDOC => "<<<"
  | RDRALL => "&>"
  | _ => "&>>"
  end.

Definition binaryCmdOp (tok : Token) : string :=
  match tok with
  | OR => "|" | LAND => "&&" | LOR => "||"
  | _ => "|&"
  end.

Definition caseClauseOp (tok : Token) : string :=
  match tok with
  | DSEMICOLON => ";;" | SEMIFALL => ";&"
  | _ => ";;&"
  end.

Definition startsWithLparen (stmts : list Stmt) : bool :=
  match stmts with
  | [] => false
  | s :: _ => match Stmt_Cmd s with Subshell _ _ => true | _ => false end
  end.

(** [r.Op == SHL || r.Op == DHEREDOC] *)
Definition isHeredoc (tok : Token) : bool :=
  match tok with SHL | DHEREDOC => true | _ => false end.

(** ** Elementary steps *)

(** [p.err = p.w.WriteByte(b)] *)
Definition byte (b : ascii) : M unit :=
  modify (fun p => let '(w', e) := WriteByte b (w p) in set_err e (set_w w' p)).

(** [p.w.WriteByte(b)], the error dropped *)
Definition byte_ (b : ascii) : M unit :=
  modify (fun p => set_w (fst (WriteByte b (w p))) p).

(** [_, p.err = p.w.WriteString(s)] *)
Definition str (s : string) : M unit :=
  modify (fun p => let '(w', e) := WriteString s (w p) in set_err e (set_w w' p)).

(** [p.f.Position(pos)] *)
Definition position (pos : Pos) : M Position :=
  gets (fun p => File_Position (f p) pos).

Definition space : M unit :=
  byte " " ;; modify (set_wantSpace false).

Definition spaces (n : int) : M unit :=
  repeatM (Z.to_nat n) (byte_ " ") ;; modify (set_wantSpace false).

Definition tabs (n : int) : M unit :=
  repeatM (Z.to_nat n) (byte_ tab_byte) ;; modify (set_wantSpace false).

Definition bslashNewl : M unit :=
  str (" \" ++ nl) ;;
  modify (set_wantSpace false) ;;
  modify (fun p => set_curLine (add (curLine p) 1) p).

Definition token (s : string) (spaceAfter : bool) : M unit :=
  modify (set_wantSpace spaceAfter) ;; str s.

Definition rsrv (s : string) : M unit :=
  str s ;; modify (set_wantSpace true).

Definition spacedRsrv (s : string) : M unit :=
  ws <- gets wantSpace ;;
  when ws space ;;
  str s ;;
  modify (set_wantSpace true).

Definition spacedTok (s : string) (spaceAfter : bool) : M unit :=
  ws <- gets wantSpace ;;
  when ws space ;;
  modify (set_wantSpace spaceAfter) ;;
  str s.

Definition incLevel : M unit :=
  lv <- gets level ;;
  ll <- gets lastLevel ;;
  inc <- (if lv <=? ll then
            modify (fun p => set_level (add (level p) 1) p) ;; ret true
          else
            incs <- gets levelIncs ;;
            match unsnoc incs with
            | None => panic
            | Some (init, true) =>
                modify (set_levelIncs (init ++ [false])%list) ;; ret true
            | Some (init, false) => ret false
            end) ;;
  modify (fun p => set_levelIncs (levelIncs p ++ [inc])%list p).

Definition decLevel : M unit :=
  incs <- gets levelIncs ;;
  match unsnoc incs with
  | None => panic
  | Some (init, inc) =>
      modify (set_levelIncs init) ;;
      when inc (modify (fun p => set_level (sub (level p) 1) p))
  end.

Definition indent : M unit :=
  modify (fun p => set_lastLevel (level p) p) ;;
  lv <- gets level ;;
  sp <- gets (fun p => Spaces (c p)) ;;
  if lv =? 0 then ret tt
  else if sp =? 0 then tabs lv
  else if sp >? 0 then spaces (mul sp lv)
  else ret tt.

(** [hasInline]: whether a pending comment sits on the line of [pos]. *)
Fixpoint hasInline_loop (fl : File) (pos : Position) (cs : list Comment)
  : bool :=
  match cs with
  | [] => false
  | c :: r =>
      let cpos := File_Position fl (Hash c) in
      if Line cpos =? Line pos then true
      else if Line cpos >? Line pos then false
      else hasInline_loop fl pos r
  end.

Definition hasInline (pos : Position) : M bool :=
  gets (fun p => hasInline_loop (f p) pos (comments p)).

(** ** The recursive functions *)

(** The printer's functions call each other through four of them.  [rec]
    holds these four as they are available to a caller; each function below
    takes the record and calls through it, and [run] ties the knot to a
    given recursion depth. *)
Record rec : Type := mkRec {
  wordPart_r : WordPart -> M unit;
  stmt_r : Stmt -> M unit;
  arithm_r : ArithmExpr -> bool -> M unit;
  commentsUpTo_r : int -> M unit
}.

Section Printer.

Variable self : rec.

Definition unquotedWord (w : Word) : M unit :=
  forM (fun wp =>
          match wp with
          | SglQuoted _ v => str v
          | Quoted _ _ parts => forM (wordPart_r self) parts
          | LitPart _ x =>
              match Value x with
              | EmptyString => panic
              | String c0 rest =>
                  if Ascii.eqb c0 bslash_byte then str rest
                  else str (Value x)
              end
          | _ => wordPart_r self wp
          end) (Word_Parts w).

Definition newline : M unit :=
  modify (set_wantNewline false) ;;
  byte newline_byte ;;
  modify (set_wantSpace false) ;;
  hdocs <- gets pendingHdocs ;;
  forM (fun r =>
          str (Value (Redirect_Hdoc r)) ;;
          modify (fun p => set_curLine
            (add (curLine p) (strings_Count_nl (Value (Redirect_Hdoc r)))) p) ;;
          unquotedWord (Redirect_Word r) ;;
          byte newline_byte ;;
          modify (fun p => set_curLine (add (curLine p) 1) p) ;;
          modify (set_wantSpace false)) hdocs ;;
  modify (set_pendingHdocs []).

Definition newlines (pos : Position) : M unit :=
  newline ;;
  cl <- gets curLine ;;
  when (Line pos >? add cl 1) (byte newline_byte) ;;
  indent ;;
  modify (set_curLine (Line pos)).

Definition alwaysSeparate (pos : Position) : M unit :=
  commentsUpTo_r self (Line pos) ;;
  cl <- gets curLine ;;
  if cl >? 0 then newlines pos
  else modify (set_curLine (Line pos)).

Definition didSeparate (pos : Position) : M bool :=
  commentsUpTo_r self (Line pos) ;;
  wn <- gets wantNewline ;;
  cl <- gets curLine ;;
  if wn || ((cl >? 0) && (Line pos >? cl)) then
    newlines pos ;; ret true
  else if cl =? 0 then
    modify (set_curLine (Line pos)) ;; ret true
  else
    modify (set_curLine (Line pos)) ;; ret false.

Definition semiOrNewl (s : string) (pos : Pos) : M unit :=
  wn <- gets wantNewline ;;
  (if wn then newline ;; indent else str "; ") ;;
  str s ;;
  modify (set_wantSpace true) ;;
  ps <- position pos ;;
  modify (set_curLine (Line ps)).

Definition sepTok (s : string) (pos : Position) : M unit :=
  modify (fun p => set_level (add (level p) 1) p) ;;
  commentsUpTo_r self (Line pos) ;;
  modify (fun p => set_level (sub (level p) 1) p) ;;
  _ <- didSeparate pos ;;
  ws <- gets wantSpace ;;
  when (negb (String.eqb s ")") && ws) space ;;
  str s ;;
  modify (set_wantSpace true).

Definition semiRsrv (s : string) (rpos : Pos) (fallback : bool) : M unit :=
  pos <- position rpos ;;
  modify (fun p => set_level (add (level p) 1) p) ;;
  commentsUpTo_r self (Line pos) ;;
  modify (fun p => set_level (sub (level p) 1) p) ;;
  sep <- didSeparate pos ;;
  (if negb sep && fallback then str "; "
   else ws <- gets wantSpace ;; when ws space) ;;
  str s ;;
  modify (set_wantSpace true).

Definition commentsUpTo (line : int) : M unit :=
  cs <- gets comments ;;
  match cs with
  | [] => ret tt
  | c :: _ =>
      cpos <- position (Hash c) ;;
      if (line >? 0) && (Line cpos >=? line) then ret tt
      else
        modify (set_wantNewline false) ;;
        sep <- didSeparate cpos ;;
        (if negb sep then
           wsp <- gets wantSpaces ;; spaces (add wsp 1)
         else ret tt) ;;
        byte "#" ;;
        str (Text c) ;;
        cs' <- gets comments ;;
        match cs' with
        | [] => panic
        | _ :: rest => modify (set_comments rest)
        end ;;
        commentsUpTo_r self line
  end.

Definition word (w : Word) : M unit :=
  forM (wordPart_r self) (Word_Parts w).

Definition spacedWord (w : Word) : M unit :=
  ws <- gets wantSpace ;;
  when ws space ;;
  forM (wordPart_r self) (Word_Parts w).

Definition wordJoin (ws : list Word) (needBackslash : bool) : M unit :=
  anyNewline <-
    foldM (fun (anyNewline : bool) w =>
             cl <- gets curLine ;;
             wpos <- position (Word_pos w) ;;
             anyNewline' <-
               (if (cl >? 0) && (Line wpos >? cl) then
                  (if needBackslash then bslashNewl
                   else byte newline_byte ;;
                        modify (fun p => set_curLine (add (curLine p) 1) p)) ;;
                  any <- (if negb anyNewline then incLevel ;; ret true
                          else ret anyNewline) ;;
                  indent ;;
                  ret any
                else
                  sp <- gets wantSpace ;;
                  when sp space ;;
                  ret anyNewline) ;;
             forM (wordPart_r self) (Word_Parts w) ;;
             ret anyNewline') false ws ;;
  when anyNewline decLevel.

(** [stmtLen]: the statement is printed by a fresh printer into a buffer
    of its own, and the length of that buffer is the result. *)
Definition stmtLen (s : Stmt) : M int :=
  fun p =>
    match stmt_r self s
            (new_printer (BytesBuffer "") (f p) (mkPrintConfig 0)) with
    | Ok _ q => Ok (Buffer_Len (w q)) p
    | Panic => Panic
    | NoFuel => NoFuel
    end.

(** The inner loop of [stmts]: the widest statement of the run of
    statements that starts at the current one. *)
Fixpoint stmts_scan (inlineIndent lastLine : int) (l : list Stmt) : M int :=
  match l with
  | [] => ret inlineIndent
  | s2 :: r =>
      pos2 <- position (Stmt_pos s2) ;;
      hi <- hasInline pos2 ;;
      if negb hi || (Line pos2 >? add lastLine 1) then ret inlineIndent
      else
        l2 <- stmtLen s2 ;;
        stmts_scan (if l2 >? inlineIndent then l2 else inlineIndent)
                   (Line pos2) r
  end.

(** The outer loop of [stmts] over [stmts[i:]]. *)
Fixpoint stmts_loop (inlineIndent lastLine : int) (l : list Stmt) : M unit :=
  match l with
  | [] => ret tt
  | s :: r =>
      pos <- position (Stmt_pos s) ;;
      alwaysSeparate pos ;;
      stmt_r self s ;;
      let inlineIndent :=
        if Line pos >? add lastLine 1 then 0 else inlineIndent in
      let lastLine := Line pos in
      hi <- hasInline pos ;;
      if negb hi then stmts_loop 0 lastLine r
      else
        inlineIndent' <-
          (if inlineIndent =? 0 then stmts_scan inlineIndent (Line pos) l
           else ret inlineIndent) ;;
        sl <- stmtLen s ;;
        modify (set_wantSpaces (sub inlineIndent' sl)) ;;
        stmts_loop inlineIndent' lastLine r
  end.

Definition stmts (l : list Stmt) : M bool :=
  match l with
  | [] => ret false
  | s :: r =>
      pos <- position (Stmt_pos s) ;;
      cl <- gets curLine ;;
      if (match r with [] => true | _ => false end) && (Line pos =? cl) then
        _ <- didSeparate pos ;;
        stmt_r self s ;;
        ret false
      else
        stmts_loop 0 (Line pos) l ;;
        modify (set_wantNewline true) ;;
        ret true
  end.

Definition nestedStmts (l : list Stmt) : M bool :=
  incLevel ;;
  sep <- stmts l ;;
  decLevel ;;
  ret sep.

Definition wordPart (wp : WordPart) : M unit :=
  match wp with
  | LitPart _ x => str (Value x)
  | SglQuoted _ v =>
      byte "'" ;;
      str v ;;
      modify (fun p => set_curLine (add (curLine p) (strings_Count_nl v)) p) ;;
      byte "'"
  | Quoted _ q parts =>
      str (quotedOp q) ;;
      forM (fun n =>
              wordPart_r self n ;;
              ps <- position (WordPart_End n) ;;
              modify (set_curLine (Line ps))) parts ;;
      str (quotedOp (quotedStop q))
  | CmdSubst _ backquotes sts right_ =>
      modify (set_wantSpace false) ;;
      (if backquotes then byte "`" else str "$(") ;;
      when (startsWithLparen sts) space ;;
      _ <- nestedStmts sts ;;
      rp <- position right_ ;;
      if backquotes then
        modify (set_wantSpace false) ;;
        sepTok "`" rp
      else sepTok ")" rp
  | ParamExp _ short length param ind repl exp =>
      if short then
        byte "$" ;;
        str (Value param)
      else
        str "${" ;;
        when length (byte "#") ;;
        str (Value param) ;;
        match ind with
        | Some iw => byte "[" ;; word iw ;; byte "]"
        | None => ret tt
        end ;;
        match repl with
        | Some (all, orig, with_) =>
            when all (byte "/") ;;
            byte "/" ;;
            word orig ;;
            byte "/" ;;
            word with_
        | None =>
            match exp with
            | Some (op, ew) => str (expansionOp op) ;; word ew
            | None => ret tt
            end
        end ;;
        byte "}"
  | ArithmExp _ x =>
      str "$((" ;;
      arithm_r self x false ;;
      str "))"
  | ArrayExpr _ lst rparen =>
      modify (set_wantSpace false) ;;
      byte "(" ;;
      wordJoin lst false ;;
      rp <- position rparen ;;
      sepTok ")" rp
  | ProcSubst _ op sts =>
      ws <- gets wantSpace ;;
      when ws space ;;
      match op with
      | CMDIN => str "<("
      | CMDOUT => str ">("
      | _ => ret tt
      end ;;
      _ <- nestedStmts sts ;;
      byte ")"
  end ;;
  modify (set_wantSpace true).

Definition cond (cd : Cond) : M unit :=
  match cd with
  | NilCond => ret tt
  | StmtCond sts => _ <- nestedStmts sts ;; ret tt
  | CStyleCond x =>
      spacedTok "((" false ;;
      arithm_r self x false ;;
      str "))"
  end.

Definition loop (lp : Loop) : M unit :=
  match lp with
  | NilLoop => ret tt
  | WordIter name lst =>
      str (Value name) ;;
      match lst with
      | [] => ret tt
      | _ :: _ => rsrv " in" ;; wordJoin lst true
      end
  | CStyleLoop init cnd post =>
      str "((" ;;
      arithm_r self init false ;;
      str "; " ;;
      arithm_r self cnd false ;;
      str "; " ;;
      arithm_r self post false ;;
      str "))"
  end.

Definition arithm (expr : ArithmExpr) (compact : bool) : M unit :=
  modify (set_wantSpace false) ;;
  match expr with
  | NilArithm => ret tt
  | WordExpr x => spacedWord x
  | BinaryExpr x op y =>
      if compact then
        arithm_r self x true ;;
        str (binaryExprOp op) ;;
        arithm_r self y true
      else
        arithm_r self x false ;;
        when (negb (Token_eqb op COMMA)) space ;;
        str (binaryExprOp op) ;;
        space ;;
        arithm_r self y false
  | UnaryExpr post op x =>
      if post then
        arithm_r self x compact ;;
        str (unaryExprOp op)
      else
        str (unaryExprOp op) ;;
        arithm_r self x compact
  | ParenExpr x =>
      byte "(" ;;
      arithm_r self x false ;;
      byte ")"
  end.

Definition assigns (l : list Assign) : M unit :=
  anyNewline <-
    foldM (fun (anyNewline : bool) a =>
             let '(mkAssign apos name append value) := a in
             cl <- gets curLine ;;
             ps <- position apos ;;
             anyNewline' <-
               (if (cl >? 0) && (Line ps >? cl) then
                  bslashNewl ;;
                  any <- (if negb anyNewline then incLevel ;; ret true
                          else ret anyNewline) ;;
                  indent ;;
                  ret any
                else
                  sp <- gets wantSpace ;;
                  when sp space ;;
                  ret anyNewline) ;;
             match name with
             | Some nm =>
                 str (Value nm) ;;
                 if append then token "+=" true else token "=" true
             | None => ret tt
             end ;;
             word value ;;
             ret anyNewline') false l ;;
  when anyNewline decLevel.

(** The redirections of a call that are printed right after its first
    word; the result counts them. *)
Fixpoint command_redirs (arg1 : Pos) (startRedirs : nat)
         (redirs : list Redirect) : M nat :=
  match redirs with
  | [] => ret startRedirs
  | r :: rest =>
      if Redirect_pos r >? arg1 then ret startRedirs
      else if isHeredoc (Redirect_Op r) then ret startRedirs
      else
        ws <- gets wantSpace ;;
        when ws space ;;
        match Redirect_N r with
        | Some n => str (Value n)
        | None => ret tt
        end ;;
        str (redirectOp (Redirect_Op r)) ;;
        modify (set_wantSpace true) ;;
        word (Redirect_Word r) ;;
        command_redirs arg1 (S startRedirs) rest
  end.

Definition command (cmd : Command) (redirs : list Redirect) : M nat :=
  match cmd with
  | NilCommand => ret O
  | CallExpr args =>
      match args with
      | a0 :: a1 :: more =>
          wordJoin [a0] true ;;
          startRedirs <- command_redirs (Word_pos a1) O redirs ;;
          wordJoin (a1 :: more) true ;;
          ret startRedirs
      | _ => wordJoin args true ;; ret O
      end
  | Block sts rbrace =>
      spacedRsrv "{" ;;
      _ <- nestedStmts sts ;;
      semiRsrv "}" rbrace true ;;
      ret O
  | IfClause cd then_ thenStmts elifs else_ elseStmts fi =>
      spacedRsrv "if" ;;
      cond cd ;;
      semiOrNewl "then" then_ ;;
      _ <- nestedStmts thenStmts ;;
      forM (fun el =>
              let '(mkElif elif ecd ethen ethenStmts) := el in
              semiRsrv "elif" elif true ;;
              cond ecd ;;
              semiOrNewl "then" ethen ;;
              _ <- nestedStmts ethenStmts ;;
              ret tt) elifs ;;
      match elseStmts with
      | _ :: _ =>
          semiRsrv "else" else_ true ;;
          _ <- nestedStmts elseStmts ;;
          ret tt
      | [] =>
          if else_ >? 0 then
            ps <- position else_ ;;
            modify (set_curLine (Line ps))
          else ret tt
      end ;;
      semiRsrv "fi" fi true ;;
      ret O
  | Subshell sts rparen =>
      spacedTok "(" false ;;
      when (startsWithLparen sts) space ;;
      _ <- nestedStmts sts ;;
      rp <- position rparen ;;
      sepTok ")" rp ;;
      ret O
  | WhileClause cd do doStmts dn =>
      spacedRsrv "while" ;;
      cond cd ;;
      semiOrNewl "do" do ;;
      _ <- nestedStmts doStmts ;;
      semiRsrv "done" dn true ;;
      ret O
  | ForClause lp do doStmts dn =>
      spacedRsrv "for " ;;
      loop lp ;;
      semiOrNewl "do" do ;;
      _ <- nestedStmts doStmts ;;
      semiRsrv "done" dn true ;;
      ret O
  | BinaryCmd x op y =>
      stmt_r self x ;;
      nb <- gets nestedBinary ;;
      let indent_ := negb nb in
      when indent_ incLevel ;;
      modify (set_nestedBinary
                (match Stmt_Cmd y with BinaryCmd _ _ _ => true | _ => false end)) ;;
      ypos <- position (Stmt_pos y) ;;
      hd <- gets pendingHdocs ;;
      cl <- gets curLine ;;
      match hd with
      | _ :: _ => ret tt
      | [] => if Line ypos >? cl then bslashNewl ;; indent else ret tt
      end ;;
      modify (set_curLine (Line ypos)) ;;
      spacedTok (binaryCmdOp op) true ;;
      stmt_r self y ;;
      when indent_ decLevel ;;
      modify (set_nestedBinary false) ;;
      ret O
  | FuncDecl bashStyle name body =>
      when bashStyle (str "function ") ;;
      str (Value name) ;;
      str "() " ;;
      stmt_r self body ;;
      ret O
  | CaseClause wd lst esac =>
      spacedRsrv "case " ;;
      word wd ;;
      rsrv " in" ;;
      incLevel ;;
      forM (fun pl =>
              let '(mkPatternList first patterns sts opPos op) := pl in
              fp <- position first ;;
              _ <- didSeparate fp ;;
              _ <- foldM (fun (i : nat) w =>
                       when (0 <? i)%nat (spacedTok "|" true) ;;
                       spacedWord w ;;
                       ret (S i)) O patterns ;;
              byte ")" ;;
              sep <- nestedStmts sts ;;
              modify (fun p => set_level (add (level p) 1) p) ;;
              opPosn <- position opPos ;;
              cl <- gets curLine ;;
              (if negb sep then
                 modify (fun p => set_curLine (add (curLine p) 1) p)
               else if (Line opPosn =? cl) && negb (opPos =? esac) then
                 modify (fun p => set_curLine (sub (curLine p) 1) p)
               else ret tt) ;;
              sepTok (caseClauseOp op) opPosn ;;
              when (opPos =? esac)
                   (modify (fun p => set_curLine (sub (curLine p) 1) p)) ;;
              modify (fun p => set_level (sub (level p) 1) p)) lst ;;
      decLevel ;;
      semiRsrv "esac" esac (match lst with [] => true | _ => false end) ;;
      ret O
  | UntilClause cd do doStmts dn =>
      spacedRsrv "until" ;;
      cond cd ;;
      semiOrNewl "do" do ;;
      _ <- nestedStmts doStmts ;;
      semiRsrv "done" dn true ;;
      ret O
  | DeclClause local opts asgs =>
      (if local then spacedRsrv "local" else spacedRsrv "declare") ;;
      forM spacedWord opts ;;
      assigns asgs ;;
      ret O
  | EvalClause st =>
      spacedRsrv "eval" ;;
      match st with
      | Some s => stmt_r self s
      | None => ret tt
      end ;;
      ret O
  | LetClause exprs =>
      spacedRsrv "let" ;;
      forM (fun n => space ;; arithm_r self n true) exprs ;;
      ret O
  end.

(** One trailing redirection of a statement: the body of the loop of
    [stmt].  The local [anyNewline] is threaded through. *)
Definition stmt_redir (anyNewline : bool) (r : Redirect) : M bool :=
  pos <- position (Redirect_OpPos r) ;;
  cl <- gets curLine ;;
  anyNewline' <-
    (if (cl >? 0) && (Line pos >? cl) then
       bslashNewl ;;
       any <- (if negb anyNewline then incLevel ;; ret true
               else ret anyNewline) ;;
       indent ;;
       ret any
     else ret anyNewline) ;;
  _ <- didSeparate pos ;;
  ws <- gets wantSpace ;;
  when ws space ;;
  match Redirect_N r with
  | Some n => str (Value n)
  | None => ret tt
  end ;;
  str (redirectOp (Redirect_Op r)) ;;
  modify (set_wantSpace true) ;;
  word (Redirect_Word r) ;;
  when (isHeredoc (Redirect_Op r))
       (modify (fun p => set_pendingHdocs (pendingHdocs p ++ [r])%list p)) ;;
  ret anyNewline'.

Definition stmt (s : Stmt) : M unit :=
  let '(mkStmt _ negated asgs cmd redirs background) := s in
  when negated (spacedRsrv "!") ;;
  assigns asgs ;;
  startRedirs <- command cmd redirs ;;
  anyNewline <- foldM stmt_redir false (skipn startRedirs redirs) ;;
  when anyNewline decLevel ;;
  when background (str " &").

End Printer.

(** [unquotedWordStr] and [wordStr]: the word is printed by a fresh printer
    into a buffer of its own, and the text of that buffer is the result. *)
Definition unquotedWordStr (self : rec) (fl : File) (wd : Word) : res string :=
  match unquotedWord self wd
          (new_printer (BytesBuffer "") fl (mkPrintConfig 0)) with
  | Ok _ q => Ok (Buffer_String (w q)) q
  | Panic => Panic
  | NoFuel => NoFuel
  end.

Definition wordStr (self : rec) (fl : File) (wd : Word) : res string :=
  match word self wd
          (new_printer (BytesBuffer "") fl (mkPrintConfig 0)) with
  | Ok _ q => Ok (Buffer_String (w q)) q
  | Panic => Panic
  | NoFuel => NoFuel
  end.

(** The four functions at recursion depth [n]: with no depth left a call
    does not return. *)
Fixpoint run (n : nat) : rec :=
  match n with
  | O => mkRec (fun _ _ => NoFuel) (fun _ _ => NoFuel)
               (fun _ _ _ => NoFuel) (fun _ _ => NoFuel)
  | S k => mkRec (wordPart (run k)) (stmt (run k))
                 (arithm (run k)) (commentsUpTo (run k))
  end.

(** [PrintConfig.Fprint]: the result is the error returned; the state it
    comes with holds the writer after the flush. *)
Definition Fprint (n : nat) (cfg : PrintConfig) (sink : io_Writer) (fl : File)
  : res (option error) :=
  let bw := bufio.Reset sink in
  let p := new_printer (BufioWriter bw) fl cfg in
  (modify (set_comments (File_Comments fl)) ;;
   _ <- stmts (run n) (File_Stmts fl) ;;
   commentsUpTo (run n) 0 ;;
   newline (run n) ;;
   e <- gets err ;;
   match e with
   | None =>
       modify (fun p =>
                 match w p with
                 | BufioWriter b =>
                     let '(b', e') := bufio.Flush b in
                     set_err e' (set_w (BufioWriter b') p)
                 | BytesBuffer _ => p
                 end)
   | Some _ => ret tt
   end ;;
   gets err) p.

(** [Fprint]: the default configuration. *)
Definition Fprint_default (n : nat) (sink : io_Writer) (fl : File)
  : res (option error) :=
  Fprint n (mkPrintConfig 0) sink fl.

(** ** Definitions used to state the properties *)

(** The error [Flush] reports for a [Write] that answered [r] to [data]. *)
Definition flush_error (r : nat * option error) (data : string)
  : option error :=
  match snd r with
  | Some e => Some e
  | None => if Z.of_nat (fst r) <? len data then Some ErrShortWrite else None
  end.

(** The sink behind the printer's buffered writer. *)
Definition sink_of (p : printer) : option io_Writer :=
  match w p with
  | BufioWriter b => Some (bufio.wr b)
  | BytesBuffer _ => None
  end.

(** Two printer states that agree on everything the printer reads: their
    writers are related by [Rw] and their remembered errors by [Re]. *)
Definition Rp (Rw : bufWriter -> bufWriter -> Prop)
           (Re : option error -> option error -> Prop)
           (p1 p2 : printer) : Prop :=
  Rw (w p1) (w p2) /\ Re (err p1) (err p2) /\
  f p1 = f p2 /\ c p1 = c p2 /\
  nestedBinary p1 = nestedBinary p2 /\
  wantSpace p1 = wantSpace p2 /\
  wantNewline p1 = wantNewline p2 /\
  wantSpaces p1 = wantSpaces p2 /\
  curLine p1 = curLine p2 /\
  lastLevel p1 = lastLevel p2 /\
  level p1 = level p2 /\
  levelIncs p1 = levelIncs p2 /\
  comments p1 = comments p2 /\
  pendingHdocs p1 = pendingHdocs p2.

(** Two results that agree; with [lax] the first may have run out of
    recursion depth where the second has not. *)
Definition Rres (Rw : bufWriter -> bufWriter -> Prop)
           (Re : option error -> option error -> Prop) (lax : bool)
           {A} (r1 r2 : res A) : Prop :=
  match r1, r2 with
  | Ok a1 q1, Ok a2 q2 => a1 = a2 /\ Rp Rw Re q1 q2
  | Panic, Panic => True
  | NoFuel, NoFuel => True
  | NoFuel, _ => lax = true
  | _, _ => False
  end.

Definition rel (Rw : bufWriter -> bufWriter -> Prop)
           (Re : option error -> option error -> Prop) (lax : bool)
           {A} (m1 m2 : M A) : Prop :=
  forall p1 p2, Rp Rw Re p1 p2 -> Rres Rw Re lax (m1 p1) (m2 p2).

(** [mono m1 m2]: wherever [m1] returns or panics, [m2] does the same. *)
Definition mono {A} (m1 m2 : M A) : Prop := rel eq eq true m1 m2.

Definition mono_rec (s1 s2 : rec) : Prop :=
  (forall wp, mono (wordPart_r s1 wp) (wordPart_r s2 wp)) /\
  (forall s, mono (stmt_r s1 s) (stmt_r s2 s)) /\
  (forall e b, mono (arithm_r s1 e b) (arithm_r s2 e b)) /\
  (forall l, mono (commentsUpTo_r s1 l) (commentsUpTo_r s2 l)).

(** The four functions of a [rec] relate to themselves. *)
Definition param_rec (Rw : bufWriter -> bufWriter -> Prop)
           (Re : option error -> option error -> Prop) (s : rec) : Prop :=
  (forall wp, rel Rw Re false (wordPart_r s wp) (wordPart_r s wp)) /\
  (forall st, rel Rw Re false (stmt_r s st) (stmt_r s st)) /\
  (forall e b, rel Rw Re false (arithm_r s e b) (arithm_r s e b)) /\
  (forall l, rel Rw Re false (commentsUpTo_r s l) (commentsUpTo_r s l)).

(** A sink that accepts every write in full, as a [bytes.Buffer] or a file
    with room does. *)
Definition reliable (sink : io_Writer) : Prop :=
  forall h d, answer sink h d = (String.length d, None).

Definition reliable_sink : io_Writer :=
  mkWriter [] (fun _ d => (String.length d, None)).

(** The text a reliable sink has received. *)
Definition sink_text (sink : io_Writer) : string :=
  fold_right append "" (calls sink).

(** The traversal that [Fprint] starts with, and the flush it ends with. *)
Definition traversal (n : nat) (fl : File) : M unit :=
  modify (set_comments (File_Comments fl)) ;;
  _ <- stmts (run n) (File_Stmts fl) ;;
  commentsUpTo (run n) 0 ;;
  newline (run n).

Definition finish : M (option error) :=
  e <- gets err ;;
  match e with
  | None =>
      modify (fun p =>
                match w p with
                | BufioWriter b =>
                    let '(b', e') := bufio.Flush b in
                    set_err e' (set_w (BufioWriter b') p)
                | BytesBuffer _ => p
                end)
  | Some _ => ret tt
  end ;;
  gets err.

(** The traversal of [Fprint], run on a [bytes.Buffer]: what the printer
    writes for a file, without the buffering in between. *)
Definition render (n : nat) (cfg : PrintConfig) (fl : File) : res unit :=
  traversal n fl (new_printer (BytesBuffer "") fl cfg).

(** The text [render] produced. *)
Definition rendered (r : res unit) : option string :=
  match r with
  | Ok _ q => Some (Buffer_String (w q))
  | _ => None
  end.

(** A buffered writer over a reliable sink and a buffer that hold the same
    text, after the text [t0] the sink had to begin with. *)
Definition Rw_out (t0 : string) (w1 w2 : bufWriter) : Prop :=
  match w1, w2 with
  | BufioWriter bw, BytesBuffer b =>
      bufio.berr bw = None /\ reliable (bufio.wr bw) /\
      sink_text (bufio.wr bw) ++ bufio.buf bw = t0 ++ b
  | _, _ => False
  end.

Definition both_nil (e1 e2 : option error) : Prop := e1 = None /\ e2 = None.

Definition good_bufio (b : bufio.Writer) : Prop :=
  bufio.berr b = None /\ reliable (bufio.wr b).

Definition bufio_text (b : bufio.Writer) : string :=
  sink_text (bufio.wr b) ++ bufio.buf b.

(** The error of the first failing [Write] among the calls [ds] that follow
    the history [h]; [None] when each of them is accepted in full. *)
Fixpoint first_error (ans : list string -> string -> nat * option error)
         (h : list string) (ds : list string) : option error :=
  match ds with
  | [] => None
  | d :: r =>
      match flush_error (ans h d) d with
      | Some e => Some e
      | None => first_error ans (h ++ [d]) r
      end
  end.

(** The state of a buffered writer that began over [sink0]: its sticky
    error is the first error among the calls it made, and it made no call
    after a failed one. *)
Definition sticky (sink0 : io_Writer) (b : bufio.Writer) : Prop :=
  answer (bufio.wr b) = answer sink0 /\
  exists ds,
    calls (bufio.wr b) = (calls sink0 ++ ds)%list /\
    bufio.berr b = first_error (answer sink0) (calls sink0) ds /\
    first_error (answer sink0) (calls sink0) (removelast ds) = None.

Definition Rw_sticky (sink0 : io_Writer) (w1 w2 : bufWriter) : Prop :=
  match w1 with
  | BufioWriter b => sticky sink0 b
  | BytesBuffer _ => False
  end.

Definition any_err (e1 e2 : option error) : Prop := True.

Definition any_writer (w1 w2 : bufWriter) : Prop := True.

(** The sticky error of a writer; a [bytes.Buffer] has none. *)
Definition writer_err (wr : bufWriter) : option error :=
  match wr with
  | BufioWriter b => bufio.berr b
  | BytesBuffer _ => None
  end.

(** Two calls that end alike: both return, in states that differ in the
    writer and the remembered error at most, or both panic, or both are
    out of depth. *)
Definition same_outcome {A B} (r1 : res A) (r2 : res B) : Prop :=
  match r1, r2 with
  | Ok _ q1, Ok _ q2 => Rp any_writer any_err q1 q2
  | Panic, Panic => True
  | NoFuel, NoFuel => True
  | _, _ => False
  end.

(** The remembered error is the sticky error of the writer. *)
Definition err_synced (p : printer) : Prop := err p = writer_err (w p).

(** ** Plain words *)

(** [s] without one leading backslash. *)
Definition stripBackslash (s : string) : string :=
  match s with
  | EmptyString => EmptyString
  | String c0 rest => if Ascii.eqb c0 bslash_byte then rest else s
  end.

Definition isLit (wp : WordPart) : bool :=
  match wp with LitPart _ _ => true | _ => false end.

Definition litValue (wp : WordPart) : string :=
  match wp with LitPart _ x => Value x | _ => "" end.

(** The text of a word whose parts are literals, single-quoted strings and
    quoted literals, as the specification words it: quoted parts without
    their delimiters, literal parts without one leading backslash. *)
Definition unquotedPartText (wp : WordPart) : string :=
  match wp with
  | SglQuoted _ v => v
  | LitPart _ x => stripBackslash (Value x)
  | Quoted _ _ parts => fold_right append "" (map litValue parts)
  | _ => ""
  end.

Definition unquotedText (wd : Word) : string :=
  fold_right append "" (map unquotedPartText (Word_Parts wd)).

(** A part that [unquotedWord] prints without calling back into the
    statement printer; the literal ones among them are not empty. *)
Definition plainPart (wp : WordPart) : bool :=
  match wp with
  | SglQuoted _ _ => true
  | LitPart _ x => negb (String.eqb (Value x) "")
  | Quoted _ _ parts => forallb isLit parts
  | _ => false
  end.

Definition plainWord (wd : Word) : bool := forallb plainPart (Word_Parts wd).

(** A word with a literal part whose text is empty. *)
Definition hasEmptyLit (wd : Word) : Prop :=
  exists e, In (LitPart e (mkLit "")) (Word_Parts wd).

(** [p'] is [p] but for the writer, the error and the pending space. *)
Definition same_layout (p p' : printer) : Prop :=
  f p' = f p /\ c p' = c p /\ nestedBinary p' = nestedBinary p /\
  wantNewline p' = wantNewline p /\ wantSpaces p' = wantSpaces p /\
  curLine p' = curLine p /\ lastLevel p' = lastLevel p /\
  level p' = level p /\ levelIncs p' = levelIncs p /\
  comments p' = comments p /\ pendingHdocs p' = pendingHdocs p.

(** ** The heredoc queue *)

(** What draining one queued heredoc writes: its body, its terminator word
    unquoted, a newline. *)
Definition hdocText (r : Redirect) : string :=
  Value (Redirect_Hdoc r) ++ unquotedText (Redirect_Word r) ++ nl.

Definition drainText (hs : list Redirect) : string :=
  fold_right append "" (map hdocText hs).

(** The line counter after a heredoc: advanced by the newlines of the body
    and by the line of the terminator. *)
Definition hdocLine (cl : int) (r : Redirect) : int :=
  add (add cl (strings_Count_nl (Value (Redirect_Hdoc r)))) 1.

Definition drainLine (cl : int) (hs : list Redirect) : int :=
  fold_left hdocLine hs cl.

Definition plainHdocs (hs : list Redirect) : bool :=
  forallb (fun r => plainWord (Redirect_Word r)) hs.

(** [p'] is [p] but for the writer, the error, the pending space and
    newline, the line counter and the heredoc queue. *)
Definition same_levels (p p' : printer) : Prop :=
  f p' = f p /\ c p' = c p /\ nestedBinary p' = nestedBinary p /\
  wantSpaces p' = wantSpaces p /\ lastLevel p' = lastLevel p /\
  level p' = level p /\ levelIncs p' = levelIncs p /\
  comments p' = comments p.

(** A buffer whose text starts with [x]. *)
Definition Rw_pre (x : string) (w1 w2 : bufWriter) : Prop :=
  exists y, w1 = BytesBuffer (x ++ y).

(** What [Fprint] does before its last newline. *)
Definition before_newline (n : nat) (fl : File) : M unit :=
  modify (set_comments (File_Comments fl)) ;;
  _ <- stmts (run n) (File_Stmts fl) ;;
  commentsUpTo (run n) 0.

(** ** Example trees *)

(** The position service of the examples: the offset [100 * l + c] is
    column [c] of line [l]. *)
Definition line_col (pos : Pos) : Position :=
  mkPosition (pos / 100) (pos mod 100).

(** A word of one literal part. *)
Definition litWord (pos : Pos) (s : string) : Word :=
  mkWord pos [LitPart (pos + len s) (mkLit s)].

(** A simple command, its words one space apart. *)
Fixpoint litWords (pos : Pos) (ws : list string) : list Word :=
  match ws with
  | [] => []
  | s :: r => litWord pos s :: litWords (pos + len s + 1) r
  end.

Definition callStmt (pos : Pos) (ws : list string) : Stmt :=
  mkStmt pos false [] (CallExpr (litWords pos ws)) [] false.

(** [cmd <<EOF], the body [body] and the terminator, then [cmd2]. *)
Definition heredoc_file : File :=
  mkFile
    [mkStmt 101 false [] (CallExpr [litWord 101 "cmd"])
       [mkRedirect 105 105 SHL None (litWord 107 "EOF") (mkLit ("body" ++ nl))]
       false;
     callStmt 401 ["cmd2"]]
    [] line_col.

Definition config0 : PrintConfig := mkPrintConfig 0.

(** ** Arithmetic expressions *)

(** An expression whose leaves are words of literal parts. *)
Fixpoint plainArithm (e : ArithmExpr) : bool :=
  match e with
  | NilArithm => true
  | WordExpr wd => forallb isLit (Word_Parts wd)
  | BinaryExpr x _ y => plainArithm x && plainArithm y
  | UnaryExpr _ _ x => plainArithm x
  | ParenExpr x => plainArithm x
  end.

Fixpoint arithmDepth (e : ArithmExpr) : nat :=
  match e with
  | NilArithm => 0
  | WordExpr _ => 0
  | BinaryExpr x _ y => S (Nat.max (arithmDepth x) (arithmDepth y))
  | UnaryExpr _ _ x => S (arithmDepth x)
  | ParenExpr x => S (arithmDepth x)
  end.

Definition wordText (wd : Word) : string :=
  fold_right append "" (map litValue (Word_Parts wd)).

(** The text of a plain expression as [arithm] prints it: in the mode that
    is not compact a binary operator has a space on each side, except that
    the comma has none before it; an expression in parentheses is never
    compact. *)
Fixpoint arithmText (e : ArithmExpr) (compact : bool) : string :=
  match e with
  | NilArithm => ""
  | WordExpr wd => wordText wd
  | BinaryExpr x op y =>
      if compact then
        arithmText x true ++ binaryExprOp op ++ arithmText y true
      else
        arithmText x false ++ (if Token_eqb op COMMA then "" else " ")
          ++ binaryExprOp op ++ " " ++ arithmText y false
  | UnaryExpr post op x =>
      if post then arithmText x compact ++ unaryExprOp op
      else unaryExprOp op ++ arithmText x compact
  | ParenExpr x => "(" ++ arithmText x false ++ ")"
  end.

(** The text of a plain expression in the words of the specification: not
    compact, a space on each side of a binary operator except the comma,
    which has a space on neither side; compact, no space around an
    operator. *)
Fixpoint arithmText_spec (e : ArithmExpr) (compact : bool) : string :=
  match e with
  | NilArithm => ""
  | WordExpr wd => wordText wd
  | BinaryExpr x op y =>
      if compact then
        arithmText_spec x true ++ binaryExprOp op ++ arithmText_spec y true
      else if Token_eqb op COMMA then
        arithmText_spec x false ++ binaryExprOp op ++ arithmText_spec y false
      else
        arithmText_spec x false ++ " " ++ binaryExprOp op ++ " "
          ++ arithmText_spec y false
  | UnaryExpr post op x =>
      if post then arithmText_spec x compact ++ unaryExprOp op
      else unaryExprOp op ++ arithmText_spec x compact
  | ParenExpr x => "(" ++ arithmText_spec x false ++ ")"
  end.

(** The header of a C-style loop in the words of the specification: its
    three expressions compact. *)
Definition loopText_spec (init cnd post : ArithmExpr) : string :=
  "((" ++ arithmText_spec init true ++ "; " ++ arithmText_spec cnd true
       ++ "; " ++ arithmText_spec post true ++ "))".

Definition arithmWord (s : string) : ArithmExpr := WordExpr (litWord 101 s).

(** [a, b] *)
Definition comma_expr : ArithmExpr :=
  BinaryExpr (arithmWord "a") COMMA (arithmWord "b").

(** The three expressions of [for ((i = 0; i < 10; i++))]. *)
Definition loop_init : ArithmExpr :=
  BinaryExpr (arithmWord "i") ASSIGN (arithmWord "0").
Definition loop_cond : ArithmExpr :=
  BinaryExpr (arithmWord "i") LSS (arithmWord "10").
Definition loop_post : ArithmExpr := UnaryExpr true INC (arithmWord "i").

Definition empty_file : File := mkFile [] [] line_col.

Definition fresh_buffer : printer :=
  new_printer (BytesBuffer "") empty_file config0.

(** [m] returns [a] and appends [s] to the buffer, leaving the layout
    state as it was. *)
Definition writes {A} (m : M A) (a : A) (s : string) : Prop :=
  forall p t, w p = BytesBuffer t ->
    exists p', m p = Ok a p' /\ w p' = BytesBuffer (t ++ s) /\
               same_layout p p'.


(** ** Blank lines *)

(** The indentation [indent] writes at a level. *)
Definition indentText (cfg : PrintConfig) (lv : int) : string :=
  if lv =? 0 then ""
  else if Spaces cfg =? 0 then repeat_byte tab_byte (Z.to_nat lv)
  else if Spaces cfg >? 0 then
    repeat_byte space_byte (Z.to_nat (mul (Spaces cfg) lv))
  else "".

(** The longest run of consecutive newline bytes of a text; [cur] is the
    length of the run that ends where the text begins. *)
Fixpoint newline_run (cur best : nat) (s : string) : nat :=
  match s with
  | EmptyString => Nat.max cur best
  | String c0 r =>
      if Ascii.eqb c0 newline_byte then newline_run (S cur) best r
      else newline_run 0 (Nat.max cur best) r
  end.

(** A text has no run of more than one blank line when no more than two
    newline bytes follow each other. *)
Definition max_newline_run (s : string) : nat := newline_run 0 0 s.

(** [echo 'a<nl><nl><nl>b']: a quoted string with two blank lines. *)
Definition blank_lines_file : File :=
  mkFile
    [mkStmt 101 false []
       (CallExpr [litWord 101 "echo";
                  mkWord 106 [SglQuoted 409 ("a" ++ nl ++ nl ++ nl ++ "b")]])
       [] false]
    [] line_col.

(** The number of newline bytes a text ends with. *)
Fixpoint trailing_newlines_from (cur : nat) (s : string) : nat :=
  match s with
  | EmptyString => cur
  | String c0 r =>
      if Ascii.eqb c0 newline_byte then trailing_newlines_from (S cur) r
      else trailing_newlines_from 0 r
  end.

Definition trailing_newlines (s : string) : nat := trailing_newlines_from 0 s.

(** [cat <<''] with the body [hello]: the heredoc ends at the first empty
    line. *)
Definition empty_terminator_file : File :=
  mkFile
    [mkStmt 101 false [] (CallExpr [litWord 101 "cat"])
       [mkRedirect 105 105 SHL None (mkWord 107 [SglQuoted 109 ""])
                   (mkLit ("hello" ++ nl))]
       false]
    [] line_col.

(** ** Indentation balance *)

Definition countTrue (l : list bool) : Z :=
  Z.of_nat (List.length (filter (fun b => b) l)).

(** The level not accounted for by the flags of the stack. *)
Definition phi (p : printer) : Z := level p - countTrue (levelIncs p).

(** From [p] to [p'] the stack of flags grew by [dl] entries and the level
    moved by [dphi] more than its flags say (modulo the width of [int]);
    a level within the range of [int] stays within it. *)
Definition bal (dl dphi : Z) (p p' : printer) : Prop :=
  Z.of_nat (List.length (levelIncs p'))
    = Z.of_nat (List.length (levelIncs p)) + dl /\
  (2 ^ 64 | phi p' - phi p - dphi) /\
  (in_int (level p) -> in_int (level p')).

(** Every state a call returns is related to the state it began in. *)
Definition sat {A} (R : printer -> printer -> Prop) (m : M A) : Prop :=
  forall p, match m p with Ok _ p' => R p p' | _ => True end.

Definition satv {A} (R : A -> printer -> printer -> Prop) (m : M A) : Prop :=
  forall p, match m p with Ok a p' => R a p p' | _ => True end.

Definition b2z (b : bool) : Z := if b then 1 else 0.

Definition bal_rec (s : rec) : Prop :=
  (forall wp, sat (bal 0 0) (wordPart_r s wp)) /\
  (forall st, sat (bal 0 0) (stmt_r s st)) /\
  (forall e b, sat (bal 0 0) (arithm_r s e b)) /\
  (forall l, sat (bal 0 0) (commentsUpTo_r s l)).

(** The relation of a step that returns the flag [a] of the loops that
    indent once: the stack grew by one entry if the flag went up from
    [c]. *)
Definition Rany (c0 : Z) (a : bool) (p p' : printer) : Prop :=
  bal (b2z a - c0) 0 p p'.

(** A step that is balanced and returns [a]. *)
Definition Rret {A} (a : A) (b : A) (p p' : printer) : Prop :=
  b = a /\ bal 0 0 p p'.

(** [if a; then] with [b] on the next line and [fi] on the third. *)
Definition nested_file : File :=
  mkFile
    [mkStmt 101 false []
       (IfClause (StmtCond [callStmt 104 ["a"]]) 107
                 [callStmt 201 ["b"]] [] 0 [] 301)
       [] false]
    [] line_col.

(** ** Further properties: definitions *)

(** The comments are in the order of their lines. *)
Fixpoint sortedComments (fl : File) (cs : list Comment) : Prop :=
  match cs with
  | [] => True
  | c1 :: r =>
      match r with
      | [] => True
      | c2 :: _ =>
          Line (File_Position fl (Hash c1)) <= Line (File_Position fl (Hash c2))
      end /\ sortedComments fl r
  end.

Definition commentLine (fl : File) (c0 : Comment) : int :=
  Line (File_Position fl (Hash c0)).

(** A redirection that [command] prints right after the first word of a
    call: it does not start after the second word and is no heredoc. *)
Definition earlyRedirect (arg1 : Pos) (r : Redirect) : Prop :=
  Redirect_pos r <= arg1 /\ isHeredoc (Redirect_Op r) = false.

(** The token kinds each table names, its default last. *)
Definition redirectTokens : list Token :=
  [LSS; GTR; SHL; SHR; RDRINOUT; DPLIN; DPLOUT; DHEREDOC; WHEREDOC; RDRALL;
   APPALL].
Definition binaryExprTokens : list Token :=
  [ASSIGN; ADD; SUB; REM; MUL; QUO; AND; OR; LAND; LOR; XOR; POW; EQL; NEQ;
   LEQ; GEQ; ADDASSGN; SUBASSGN; MULASSGN; QUOASSGN; REMASSGN; ANDASSGN;
   ORASSGN; XORASSGN; SHLASSGN; SHRASSGN; LSS; GTR; SHL; SHR; QUEST; COLON;
   COMMA].
Definition unaryExprTokens : list Token := [ADD; SUB; NOT; INC; DEC].
Definition expansionTokens : list Token :=
  [COLON; ADD; CADD; SUB; CSUB; QUEST; CQUEST; ASSIGN; CASSIGN; REM; DREM;
   HASH; DHASH].
Definition binaryCmdTokens : list Token := [OR; LAND; LOR; PIPEALL].
Definition caseClauseTokens : list Token := [DSEMICOLON; SEMIFALL; DSEMIFALL].
Definition quoteTokens : list Token := [DQUOTE; DOLLSQ; SQUOTE; DOLLDQ].

(** A table gives the tokens of a list pairwise different spellings. *)
Definition distinctOn (table : Token -> string) (toks : list Token) : Prop :=
  forall a b, In a toks -> In b toks -> table a = table b -> a = b.

(** The text of a list of words, one space before each but, unless a space
    is pending, the first. *)
Fixpoint joinFrom (pending : bool) (ws : list Word) : string :=
  match ws with
  | [] => ""
  | wd :: r => (if pending then " " else "") ++ wordText wd ++ joinFrom true r
  end.

(** A word of literal parts, at least one. *)
Definition simpleWord (wd : Word) : bool :=
  match Word_Parts wd with
  | [] => false
  | _ :: _ => forallb isLit (Word_Parts wd)
  end.

(** A simple command: words only. *)
Definition simpleCall (pos : Pos) (args : list Word) : Stmt :=
  mkStmt pos false [] (CallExpr args) [] false.

(** No word of [ws] starts on a line after [cl], the line being printed;
    with [cl] zero no line has been printed yet. *)
Definition onLine (fl : File) (cl : int) (ws : list Word) : bool :=
  forallb (fun wd =>
             negb ((cl >? 0) && (Line (File_Position fl (Word_pos wd)) >? cl)))
          ws.

(** ** The comment backlog *)

(** From [p] to [p'] no comment was put back: the comments pending in [p']
    are the last of those pending in [p]; the file and the configuration
    are the same. *)
Definition consumed (p p' : printer) : Prop :=
  f p' = f p /\ c p' = c p /\
  exists k, comments p' = skipn k (comments p).

Definition consumed_rec (s : rec) : Prop :=
  (forall wp, sat consumed (wordPart_r s wp)) /\
  (forall st, sat consumed (stmt_r s st)) /\
  (forall e b, sat consumed (arithm_r s e b)) /\
  (forall l, sat consumed (commentsUpTo_r s l)).

(** ** Words with their quotes *)

(** A part printed without a call into the statement printer: a literal, a
    single-quoted string, a quoted string of literals. *)
Definition flatPart (wp : WordPart) : bool :=
  match wp with
  | LitPart _ _ | SglQuoted _ _ => true
  | Quoted _ _ parts => forallb isLit parts
  | _ => false
  end.

(** The text of such a part, with its quotes. *)
Definition partText (wp : WordPart) : string :=
  match wp with
  | LitPart _ x => Value x
  | SglQuoted _ v => "'" ++ v ++ "'"
  | Quoted _ q parts =>
      quotedOp q ++ fold_right append "" (map litValue parts)
                 ++ quotedOp (quotedStop q)
  | _ => ""
  end.

(** The first of the comments [cs] is not to be printed before [line]. *)
Definition notDue (fl : File) (line : int) (cs : list Comment) : bool :=
  match cs with
  | [] => true
  | c1 :: _ => (line >? 0) && (commentLine fl c1 >=? line)
  end.

(** [p'] is [p] but for the writer, the error, the pending space and
    newline, the line counter and the last level used. *)
Definition same_page (p p' : printer) : Prop :=
  f p' = f p /\ c p' = c p /\ nestedBinary p' = nestedBinary p /\
  wantSpaces p' = wantSpaces p /\ level p' = level p /\
  levelIncs p' = levelIncs p /\ comments p' = comments p /\
  pendingHdocs p' = pendingHdocs p.

(** What [commentsUpTo] writes before the hash of a comment on line [cl]:
    a line break if the comment is on a later line than the current one,
    nothing on the first line, and else the spaces that put it in its
    column. *)
Definition commentLead (p : printer) (cl : int) : string :=
  if (curLine p >? 0) && (cl >? curLine p) then
    nl ++ drainText (pendingHdocs p)
       ++ (if cl >? add (drainLine (curLine p) (pendingHdocs p)) 1
           then nl else "")
       ++ indentText (c p) (level p)
  else if curLine p =? 0 then ""
  else repeat_byte space_byte (Z.to_nat (add (wantSpaces p) 1)).

(** ** Inline comments in one column *)

(** A simple command with a comment on its line. *)
Record commented : Type := mkCommented {
  Call_pos : Pos;
  Call_args : list Word;
  Call_comment : Comment
}.

Definition callOf (x : commented) : Stmt :=
  simpleCall (Call_pos x) (Call_args x).

(** The command as it is printed, and its width. *)
Definition callText (x : commented) : string := joinFrom false (Call_args x).

Definition callWidth (x : commented) : int := len (callText x).

(** The width of the widest command of a run. *)
Definition runWidth (l : list commented) : int :=
  fold_right (fun x m => Z.max (callWidth x) m) 0 l.

(** The commands of [l] are on the lines [ln], [ln + 1], ..., one on each,
    with their words and their comments. *)
Fixpoint adjacent (fl : File) (ln : int) (l : list commented) : Prop :=
  match l with
  | [] => True
  | x :: r =>
      Line (File_Position fl (Call_pos x)) = ln /\
      commentLine fl (Call_comment x) = ln /\
      onLine fl ln (Call_args x) = true /\
      forallb simpleWord (Call_args x) = true /\
      adjacent fl (ln + 1) r
  end.

(** The spaces and the comment after a command, for comments in the column
    after the width [wd]. *)
Definition alignedTail (wd : int) (x : commented) : string :=
  repeat_byte space_byte (Z.to_nat (wd - callWidth x + 1))
    ++ "#" ++ Text (Call_comment x).

Definition alignedLine (wd : int) (x : commented) : string :=
  callText x ++ alignedTail wd x.

(** The state of the printer before the command on line [ln]: the comment
    of the command before it, if there is one, is pending, and the spaces
    that align it are set. *)
Definition awaiting (fl : File) (wd : int) (prev : option commented)
           (ln : int) (rest : list commented) (p : printer) : Prop :=
  f p = fl /\ pendingHdocs p = [] /\
  match prev with
  | None =>
      curLine p = 0 /\ wantSpace p = false /\
      comments p = map Call_comment rest
  | Some y =>
      curLine p = ln - 1 /\ 0 < ln - 1 /\
      commentLine fl (Call_comment y) = ln - 1 /\
      comments p = Call_comment y :: map Call_comment rest /\
      wantSpaces p = wd - callWidth y /\ callWidth y <= wd
  end.

(** What is written before a command: the comment of the command before
    it and the line break. *)
Definition leadOf (sep : string) (wd : int) (prev : option commented)
  : string :=
  match prev with
  | None => ""
  | Some y => alignedTail wd y ++ sep
  end.

(** What the loop of [stmts] writes for a run of commands. *)
Fixpoint runText (sep : string) (wd : int) (prev : option commented)
         (l : list commented) : string :=
  match l with
  | [] => ""
  | x :: r => leadOf sep wd prev ++ callText x ++ runText sep wd (Some x) r
  end.

Fixpoint lastCall (prev : option commented) (l : list commented)
  : option commented :=
  match l with
  | [] => prev
  | x :: r => lastCall (Some x) r
  end.

(** ** A script of simple commands *)

(** The statements of a script of simple commands, each given by its
    position and its words. *)
Definition scriptStmts (l : list (Pos * list Word)) : list Stmt :=
  map (fun x => simpleCall (fst x) (snd x)) l.

(** A command of a script: its line is above zero, its words are literal
    and none of them is on a later line. *)
Definition scriptCall (fl : File) (x : Pos * list Word) : Prop :=
  0 < Line (File_Position fl (fst x)) /\
  Line (File_Position fl (fst x)) + 1 < 2 ^ 63 /\
  onLine fl (Line (File_Position fl (fst x))) (snd x) = true /\
  forallb simpleWord (snd x) = true.

(** The text of a script after line [prev], zero before the first line:
    each command on a line of its own, at the indentation [ind], after a
    blank line if it is more than a line after the command before it. *)
Fixpoint scriptText (fl : File) (ind : string) (prev : int)
         (l : list (Pos * list Word)) : string :=
  match l with
  | [] => ""
  | x :: r =>
      let ln := Line (File_Position fl (fst x)) in
      (if prev >? 0 then
         nl ++ (if ln >? prev + 1 then nl else "") ++ ind
       else "")
        ++ joinFrom false (snd x) ++ scriptText fl ind ln r
  end.

(** ** Compound commands on one line *)

(** The printer is on line [ln], with no comment pending and no newline
    wanted, at a level that was used. *)
Definition oneLine (p : printer) (ln : int) : Prop :=
  curLine p = ln /\ 0 < ln /\ comments p = [] /\ wantNewline p = false /\
  level p <= lastLevel p /\ in_int (level p).

(** The positions [ps] are on line [ln]. *)
Definition allOn (fl : File) (ln : int) (ps : list Pos) : Prop :=
  Forall (fun q => Line (File_Position fl q) = ln) ps.

(** A simple command on line [ln]. *)
Definition callOn (fl : File) (ln : int) (pos : Pos) (args : list Word)
  : Prop :=
  Line (File_Position fl pos) = ln /\ onLine fl ln args = true /\
  forallb simpleWord args = true.

(** ** A subshell that begins a subshell *)

(** The printer is on line [ln], with no comment pending and no newline
    wanted. *)
Definition lineState (p : printer) (ln : int) : Prop :=
  curLine p = ln /\ 0 < ln /\ comments p = [] /\ wantNewline p = false.

(** [p'] is on the line of [p]: the same file, configuration, line,
    comments and heredocs pending, newline wanted and last level used, and
    as many flags on the stack. *)
Definition same_line (p p' : printer) : Prop :=
  f p' = f p /\ c p' = c p /\ curLine p' = curLine p /\
  comments p' = comments p /\ wantNewline p' = wantNewline p /\
  pendingHdocs p' = pendingHdocs p /\ lastLevel p' = lastLevel p /\
  List.length (levelIncs p') = List.length (levelIncs p).

(** A statement that is a subshell of one simple command. *)
Definition subshellStmt (ipos : Pos) (cpos : Pos) (cargs : list Word)
           (irparen : Pos) : Stmt :=
  mkStmt ipos false [] (Subshell [simpleCall cpos cargs] irparen) [] false.

(** ** Heredocs and the line *)

(** A redirection whose operator is on line [ln] and whose word is of
    literal parts. *)
Definition redirOn (fl : File) (ln : int) (r : Redirect) : Prop :=
  Line (File_Position fl (Redirect_OpPos r)) = ln /\
  simpleWord (Redirect_Word r) = true.

(** A redirection as [stmt] writes it: the descriptor, if there is one, the
    operator and the word. *)
Definition redirText (r : Redirect) : string :=
  match Redirect_N r with Some d => Value d | None => "" end
    ++ redirectOp (Redirect_Op r) ++ wordText (Redirect_Word r).

(** Redirections one after the other, a space between them; [pending]: a
    space is wanted before the first. *)
Fixpoint redirsText (pending : bool) (rs : list Redirect) : string :=
  match rs with
  | [] => ""
  | r :: rest =>
      (if pending then " " else "") ++ redirText r ++ redirsText true rest
  end.

(** The heredocs among redirections, in their order. *)
Definition heredocsOf (rs : list Redirect) : list Redirect :=
  filter (fun r => isHeredoc (Redirect_Op r)) rs.

(** The text after the first newline byte of a text. *)
Fixpoint afterNewline (s : string) : string :=
  match s with
  | EmptyString => EmptyString
  | String c0 r => if Ascii.eqb c0 newline_byte then r else afterNewline r
  end.

(** [cat <<EOF] with [>out] on the next line, and the body [body]. *)
Definition continuation_file : File :=
  mkFile
    [mkStmt 101 false [] (CallExpr [litWord 101 "cat"])
       [mkRedirect 105 105 SHL None (litWord 107 "EOF") (mkLit ("body" ++ nl));
        mkRedirect 203 203 GTR None (litWord 204 "out") (mkLit "")]
       false]
    [] line_col.

(** [cmd <<EOF] and [cmd2] with every position on line zero. *)
Definition line0_file : File :=
  mkFile
    [mkStmt 1 false [] (CallExpr [litWord 1 "cmd"])
       [mkRedirect 5 5 SHL None (litWord 7 "EOF") (mkLit ("body" ++ nl))]
       false;
     callStmt 21 ["cmd2"]]
    [] line_col.

(** A call with the redirections [rs], then a simple command. *)
Definition heredoc_script (posfn : Pos -> Position) (pos1 : Pos)
           (args1 : list Word) (rs : list Redirect) (pos2 : Pos)
           (args2 : list Word) : File :=
  mkFile [mkStmt pos1 false [] (CallExpr args1) rs false;
          simpleCall pos2 args2] [] posfn.

(** * Properties *)

(** ** Strings *)

Lemma append_nil_r (s : string) : s ++ "" = s.
Proof. induction s; simpl; congruence. Qed.

Lemma append_assoc (a b d : string) : (a ++ b) ++ d = a ++ (b ++ d).
Proof. induction a; simpl; congruence. Qed.

Lemma length_append (a b : string) :
  String.length (a ++ b) = (String.length a + String.length b)%nat.
Proof. induction a; simpl; congruence. Qed.

(** ** Writing into a [bytes.Buffer] *)

Lemma str_buffer (s b : string) (p : printer) :
  w p = BytesBuffer b ->
  str s p = Ok tt (set_err None (set_w (BytesBuffer (b ++ s)) p)).
Proof. intros H. unfold str, modify. rewrite H. reflexivity. Qed.

Lemma byte_buffer (x : ascii) (b : string) (p : printer) :
  w p = BytesBuffer b ->
  byte x p = Ok tt (set_err None (set_w (BytesBuffer (b ++ String x "")) p)).
Proof. intros H. unfold byte, modify. rewrite H. reflexivity. Qed.

Lemma bind_Ok {A B} (m : M A) (k : A -> M B) p a p' :
  m p = Ok a p' -> bind m k p = k a p'.
Proof. unfold bind. intros ->. reflexivity. Qed.

Lemma bind_modify {B} (g : printer -> printer) (k : unit -> M B) p :
  bind (modify g) k p = k tt (g p).
Proof. reflexivity. Qed.

Lemma bind_gets {A B} (g : printer -> A) (k : A -> M B) p :
  bind (gets g) k p = k (g p) p.
Proof. reflexivity. Qed.

Lemma bind_assoc_gets {A B C} (g : printer -> A) (k : A -> M B)
      (h : B -> M C) p :
  bind (bind (gets g) k) h p = bind (k (g p)) h p.
Proof. reflexivity. Qed.

Lemma bind_ret {A B} (a : A) (k : A -> M B) p : bind (ret a) k p = k a p.
Proof. reflexivity. Qed.

Arguments str_buffer s {b p} _.
Arguments byte_buffer x {b p} _.
Arguments bind_Ok {A B m} k {p a p'} _.

(** ** The empty file *)

(** C9: printing a file with no statement and no comment sends the sink one
    [Write] of exactly one newline byte, whatever the configuration; the
    error returned is the one that [Write] gives rise to. *)
Theorem Fprint_empty_file (n : nat) (cfg : PrintConfig) (sink : io_Writer)
        (ps : Pos -> Position) :
  exists p,
    Fprint n cfg sink (mkFile [] [] ps)
      = Ok (flush_error (answer sink (calls sink) nl) nl) p /\
    sink_of p = Some (mkWriter (calls sink ++ [nl]) (answer sink)).
Proof.
  unfold Fprint, flush_error. cbn.
  destruct (answer sink (calls sink) nl) as [k e] eqn:E.
  unfold nl in *. rewrite E. cbn.
  destruct e as [e|]; cbn.
  - eexists; split; reflexivity.
  - destruct (Z.of_nat k <? 1); cbn; eexists; split; reflexivity.
Qed.

(** ** Two runs of the printer side by side *)

Create HintDb rel.

Section Relational.

Variable Rw : bufWriter -> bufWriter -> Prop.
Variable Re : option error -> option error -> Prop.
Variable lax : bool.

Hypothesis Rw_byte : forall x w1 w2, Rw w1 w2 ->
  Rw (fst (WriteByte x w1)) (fst (WriteByte x w2)) /\
  Re (snd (WriteByte x w1)) (snd (WriteByte x w2)).
Hypothesis Rw_str : forall s w1 w2, Rw w1 w2 ->
  Rw (fst (WriteString s w1)) (fst (WriteString s w2)) /\
  Re (snd (WriteString s w1)) (snd (WriteString s w2)).

Local Abbreviation RpS := (Rp Rw Re).
Local Abbreviation RresS := (Rres Rw Re lax).
Local Abbreviation relS := (rel Rw Re lax).

Lemma rel_ret {A} (a : A) : relS (ret a) (ret a).
Proof. intros p1 p2 H. simpl. auto. Qed.

Lemma rel_panic {A} : relS (@panic A) (@panic A).
Proof. intros p1 p2 H. exact I. Qed.

Lemma rel_bind {A B} (m1 m2 : M A) (k1 k2 : A -> M B) :
  relS m1 m2 -> (forall a, relS (k1 a) (k2 a)) ->
  relS (bind m1 k1) (bind m2 k2).
Proof.
  intros Hm Hk p1 p2 H. unfold bind. specialize (Hm p1 p2 H).
  destruct (m1 p1) as [a1 q1| |], (m2 p2) as [a2 q2| |]; simpl in *;
    try contradiction; try exact I; try assumption.
  - destruct Hm as [-> Hq]. apply Hk, Hq.
  - destruct (k2 a2 q2); simpl; auto.
Qed.

Lemma rel_gets {A} (g : printer -> A) :
  (forall p1 p2, RpS p1 p2 -> g p1 = g p2) -> relS (gets g) (gets g).
Proof. intros Hg p1 p2 H. simpl. auto. Qed.

Lemma rel_modify (g : printer -> printer) :
  (forall p1 p2, RpS p1 p2 -> RpS (g p1) (g p2)) -> relS (modify g) (modify g).
Proof. intros Hg p1 p2 H. simpl. auto. Qed.

Lemma rel_when (b : bool) (m1 m2 : M unit) :
  relS m1 m2 -> relS (when b m1) (when b m2).
Proof. destruct b; simpl; auto using rel_ret. Qed.

Lemma rel_forM {A} (b1 b2 : A -> M unit) (l : list A) :
  (forall x, relS (b1 x) (b2 x)) -> relS (forM b1 l) (forM b2 l).
Proof.
  intros Hb. induction l; simpl.
  - apply rel_ret.
  - apply rel_bind; auto.
Qed.

Lemma rel_foldM {A S} (b1 b2 : S -> A -> M S) (l : list A) :
  (forall s x, relS (b1 s x) (b2 s x)) ->
  forall s, relS (foldM b1 s l) (foldM b2 s l).
Proof.
  intros Hb. induction l; simpl; intros s.
  - apply rel_ret.
  - apply rel_bind; auto.
Qed.

Lemma rel_repeatM (n : nat) (m1 m2 : M unit) :
  relS m1 m2 -> relS (repeatM n m1) (repeatM n m2).
Proof.
  intros Hm. induction n; simpl.
  - apply rel_ret.
  - apply rel_bind; auto.
Qed.

Ltac Rp_split H :=
  destruct H as (?Hw & ?He & ?Hf & ?Hc & ?Hnb & ?Hws & ?Hwn & ?Hwsp & ?Hcl
                 & ?Hll & ?Hlv & ?Hli & ?Hcm & ?Hph).

Ltac Rp_solve :=
  let p1 := fresh "p1" in let p2 := fresh "p2" in let H := fresh "H" in
  intros p1 p2 H; Rp_split H; unfold Rp; simpl;
  repeat split; solve [assumption | congruence].

Ltac agree_solve :=
  let p1 := fresh "p1" in let p2 := fresh "p2" in let H := fresh "H" in
  intros p1 p2 H; Rp_split H; simpl; congruence.

Lemma rel_byte (x : ascii) : relS (byte x) (byte x).
Proof.
  apply rel_modify. intros p1 p2 H. Rp_split H.
  destruct (Rw_byte x Hw) as [Hw' He'].
  destruct (WriteByte x (w p1)), (WriteByte x (w p2)); simpl in *.
  unfold Rp; simpl. repeat split; assumption.
Qed.

Lemma rel_byte_ (x : ascii) : relS (byte_ x) (byte_ x).
Proof.
  apply rel_modify. intros p1 p2 H. Rp_split H.
  destruct (Rw_byte x Hw) as [Hw' He'].
  unfold Rp; simpl. repeat split; assumption.
Qed.

Lemma rel_str (s : string) : relS (str s) (str s).
Proof.
  apply rel_modify. intros p1 p2 H. Rp_split H.
  destruct (Rw_str s Hw) as [Hw' He'].
  destruct (WriteString s (w p1)), (WriteString s (w p2)); simpl in *.
  unfold Rp; simpl. repeat split; assumption.
Qed.

#[local] Hint Resolve rel_ret rel_panic rel_byte rel_byte_ rel_str : rel.

(** One step of a proof that a function relates to itself. *)
Ltac rel_step :=
  match goal with
  | |- rel _ _ _ (bind _ _) (bind _ _) => apply rel_bind; [ | intros ? ]
  | |- rel _ _ _ (ret _) (ret _) => apply rel_ret
  | |- rel _ _ _ panic panic => apply rel_panic
  | |- rel _ _ _ (gets _) (gets _) => apply rel_gets; agree_solve
  | |- rel _ _ _ (position _) (position _) => apply rel_gets; agree_solve
  | |- rel _ _ _ (hasInline _) (hasInline _) => apply rel_gets; agree_solve
  | |- rel _ _ _ (modify _) (modify _) => apply rel_modify; Rp_solve
  | |- rel _ _ _ (when _ _) (when _ _) => apply rel_when
  | |- rel _ _ _ (forM _ _) (forM _ _) => apply rel_forM; intros ?
  | |- rel _ _ _ (foldM _ _ _) (foldM _ _ _) => apply rel_foldM; intros ? ?
  | |- rel _ _ _ (repeatM _ _) (repeatM _ _) => apply rel_repeatM
  | |- rel _ _ _ (if ?b then _ else _) (if ?b then _ else _) => destruct b
  | |- rel _ _ _ (match ?x with _ => _ end) (match ?x with _ => _ end) =>
      destruct x
  | |- rel _ _ _ (let '(_, _) := ?x in _) _ => destruct x
  | |- _ => solve [eauto with rel]
  end.

Ltac rel_auto := repeat rel_step.

Lemma rel_space : relS space space.
Proof. unfold space. rel_auto. Qed.
Lemma rel_spaces n : relS (spaces n) (spaces n).
Proof. unfold spaces. rel_auto. Qed.
Lemma rel_tabs n : relS (tabs n) (tabs n).
Proof. unfold tabs. rel_auto. Qed.
Lemma rel_bslashNewl : relS bslashNewl bslashNewl.
Proof. unfold bslashNewl. rel_auto. Qed.
Lemma rel_token s b : relS (token s b) (token s b).
Proof. unfold token. rel_auto. Qed.
Lemma rel_rsrv s : relS (rsrv s) (rsrv s).
Proof. unfold rsrv. rel_auto. Qed.
#[local] Hint Resolve rel_space rel_spaces rel_tabs rel_bslashNewl rel_token rel_rsrv : rel.
Lemma rel_spacedRsrv s : relS (spacedRsrv s) (spacedRsrv s).
Proof. unfold spacedRsrv. rel_auto. Qed.
Lemma rel_spacedTok s b : relS (spacedTok s b) (spacedTok s b).
Proof. unfold spacedTok. rel_auto. Qed.
Lemma rel_incLevel : relS incLevel incLevel.
Proof. unfold incLevel. rel_auto. Qed.
Lemma rel_decLevel : relS decLevel decLevel.
Proof. unfold decLevel. rel_auto. Qed.
Lemma rel_indent : relS indent indent.
Proof. unfold indent. rel_auto. Qed.
#[local] Hint Resolve rel_spacedRsrv rel_spacedTok rel_incLevel rel_decLevel rel_indent : rel.


Variables self1 self2 : rec.

Hypothesis H_wordPart :
  forall wp, relS (wordPart_r self1 wp) (wordPart_r self2 wp).
Hypothesis H_stmt : forall s, relS (stmt_r self1 s) (stmt_r self2 s).
Hypothesis H_arithm :
  forall e b, relS (arithm_r self1 e b) (arithm_r self2 e b).
Hypothesis H_commentsUpTo :
  forall l, relS (commentsUpTo_r self1 l) (commentsUpTo_r self2 l).
Hypothesis H_fresh : forall s fl,
  let p0 := new_printer (BytesBuffer "") fl (mkPrintConfig 0) in
  match stmt_r self1 s p0, stmt_r self2 s p0 with
  | Ok _ q1, Ok _ q2 => Buffer_Len (w q1) = Buffer_Len (w q2)
  | Panic, Panic => True
  | NoFuel, NoFuel => True
  | NoFuel, _ => lax = true
  | _, _ => False
  end.

Lemma H_stmtLen s : relS (stmtLen self1 s) (stmtLen self2 s).
Proof.
  intros p1 p2 H. unfold stmtLen.
  assert (Hf : f p1 = f p2) by (Rp_split H; assumption).
  rewrite <- Hf. specialize (H_fresh s (f p1)). simpl in H_fresh.
  destruct (stmt_r self1 s _) as [a1 q1| |], (stmt_r self2 s _) as [a2 q2| |];
    simpl; try contradiction; try exact I; auto.
Qed.

#[local] Hint Resolve H_wordPart H_stmt H_arithm H_commentsUpTo H_stmtLen
  : rel.

Lemma rel_unquotedWord wd :
  relS (unquotedWord self1 wd) (unquotedWord self2 wd).
Proof. unfold unquotedWord. rel_auto. Qed.
#[local] Hint Resolve rel_unquotedWord : rel.

Lemma rel_newline : relS (newline self1) (newline self2).
Proof. unfold newline. rel_auto. Qed.
#[local] Hint Resolve rel_newline : rel.

Lemma rel_newlines pos : relS (newlines self1 pos) (newlines self2 pos).
Proof. unfold newlines. rel_auto. Qed.
#[local] Hint Resolve rel_newlines : rel.

Lemma rel_alwaysSeparate pos :
  relS (alwaysSeparate self1 pos) (alwaysSeparate self2 pos).
Proof. unfold alwaysSeparate. rel_auto. Qed.

Lemma rel_didSeparate pos :
  relS (didSeparate self1 pos) (didSeparate self2 pos).
Proof. unfold didSeparate. rel_auto. Qed.
#[local] Hint Resolve rel_alwaysSeparate rel_didSeparate : rel.

Lemma rel_semiOrNewl s pos :
  relS (semiOrNewl self1 s pos) (semiOrNewl self2 s pos).
Proof. unfold semiOrNewl. rel_auto. Qed.

Lemma rel_sepTok s pos : relS (sepTok self1 s pos) (sepTok self2 s pos).
Proof. unfold sepTok. rel_auto. Qed.

Lemma rel_semiRsrv s pos b :
  relS (semiRsrv self1 s pos b) (semiRsrv self2 s pos b).
Proof. unfold semiRsrv. rel_auto. Qed.
#[local] Hint Resolve rel_semiOrNewl rel_sepTok rel_semiRsrv : rel.

Lemma rel_commentsUpTo l :
  relS (commentsUpTo self1 l) (commentsUpTo self2 l).
Proof. unfold commentsUpTo. rel_auto. Qed.

Lemma rel_word wd : relS (word self1 wd) (word self2 wd).
Proof. unfold word. rel_auto. Qed.

Lemma rel_spacedWord wd : relS (spacedWord self1 wd) (spacedWord self2 wd).
Proof. unfold spacedWord. rel_auto. Qed.

Lemma rel_wordJoin ws b : relS (wordJoin self1 ws b) (wordJoin self2 ws b).
Proof. unfold wordJoin. rel_auto. Qed.
#[local] Hint Resolve rel_word rel_spacedWord rel_wordJoin : rel.

Lemma rel_stmts_scan l : forall a b,
  relS (stmts_scan self1 a b l) (stmts_scan self2 a b l).
Proof. induction l; intros; simpl; rel_auto. Qed.
#[local] Hint Resolve rel_stmts_scan : rel.

Lemma rel_stmts_loop l : forall a b,
  relS (stmts_loop self1 a b l) (stmts_loop self2 a b l).
Proof. induction l; intros; simpl; rel_auto. Qed.
#[local] Hint Resolve rel_stmts_loop : rel.

Lemma rel_stmts l : relS (stmts self1 l) (stmts self2 l).
Proof. unfold stmts. rel_auto. Qed.
#[local] Hint Resolve rel_stmts : rel.

Lemma rel_nestedStmts l : relS (nestedStmts self1 l) (nestedStmts self2 l).
Proof. unfold nestedStmts. rel_auto. Qed.
#[local] Hint Resolve rel_nestedStmts : rel.

Lemma rel_wordPart wp : relS (wordPart self1 wp) (wordPart self2 wp).
Proof. unfold wordPart. rel_auto. Qed.

Lemma rel_cond cd : relS (cond self1 cd) (cond self2 cd).
Proof. unfold cond. rel_auto. Qed.

Lemma rel_loop lp : relS (loop self1 lp) (loop self2 lp).
Proof. unfold loop. rel_auto. Qed.

Lemma rel_arithm e b : relS (arithm self1 e b) (arithm self2 e b).
Proof. unfold arithm. rel_auto. Qed.

Lemma rel_assigns l : relS (assigns self1 l) (assigns self2 l).
Proof. unfold assigns. rel_auto. Qed.
#[local] Hint Resolve rel_cond rel_loop rel_assigns : rel.

Lemma rel_command_redirs a l : forall k,
  relS (command_redirs self1 a k l) (command_redirs self2 a k l).
Proof. induction l; intros; simpl; rel_auto. Qed.
#[local] Hint Resolve rel_command_redirs : rel.

Lemma rel_command cmd rs : relS (command self1 cmd rs) (command self2 cmd rs).
Proof. unfold command. rel_auto. Qed.

Lemma rel_stmt_redir b r :
  relS (stmt_redir self1 b r) (stmt_redir self2 b r).
Proof. unfold stmt_redir. rel_auto. Qed.
#[local] Hint Resolve rel_command rel_stmt_redir : rel.

Lemma rel_stmt s : relS (stmt self1 s) (stmt self2 s).
Proof. unfold stmt. rel_auto. Qed.

End Relational.

(** ** More recursion depth changes no result *)

Lemma Rp_eq_refl (p : printer) : Rp eq eq p p.
Proof. unfold Rp. repeat split. Qed.

Lemma Rp_eq (p1 p2 : printer) : Rp eq eq p1 p2 -> p1 = p2.
Proof.
  destruct p1, p2. unfold Rp. simpl. intros H.
  repeat match goal with H : _ /\ _ |- _ => destruct H end.
  subst. reflexivity.
Qed.

Lemma eq_byte x (w1 w2 : bufWriter) : w1 = w2 ->
  fst (WriteByte x w1) = fst (WriteByte x w2) /\
  snd (WriteByte x w1) = snd (WriteByte x w2).
Proof. intros ->. split; reflexivity. Qed.

Lemma eq_str s (w1 w2 : bufWriter) : w1 = w2 ->
  fst (WriteString s w1) = fst (WriteString s w2) /\
  snd (WriteString s w1) = snd (WriteString s w2).
Proof. intros ->. split; reflexivity. Qed.

Lemma mono_spec {A} (m1 m2 : M A) :
  mono m1 m2 -> forall p, m1 p <> NoFuel -> m2 p = m1 p.
Proof.
  intros H p Hn. specialize (H p p (Rp_eq_refl p)).
  destruct (m1 p) as [a1 q1| |], (m2 p) as [a2 q2| |]; simpl in H;
    try contradiction; try congruence.
  destruct H as [-> Hq]. apply Rp_eq in Hq. subst. reflexivity.
Qed.

Lemma mono_fresh (s1 s2 : rec) :
  (forall s, mono (stmt_r s1 s) (stmt_r s2 s)) ->
  forall s fl,
    let p0 := new_printer (BytesBuffer "") fl (mkPrintConfig 0) in
    match stmt_r s1 s p0, stmt_r s2 s p0 with
    | Ok _ q1, Ok _ q2 => Buffer_Len (w q1) = Buffer_Len (w q2)
    | Panic, Panic => True
    | NoFuel, NoFuel => True
    | NoFuel, _ => true = true
    | _, _ => False
    end.
Proof.
  intros H s fl p0. specialize (H s p0 p0 (Rp_eq_refl p0)).
  destruct (stmt_r s1 s p0) as [a1 q1| |], (stmt_r s2 s p0) as [a2 q2| |];
    simpl in H; try contradiction; auto.
  destruct H as [_ Hq]. apply Rp_eq in Hq. subst. reflexivity.
Qed.

Lemma run_mono (n : nat) : mono_rec (run n) (run (S n)).
Proof.
  induction n as [|n IH].
  - repeat split; intros; intros p1 p2 H; simpl;
      match goal with |- context [match ?r with _ => _ end] => destruct r end;
      reflexivity.
  - destruct IH as (Hw & Hs & Ha & Hc).
    pose proof (@mono_fresh _ _ Hs) as Hf.
    repeat split; intros; unfold mono; cbn [run wordPart_r stmt_r arithm_r commentsUpTo_r].
    + apply rel_wordPart; auto using eq_byte, eq_str.
    + apply rel_stmt; auto using eq_byte, eq_str.
    + apply rel_arithm; auto using eq_byte, eq_str.
    + apply rel_commentsUpTo; auto using eq_byte, eq_str.
Qed.

Lemma mono_iff {A} (m1 m2 : M A) :
  mono m1 m2 <-> (forall p, m1 p <> NoFuel -> m2 p = m1 p).
Proof.
  split; [apply mono_spec|].
  intros H p1 p2 Hp. apply Rp_eq in Hp. subst p2.
  specialize (H p1). destruct (m1 p1) as [a1 q1| |] eqn:E.
  - rewrite H by discriminate. simpl. split; [reflexivity|apply Rp_eq_refl].
  - rewrite H by discriminate. exact I.
  - destruct (m2 p1); simpl; auto.
Qed.

Lemma mono_refl {A} (m : M A) : mono m m.
Proof. apply mono_iff. reflexivity. Qed.

Lemma mono_trans {A} (m1 m2 m3 : M A) : mono m1 m2 -> mono m2 m3 -> mono m1 m3.
Proof.
  rewrite !mono_iff. intros H12 H23 p Hn.
  rewrite H23; rewrite H12; auto.
Qed.

Lemma run_le (n m : nat) : (n <= m)%nat -> mono_rec (run n) (run m).
Proof.
  induction 1 as [|m Hle IH].
  - repeat split; intros; apply mono_refl.
  - destruct IH as (Hw & Hs & Ha & Hc).
    destruct (run_mono m) as (Hw' & Hs' & Ha' & Hc').
    repeat split; intros; eapply mono_trans; eauto.
Qed.

Lemma mono_stmts (s1 s2 : rec) :
  mono_rec s1 s2 -> forall l, mono (stmts s1 l) (stmts s2 l).
Proof.
  intros (Hw & Hs & Ha & Hc) l.
  apply rel_stmts; auto using eq_byte, eq_str. apply (@mono_fresh _ _ Hs).
Qed.

Lemma mono_commentsUpTo (s1 s2 : rec) :
  mono_rec s1 s2 -> forall l, mono (commentsUpTo s1 l) (commentsUpTo s2 l).
Proof.
  intros (Hw & Hs & Ha & Hc) l.
  apply rel_commentsUpTo; auto using eq_byte, eq_str.
Qed.

Lemma mono_newline (s1 s2 : rec) :
  mono_rec s1 s2 -> mono (newline s1) (newline s2).
Proof.
  intros (Hw & Hs & Ha & Hc).
  apply rel_newline; auto using eq_byte, eq_str.
Qed.

Lemma mono_bind {A B} (m1 m2 : M A) (k1 k2 : A -> M B) :
  mono m1 m2 -> (forall a, mono (k1 a) (k2 a)) -> mono (bind m1 k1) (bind m2 k2).
Proof. apply rel_bind. Qed.

(** A call of [Fprint] that returns or panics at one depth does the same
    at every greater depth. *)
Lemma Fprint_mono (n m : nat) cfg sink fl :
  (n <= m)%nat -> Fprint n cfg sink fl <> NoFuel ->
  Fprint m cfg sink fl = Fprint n cfg sink fl.
Proof.
  intros Hle. unfold Fprint. apply mono_spec.
  pose proof (run_le Hle) as Hr.
  apply mono_bind; [apply mono_refl|intros _].
  apply mono_bind; [apply mono_stmts, Hr|intros _].
  apply mono_bind; [apply mono_commentsUpTo, Hr|intros _].
  apply mono_bind; [apply mono_newline, Hr|intros _].
  apply mono_refl.
Qed.

(** ** The printer does not look at its writer *)

Section Param.

Variable Rw : bufWriter -> bufWriter -> Prop.
Variable Re : option error -> option error -> Prop.

Hypothesis Rw_byte : forall x w1 w2, Rw w1 w2 ->
  Rw (fst (WriteByte x w1)) (fst (WriteByte x w2)) /\
  Re (snd (WriteByte x w1)) (snd (WriteByte x w2)).
Hypothesis Rw_str : forall s w1 w2, Rw w1 w2 ->
  Rw (fst (WriteString s w1)) (fst (WriteString s w2)) /\
  Re (snd (WriteString s w1)) (snd (WriteString s w2)).

Lemma fresh_refl (s : rec) (st : Stmt) (fl : File) :
  let p0 := new_printer (BytesBuffer "") fl (mkPrintConfig 0) in
  match stmt_r s st p0, stmt_r s st p0 with
  | Ok _ q1, Ok _ q2 => Buffer_Len (w q1) = Buffer_Len (w q2)
  | Panic, Panic => True
  | NoFuel, NoFuel => True
  | NoFuel, _ => false = true
  | _, _ => False
  end.
Proof. intros p0. destruct (stmt_r s st p0); auto. Qed.

Lemma run_param (n : nat) : param_rec Rw Re (run n).
Proof.
  induction n as [|n (Hw & Hs & Ha & Hc)].
  - repeat split; intros; intros p1 p2 H; exact I.
  - repeat split; intros; cbn [run wordPart_r stmt_r arithm_r commentsUpTo_r].
    + apply rel_wordPart; auto; try (intros; apply fresh_refl).
    + apply rel_stmt; auto; try (intros; apply fresh_refl).
    + apply rel_arithm; auto; try (intros; apply fresh_refl).
    + apply rel_commentsUpTo; auto; try (intros; apply fresh_refl).
Qed.

Lemma param_stmts n l : rel Rw Re false (stmts (run n) l) (stmts (run n) l).
Proof.
  destruct (run_param n) as (Hw & Hs & Ha & Hc).
  apply rel_stmts; auto; try (intros; apply fresh_refl).
Qed.

Lemma param_commentsUpTo n l :
  rel Rw Re false (commentsUpTo (run n) l) (commentsUpTo (run n) l).
Proof.
  destruct (run_param n) as (Hw & Hs & Ha & Hc).
  apply rel_commentsUpTo; auto; try (intros; apply fresh_refl).
Qed.

Lemma param_newline n : rel Rw Re false (newline (run n)) (newline (run n)).
Proof.
  destruct (run_param n) as (Hw & Hs & Ha & Hc).
  apply rel_newline; auto; try (intros; apply fresh_refl).
Qed.

Lemma param_unquotedWord n wd :
  rel Rw Re false (unquotedWord (run n) wd) (unquotedWord (run n) wd).
Proof.
  destruct (run_param n) as (Hw & Hs & Ha & Hc).
  apply rel_unquotedWord; auto.
Qed.

Lemma param_traversal n fl :
  rel Rw Re false (traversal n fl) (traversal n fl).
Proof.
  unfold traversal. apply rel_bind.
  { apply rel_modify. intros p1 p2 H. unfold Rp in *. simpl. tauto. }
  intros _. apply rel_bind; [apply param_stmts|intros _].
  apply rel_bind; [apply param_commentsUpTo|intros _].
  apply param_newline.
Qed.

End Param.

(** ** A buffered writer over a reliable sink *)

Lemma take_drop (n : nat) (s : string) : take n s ++ drop n s = s.
Proof.
  revert s. induction n; intros s; simpl; [reflexivity|].
  destruct s; simpl; [reflexivity|]. rewrite IHn. reflexivity.
Qed.

Lemma len_0 (s : string) : len s = 0 -> s = "".
Proof. destruct s; unfold len; simpl; [reflexivity|lia]. Qed.

Lemma sink_text_snoc (cs : list string) (d : string) a :
  sink_text (mkWriter (cs ++ [d]) a) = sink_text (mkWriter cs a) ++ d.
Proof.
  unfold sink_text. simpl. induction cs; simpl.
  - apply append_nil_r.
  - rewrite IHcs. symmetry. apply append_assoc.
Qed.

Lemma Flush_reliable (b : bufio.Writer) :
  good_bufio b ->
  good_bufio (fst (bufio.Flush b)) /\
  snd (bufio.Flush b) = None /\
  bufio.buf (fst (bufio.Flush b)) = "" /\
  sink_text (bufio.wr (fst (bufio.Flush b))) = bufio_text b.
Proof.
  intros [He Hr]. unfold bufio.Flush, bufio_text. rewrite He.
  destruct (len (bufio.buf b) =? 0) eqn:E.
  - apply Z.eqb_eq, len_0 in E. simpl. rewrite E, append_nil_r.
    repeat split; auto.
  - unfold io_Write. rewrite Hr. simpl.
    unfold len. rewrite Z.ltb_irrefl. simpl.
    repeat split; auto. destruct (bufio.wr b). apply sink_text_snoc.
Qed.

Lemma WriteByte_reliable (x : ascii) (b : bufio.Writer) :
  good_bufio b ->
  good_bufio (fst (bufio.WriteByte x b)) /\
  snd (bufio.WriteByte x b) = None /\
  bufio_text (fst (bufio.WriteByte x b)) = bufio_text b ++ String x "".
Proof.
  intros Hg. pose proof Hg as [He Hr]. unfold bufio.WriteByte. rewrite He.
  destruct (bufio.Available b <=? 0).
  - destruct (Flush_reliable Hg) as ([He' Hr'] & Hs & Hb & Ht).
    destruct (bufio.Flush b) as [b' e']. simpl in *. subst e'.
    unfold good_bufio, bufio_text. simpl. rewrite Ht, Hb. simpl.
    repeat split; auto.
  - unfold good_bufio, bufio_text. simpl. rewrite append_assoc.
    repeat split; auto.
Qed.

Lemma WriteString_loop_reliable (k : nat) : forall (s : string) (b : bufio.Writer),
  good_bufio b ->
  good_bufio (snd (bufio.WriteString_loop k s b)) /\
  bufio_text (snd (bufio.WriteString_loop k s b))
    ++ fst (bufio.WriteString_loop k s b) = bufio_text b ++ s.
Proof.
  induction k as [|k IH]; intros s b Hg; simpl; [auto|].
  pose proof Hg as [He Hr]. rewrite He.
  destruct (bufio.Available b <? len s); [|simpl; auto].
  set (n := Z.to_nat (Z.min (bufio.Available b) (len s))).
  set (b1 := bufio.mkW (bufio.buf b ++ take n s) None (bufio.wr b)).
  assert (Hg1 : good_bufio b1) by (split; auto).
  destruct (Flush_reliable Hg1) as (Hg2 & _ & Hb & Ht).
  destruct (IH (drop n s) _ Hg2) as [Hg3 Ht3].
  split; [assumption|]. rewrite Ht3.
  unfold bufio_text at 1. rewrite Ht, Hb, append_nil_r.
  unfold bufio_text, b1. simpl. rewrite !append_assoc, take_drop. reflexivity.
Qed.

Lemma WriteString_reliable (s : string) (b : bufio.Writer) :
  good_bufio b ->
  good_bufio (fst (bufio.WriteString s b)) /\
  snd (bufio.WriteString s b) = None /\
  bufio_text (fst (bufio.WriteString s b)) = bufio_text b ++ s.
Proof.
  intros Hg. unfold bufio.WriteString.
  destruct (WriteString_loop_reliable (S (String.length s)) s Hg) as [[He Hr] Ht].
  destruct (bufio.WriteString_loop _ s b) as [s' b']. simpl in *.
  rewrite He. unfold good_bufio, bufio_text in *. simpl.
  rewrite <- append_assoc. repeat split; auto.
Qed.

Lemma Rw_out_byte t0 x w1 w2 : Rw_out t0 w1 w2 ->
  Rw_out t0 (fst (WriteByte x w1)) (fst (WriteByte x w2)) /\
  both_nil (snd (WriteByte x w1)) (snd (WriteByte x w2)).
Proof.
  destruct w1 as [|b], w2 as [t|]; simpl; try tauto.
  intros (He & Hr & Ht).
  destruct (@WriteByte_reliable x b (conj He Hr)) as ([He' Hr'] & Hs & Ht').
  destruct (bufio.WriteByte x b) as [b' e']. simpl in *.
  unfold bufio_text, both_nil in *. rewrite Ht', Ht, append_assoc.
  repeat split; auto.
Qed.

Lemma Rw_out_str t0 s w1 w2 : Rw_out t0 w1 w2 ->
  Rw_out t0 (fst (WriteString s w1)) (fst (WriteString s w2)) /\
  both_nil (snd (WriteString s w1)) (snd (WriteString s w2)).
Proof.
  destruct w1 as [|b], w2 as [t|]; simpl; try tauto.
  intros (He & Hr & Ht).
  destruct (@WriteString_reliable s b (conj He Hr)) as ([He' Hr'] & Hs & Ht').
  destruct (bufio.WriteString s b) as [b' e']. simpl in *.
  unfold bufio_text, both_nil in *. rewrite Ht', Ht, append_assoc.
  repeat split; auto.
Qed.

Lemma Fprint_unfold (n : nat) cfg sink fl :
  Fprint n cfg sink fl =
  (traversal n fl ;; finish)
    (new_printer (BufioWriter (bufio.Reset sink)) fl cfg).
Proof.
  unfold Fprint, traversal, finish, bind.
  destruct (modify _ _); auto. destruct (stmts _ _ _); auto.
  destruct (commentsUpTo _ _ _); auto.
Qed.

(** Over a reliable sink [Fprint] returns no error and the sink receives,
    after what it held, exactly the text that [render] produces; the two
    end alike where they do not return. *)
Lemma Fprint_render (n : nat) cfg sink fl :
  reliable sink ->
  match Fprint n cfg sink fl, render n cfg fl with
  | Ok e p, Ok _ q =>
      e = None /\
      (exists s', sink_of p = Some s' /\ reliable s' /\
                  sink_text s' = sink_text sink ++ Buffer_String (w q)) /\
      levelIncs p = levelIncs q /\ level p = level q /\
      pendingHdocs p = pendingHdocs q /\ comments p = comments q
  | Panic, Panic => True
  | NoFuel, NoFuel => True
  | _, _ => False
  end.
Proof.
  intros Hr. rewrite Fprint_unfold. unfold render.
  set (p1 := new_printer (BufioWriter (bufio.Reset sink)) fl cfg).
  set (p2 := new_printer (BytesBuffer "") fl cfg).
  assert (H0 : Rp (Rw_out (sink_text sink)) both_nil p1 p2).
  { unfold Rp, p1, p2, both_nil. simpl. rewrite !append_nil_r. tauto. }
  pose proof (@param_traversal (Rw_out (sink_text sink)) both_nil
                (@Rw_out_byte _) (@Rw_out_str _) n fl p1 p2 H0) as HT.
  unfold bind at 1.
  destruct (traversal n fl p1) as [a1 q1| |],
           (traversal n fl p2) as [a2 q2| |]; simpl in HT;
    try contradiction; auto; try discriminate.
  destruct HT as [_ HR].
  destruct HR as (Hw & [He1 He2] & Hf & Hc & Hnb & Hws & Hwn & Hwsp & Hcl
                  & Hll & Hlv & Hli & Hcm & Hph).
  unfold finish, bind, gets. rewrite He1. unfold modify.
  destruct (w q1) as [|b] eqn:Ew; [simpl in Hw; contradiction|].
  destruct (w q2) as [t|] eqn:Ew2; [|simpl in Hw; tauto].
  simpl in Hw. destruct Hw as (Hb & Hrel & Htxt).
  destruct (@Flush_reliable b (conj Hb Hrel)) as ([Hb' Hr'] & Hs & Hbuf & Ht).
  destruct (bufio.Flush b) as [b' e']. simpl in *. subst e'.
  unfold sink_of. simpl. repeat split; auto.
  exists (bufio.wr b'). repeat split; auto.
  rewrite Ht. exact Htxt.
Qed.

(** ** The sticky error of the buffered writer *)

Lemma first_error_snoc ans (ds : list string) : forall h d,
  first_error ans h ds = None ->
  first_error ans h (ds ++ [d]) = flush_error (ans (h ++ ds)%list d) d.
Proof.
  induction ds as [|x ds IH]; intros h d H; simpl in *.
  - rewrite app_nil_r. destruct (flush_error (ans h d) d); reflexivity.
  - destruct (flush_error (ans h x) x); [discriminate|].
    rewrite IH by assumption. rewrite <- app_assoc. reflexivity.
Qed.

Lemma Flush_err (b : bufio.Writer) :
  snd (bufio.Flush b) = bufio.berr (fst (bufio.Flush b)).
Proof.
  unfold bufio.Flush. destruct (bufio.berr b) eqn:E; simpl; [auto|].
  destruct (len (bufio.buf b) =? 0); simpl; [auto|].
  destruct (answer _ _ _) as [k [e|]]; simpl; auto.
  destruct (Z.of_nat k <? _); auto.
Qed.

Lemma Flush_failed (b : bufio.Writer) e :
  bufio.berr b = Some e -> bufio.Flush b = (b, Some e).
Proof. unfold bufio.Flush. intros ->. reflexivity. Qed.

Lemma sticky_Flush sink0 (b : bufio.Writer) :
  sticky sink0 b -> sticky sink0 (fst (bufio.Flush b)).
Proof.
  intros (Ha & ds & Hc & He & Hl). unfold bufio.Flush.
  destruct (bufio.berr b) eqn:E; simpl.
  { split; [assumption|]. exists ds. rewrite E. auto. }
  destruct (len (bufio.buf b) =? 0); simpl.
  { split; [assumption|]. exists ds. rewrite E. auto. }
  assert (Hfe : first_error (answer sink0) (calls sink0) (ds ++ [bufio.buf b])
                = flush_error (answer (bufio.wr b) (calls (bufio.wr b)) (bufio.buf b))
                              (bufio.buf b)).
  { rewrite first_error_snoc by congruence. rewrite Ha, Hc. reflexivity. }
  unfold flush_error in Hfe.
  destruct (answer (bufio.wr b) (calls (bufio.wr b)) (bufio.buf b)) as [k [e|]];
    simpl in *.
  - split; [assumption|]. exists (ds ++ [bufio.buf b])%list.
    rewrite Hc, app_assoc, removelast_last; repeat split; auto; try congruence.
  - destruct (Z.of_nat k <? len (bufio.buf b)); simpl;
      (split; [assumption|]); exists (ds ++ [bufio.buf b])%list;
      rewrite Hc, app_assoc, removelast_last; repeat split; auto; try congruence.
Qed.

Lemma sticky_buf sink0 (b : bufio.Writer) t :
  sticky sink0 b -> sticky sink0 (bufio.mkW t (bufio.berr b) (bufio.wr b)).
Proof. intros H. exact H. Qed.

Lemma sticky_WriteByte sink0 x (b : bufio.Writer) :
  sticky sink0 b -> sticky sink0 (fst (bufio.WriteByte x b)).
Proof.
  intros H. unfold bufio.WriteByte.
  destruct (bufio.berr b) eqn:E; simpl; [assumption|].
  destruct (bufio.Available b <=? 0).
  - pose proof (sticky_Flush H) as HF.
    destruct (bufio.Flush b) as [b' [e|]]; simpl in *; auto.
  - rewrite <- E. apply sticky_buf, H.
Qed.

Lemma sticky_WriteString_loop sink0 (k : nat) : forall s (b : bufio.Writer),
  sticky sink0 b -> sticky sink0 (snd (bufio.WriteString_loop k s b)).
Proof.
  induction k as [|k IH]; intros s b H; simpl; [assumption|].
  destruct (bufio.berr b) eqn:E; [assumption|].
  destruct (bufio.Available b <? len s); [|assumption].
  apply IH, sticky_Flush. rewrite <- E. apply sticky_buf, H.
Qed.

Lemma sticky_WriteString sink0 s (b : bufio.Writer) :
  sticky sink0 b -> sticky sink0 (fst (bufio.WriteString s b)).
Proof.
  intros H. unfold bufio.WriteString.
  pose proof (sticky_WriteString_loop (S (String.length s)) s H) as HL.
  destruct (bufio.WriteString_loop _ s b) as [s' b']. simpl in *.
  destruct (bufio.berr b') eqn:E; simpl; [assumption|].
  rewrite <- E. apply sticky_buf, HL.
Qed.

Lemma Rw_sticky_byte sink0 x w1 w2 : Rw_sticky sink0 w1 w2 ->
  Rw_sticky sink0 (fst (WriteByte x w1)) (fst (WriteByte x w2)) /\
  any_err (snd (WriteByte x w1)) (snd (WriteByte x w2)).
Proof.
  destruct w1 as [|b]; simpl; [tauto|]. intros H.
  pose proof (sticky_WriteByte x H).
  destruct (bufio.WriteByte x b). simpl in *. split; [assumption|exact I].
Qed.

Lemma Rw_sticky_str sink0 s w1 w2 : Rw_sticky sink0 w1 w2 ->
  Rw_sticky sink0 (fst (WriteString s w1)) (fst (WriteString s w2)) /\
  any_err (snd (WriteString s w1)) (snd (WriteString s w2)).
Proof.
  destruct w1 as [|b]; simpl; [tauto|]. intros H.
  pose proof (sticky_WriteString s H).
  destruct (bufio.WriteString s b). simpl in *. split; [assumption|exact I].
Qed.

Lemma any_byte x (w1 w2 : bufWriter) : any_writer w1 w2 ->
  any_writer (fst (WriteByte x w1)) (fst (WriteByte x w2)) /\
  any_err (snd (WriteByte x w1)) (snd (WriteByte x w2)).
Proof. intros _. split; exact I. Qed.

Lemma any_str s (w1 w2 : bufWriter) : any_writer w1 w2 ->
  any_writer (fst (WriteString s w1)) (fst (WriteString s w2)) /\
  any_err (snd (WriteString s w1)) (snd (WriteString s w2)).
Proof. intros _. split; exact I. Qed.

(** *** The error the printer remembers after a newline *)

Lemma bind_inv {A B} (m : M A) (k : A -> M B) p b p' :
  bind m k p = Ok b p' -> exists a q, m p = Ok a q /\ k a q = Ok b p'.
Proof.
  unfold bind. destruct (m p) as [a q| |]; try discriminate. eauto.
Qed.

Lemma WriteByte_err x (wr : bufWriter) :
  snd (WriteByte x wr) = writer_err (fst (WriteByte x wr)).
Proof.
  destruct wr as [t|b]; simpl; [reflexivity|].
  unfold bufio.WriteByte. destruct (bufio.berr b) eqn:E; simpl; [auto|].
  destruct (bufio.Available b <=? 0); simpl; [|auto].
  pose proof (Flush_err b) as HF.
  destruct (bufio.Flush b) as [b' [e|]]; simpl in *; auto.
Qed.

Lemma byte_synced x p p' : byte x p = Ok tt p' -> err_synced p'.
Proof.
  unfold byte, modify. intros H. injection H as <-.
  pose proof (WriteByte_err x (w p)) as HW. unfold err_synced.
  destruct (WriteByte x (w p)). simpl in *. assumption.
Qed.

Lemma modify_inv g p (u : unit) p' : modify g p = Ok u p' -> p' = g p.
Proof. unfold modify. intros H. inversion H. reflexivity. Qed.

Lemma gets_inv {A} (g : printer -> A) p a p' :
  gets g p = Ok a p' -> a = g p /\ p' = p.
Proof. unfold gets. intros H. inversion H. auto. Qed.

Lemma newline_synced (self : rec) p p' :
  newline self p = Ok tt p' -> err_synced p'.
Proof.
  unfold newline. intros H.
  apply bind_inv in H as (? & q1 & _ & H).
  apply bind_inv in H as ([] & q2 & Hb & H). apply byte_synced in Hb.
  apply bind_inv in H as ([] & q3 & Hm & H). apply modify_inv in Hm. subst q3.
  apply bind_inv in H as (hd & q4 & Hg & H).
  apply gets_inv in Hg as [-> ->].
  apply bind_inv in H as ([] & q5 & Hf & H). apply modify_inv in H. subst p'.
  assert (Hq : err_synced (set_wantSpace false q2)) by exact Hb.
  clear Hb. revert Hf Hq. generalize (set_wantSpace false q2) at 2 3.
  generalize (pendingHdocs (set_wantSpace false q2)).
  intros l. revert q5. induction l as [|r l IH]; intros q5 q Hf Hq; simpl in Hf.
  - injection Hf as <-. exact Hq.
  - apply bind_inv in Hf as ([] & q' & Hbody & Hf).
    apply (IH _ q' Hf). clear IH Hf.
    apply bind_inv in Hbody as (? & ? & _ & H).
    apply bind_inv in H as (? & ? & _ & H).
    apply bind_inv in H as (? & ? & _ & H).
    apply bind_inv in H as ([] & q6 & Hb & H). apply byte_synced in Hb.
    apply bind_inv in H as ([] & q7 & Hm & H). apply modify_inv in Hm.
    apply modify_inv in H. subst. exact Hb.
Qed.

Lemma traversal_synced n fl p p' :
  traversal n fl p = Ok tt p' -> err_synced p'.
Proof.
  unfold traversal. intros H.
  apply bind_inv in H as (? & ? & _ & H).
  apply bind_inv in H as (? & ? & _ & H).
  apply bind_inv in H as (? & ? & _ & H).
  eapply newline_synced, H.
Qed.

Lemma finish_any q1 q2 :
  Rp any_writer any_err q1 q2 ->
  same_outcome (finish q1) (finish q2).
Proof.
  intros H. unfold finish, bind, gets, modify, same_outcome.
  destruct (err q1), (err q2); simpl;
    destruct (w q1) as [|b1], (w q2) as [|b2]; simpl;
    try destruct (bufio.Flush b1); try destruct (bufio.Flush b2);
    unfold Rp in *; simpl; tauto.
Qed.

Lemma Fprint_same_outcome n cfg sink1 sink2 fl :
  same_outcome (Fprint n cfg sink1 fl) (Fprint n cfg sink2 fl).
Proof.
  rewrite !Fprint_unfold.
  set (p1 := new_printer (BufioWriter (bufio.Reset sink1)) fl cfg).
  set (p2 := new_printer (BufioWriter (bufio.Reset sink2)) fl cfg).
  assert (H0 : Rp any_writer any_err p1 p2).
  { unfold Rp, p1, p2, any_writer, any_err. simpl. tauto. }
  pose proof (@param_traversal any_writer any_err (@any_byte) (@any_str)
                n fl p1 p2 H0) as HT.
  unfold bind at 1 2.
  destruct (traversal n fl p1) as [a1 q1| |],
           (traversal n fl p2) as [a2 q2| |]; simpl in HT;
    try contradiction; try discriminate; try exact I.
  apply finish_any, HT.
Qed.

Lemma Fprint_render_outcome n cfg sink fl :
  same_outcome (Fprint n cfg sink fl) (render n cfg fl).
Proof.
  rewrite Fprint_unfold. unfold render.
  set (p1 := new_printer (BufioWriter (bufio.Reset sink)) fl cfg).
  set (p2 := new_printer (BytesBuffer "") fl cfg).
  assert (H0 : Rp any_writer any_err p1 p2).
  { unfold Rp, p1, p2, any_writer, any_err. simpl. tauto. }
  pose proof (@param_traversal any_writer any_err (@any_byte) (@any_str)
                n fl p1 p2 H0) as HT.
  unfold bind at 1.
  destruct (traversal n fl p1) as [a1 q1| |],
           (traversal n fl p2) as [a2 q2| |]; simpl in HT;
    try contradiction; try discriminate; try exact I.
  destruct HT as [_ HR].
  unfold finish, bind, gets, modify, same_outcome.
  destruct (err q1); simpl; destruct (w q1) as [|b1]; simpl;
    try destruct (bufio.Flush b1); unfold Rp in *; simpl; tauto.
Qed.

Lemma Fprint_sticky n cfg sink fl e p :
  Fprint n cfg sink fl = Ok e p ->
  exists s' ds,
    sink_of p = Some s' /\ answer s' = answer sink /\
    calls s' = (calls sink ++ ds)%list /\
    e = first_error (answer sink) (calls sink) ds /\
    first_error (answer sink) (calls sink) (removelast ds) = None.
Proof.
  rewrite Fprint_unfold.
  set (p1 := new_printer (BufioWriter (bufio.Reset sink)) fl cfg).
  assert (H0 : Rp (Rw_sticky sink) any_err p1 p1).
  { unfold Rp, p1, any_err, Rw_sticky, sticky. simpl.
    repeat split; auto. exists []. rewrite app_nil_r. auto. }
  pose proof (@param_traversal (Rw_sticky sink) any_err
                (@Rw_sticky_byte sink) (@Rw_sticky_str sink)
                n fl p1 p1 H0) as HT.
  intros H. apply bind_inv in H as ([] & q & Ht & H).
  rewrite Ht in HT. simpl in HT. destruct HT as [_ (Hw & _)].
  apply traversal_synced in Ht. unfold err_synced in Ht.
  unfold Rw_sticky in Hw. destruct (w q) as [|b] eqn:Ew; [contradiction|].
  simpl in Ht. unfold finish, bind, gets, modify in H. rewrite Ht in H.
  destruct (bufio.berr b) as [e0|] eqn:Eb.
  - simpl in H. injection H as <- <-. unfold sink_of. rewrite Ew.
    destruct Hw as (Ha & ds & Hc & He & Hl).
    exists (bufio.wr b), ds. rewrite Ht. repeat split; auto. congruence.
  - rewrite Ew in H. pose proof (Flush_err b) as HF.
    pose proof (sticky_Flush Hw) as HS.
    destruct (bufio.Flush b) as [b' e']. simpl in *.
    injection H as <- <-. unfold sink_of. simpl.
    destruct HS as (Ha & ds & Hc & He & Hl).
    exists (bufio.wr b'), ds. repeat split; auto. congruence.
Qed.

(** C2: the error [Fprint] returns is the error of the first write the sink
    failed, and the sink was sent no write after that one; whether the
    traversal returns, and every field it leaves besides the writer and the
    error, is the same for any two sinks, failing or not. *)
Theorem Fprint_first_error (n : nat) (cfg : PrintConfig) (sink : io_Writer)
        (fl : File) :
  match Fprint n cfg sink fl with
  | Ok e p =>
      exists s' ds,
        sink_of p = Some s' /\ answer s' = answer sink /\
        calls s' = (calls sink ++ ds)%list /\
        e = first_error (answer sink) (calls sink) ds /\
        first_error (answer sink) (calls sink) (removelast ds) = None
  | _ => True
  end /\
  (forall sink2,
      same_outcome (Fprint n cfg sink fl) (Fprint n cfg sink2 fl)) /\
  same_outcome (Fprint n cfg sink fl) (render n cfg fl).
Proof.
  split; [|split].
  - destruct (Fprint n cfg sink fl) as [e p| |] eqn:E; auto.
    apply Fprint_sticky in E. exact E.
  - intros sink2. apply Fprint_same_outcome.
  - apply Fprint_render_outcome.
Qed.

(** ** Words printed unquoted *)

Lemma same_layout_refl p : same_layout p p.
Proof. unfold same_layout. tauto. Qed.

Lemma same_layout_trans p q r :
  same_layout p q -> same_layout q r -> same_layout p r.
Proof. unfold same_layout. intuition congruence. Qed.

Lemma str_plain s p t :
  w p = BytesBuffer t ->
  exists p', str s p = Ok tt p' /\ w p' = BytesBuffer (t ++ s) /\
             same_layout p p'.
Proof.
  intros H. rewrite (str_buffer s H). eexists. split; [reflexivity|].
  split; [reflexivity|]. unfold same_layout. simpl. tauto.
Qed.

Lemma byte_plain x p t :
  w p = BytesBuffer t ->
  exists p', byte x p = Ok tt p' /\ w p' = BytesBuffer (t ++ String x "") /\
             same_layout p p'.
Proof.
  intros H. rewrite (byte_buffer x H). eexists. split; [reflexivity|].
  split; [reflexivity|]. unfold same_layout. simpl. tauto.
Qed.

Arguments str_plain s {p t} _.
Arguments byte_plain x {p t} _.

(** A literal part, printed through [wordPart]. *)
Lemma wordPart_lit (self : rec) e x p t :
  w p = BytesBuffer t ->
  exists p', wordPart self (LitPart e x) p = Ok tt p' /\
             w p' = BytesBuffer (t ++ Value x) /\ same_layout p p'.
Proof.
  intros H. unfold wordPart.
  destruct (str_plain (Value x) H) as (p1 & E & Hw & Hl).
  rewrite (bind_Ok _ E). unfold modify. eexists. split; [reflexivity|].
  split; [exact Hw|]. unfold same_layout in *. simpl. tauto.
Qed.

Arguments wordPart_lit self e x {p t} _.

Lemma forM_lits (n : nat) (parts : list WordPart) : forall p t,
  forallb isLit parts = true ->
  w p = BytesBuffer t ->
  exists p', forM (wordPart_r (run (S n))) parts p = Ok tt p' /\
             w p' = BytesBuffer (t ++ fold_right append "" (map litValue parts)) /\
             same_layout p p'.
Proof.
  induction parts as [|wp parts IH]; intros p t Hall Hw; simpl.
  - exists p. rewrite append_nil_r. auto using same_layout_refl.
  - simpl in Hall. apply andb_true_iff in Hall as [Hl Hall].
    destruct wp; try discriminate.
    destruct (wordPart_lit (run n) End l Hw) as (p1 & E & Hw1 & Hl1).
    rewrite (bind_Ok _ E).
    destruct (IH p1 _ Hall Hw1) as (p2 & E2 & Hw2 & Hl2).
    exists p2. split; [exact E2|]. split.
    + rewrite Hw2. simpl. rewrite append_assoc. reflexivity.
    + eapply same_layout_trans; eauto.
Qed.

Lemma unquotedWord_parts (n : nat) (parts : list WordPart) : forall p t,
  forallb plainPart parts = true ->
  w p = BytesBuffer t ->
  exists p',
    unquotedWord (run (S n)) (mkWord 0 parts) p = Ok tt p' /\
    w p' = BytesBuffer (t ++ fold_right append "" (map unquotedPartText parts)) /\
    same_layout p p'.
Proof.
  unfold unquotedWord. simpl.
  induction parts as [|wp parts IH]; intros p t Hall Hw; simpl.
  - exists p. rewrite append_nil_r. auto using same_layout_refl.
  - simpl in Hall. apply andb_true_iff in Hall as [Hp Hall].
    assert (Hstep : exists p1,
      match wp with
      | SglQuoted _ v => str v
      | Quoted _ _ ps => forM (wordPart_r (run (S n))) ps
      | LitPart _ x =>
          match Value x with
          | EmptyString => panic
          | String c0 rest =>
              if Ascii.eqb c0 bslash_byte then str rest else str (Value x)
          end
      | _ => wordPart_r (run (S n)) wp
      end p = Ok tt p1 /\
      w p1 = BytesBuffer (t ++ unquotedPartText wp) /\ same_layout p p1).
    { destruct wp; simpl in Hp; try discriminate.
      - destruct l as [v]. simpl in *. destruct v as [|c0 rest];
          [discriminate|].
        unfold stripBackslash. destruct (Ascii.eqb c0 bslash_byte);
          apply str_plain, Hw.
      - apply str_plain, Hw.
      - apply forM_lits; assumption. }
    destruct Hstep as (p1 & E & Hw1 & Hl1).
    rewrite (bind_Ok _ E).
    destruct (IH p1 _ Hall Hw1) as (p2 & E2 & Hw2 & Hl2).
    exists p2. split; [exact E2|]. split.
    + rewrite Hw2. rewrite append_assoc. reflexivity.
    + eapply same_layout_trans; eauto.
Qed.

Lemma unquotedWord_plain (n : nat) (wd : Word) p t :
  plainWord wd = true ->
  w p = BytesBuffer t ->
  exists p',
    unquotedWord (run (S n)) wd p = Ok tt p' /\
    w p' = BytesBuffer (t ++ unquotedText wd) /\ same_layout p p'.
Proof.
  destruct wd as [pos parts]. unfold plainWord, unquotedText. simpl.
  intros Hall Hw.
  destruct (unquotedWord_parts n parts p Hall Hw) as (p' & E & H).
  exists p'. split; [exact E|exact H].
Qed.

Lemma forM_not_ok {A} (body : A -> M unit) (l : list A) (x : A) :
  In x l -> (forall p, body x p = Panic) ->
  forall p u p', forM body l p <> Ok u p'.
Proof.
  intros Hin Hx. induction l as [|y l IH]; [contradiction|].
  intros p u p' H. simpl in H.
  apply bind_inv in H as ([] & q & Hy & H).
  destruct Hin as [->|Hin].
  - rewrite Hx in Hy. discriminate.
  - eapply IH; eauto.
Qed.

Lemma unquotedWord_empty_lit (self : rec) (wd : Word) p u p' :
  hasEmptyLit wd -> unquotedWord self wd p <> Ok u p'.
Proof.
  intros [e Hin]. unfold unquotedWord.
  eapply forM_not_ok; [exact Hin|]. intros q. reflexivity.
Qed.

Lemma unquotedWord_panics (self : rec) (pos e : Pos) p :
  unquotedWord self (mkWord pos [LitPart e (mkLit "")]) p = Panic.
Proof. reflexivity. Qed.

(** C10: printed unquoted, a word of literal, single-quoted and quoted
    literal parts comes out as the text of its parts, the quoted ones
    without their delimiters and the literal ones without one leading
    backslash, provided no literal part is empty; a word with an empty
    literal part makes the call panic instead of returning. *)
Theorem unquotedWord_spec (n : nat) (fl : File) (wd : Word) :
  plainWord wd = true ->
  (exists q, unquotedWordStr (run (S n)) fl wd = Ok (unquotedText wd) q) /\
  (forall self wd' p, hasEmptyLit wd' ->
      forall u p', unquotedWord self wd' p <> Ok u p') /\
  (forall self pos e p,
      unquotedWord self (mkWord pos [LitPart e (mkLit "")]) p = Panic).
Proof.
  intros Hp. split; [|split].
  - unfold unquotedWordStr.
    destruct (@unquotedWord_plain n wd
                (new_printer (BytesBuffer "") fl (mkPrintConfig 0)) ""
                Hp eq_refl) as (p' & E & Hw & _).
    rewrite E. exists p'. unfold Buffer_String. rewrite Hw. reflexivity.
  - intros. apply unquotedWord_empty_lit. assumption.
  - intros. apply unquotedWord_panics.
Qed.

Lemma unquotedWord_spec_witness :
  exists q,
    unquotedWordStr (run 1) (mkFile [] [] (fun _ => mkPosition 1 1))
      (mkWord 1 [LitPart 2 (mkLit "\EO"); SglQuoted 4 "F"]) = Ok "EOF" q.
Proof.
  exact (proj1 (@unquotedWord_spec 0 (mkFile [] [] (fun _ => mkPosition 1 1))
            (mkWord 1 [LitPart 2 (mkLit "\EO"); SglQuoted 4 "F"]) eq_refl)).
Defined.

(** ** Draining the heredoc queue *)

Lemma same_levels_refl p : same_levels p p.
Proof. unfold same_levels. tauto. Qed.

Lemma same_levels_trans p q r :
  same_levels p q -> same_levels q r -> same_levels p r.
Proof. unfold same_levels. intuition congruence. Qed.

Lemma same_layout_levels p q : same_layout p q -> same_levels p q.
Proof. unfold same_layout, same_levels. tauto. Qed.

Lemma drain_loop (n : nat) (hs : list Redirect) : forall p t,
  plainHdocs hs = true ->
  w p = BytesBuffer t ->
  exists p',
    forM (fun r =>
            str (Value (Redirect_Hdoc r)) ;;
            modify (fun p => set_curLine
              (add (curLine p) (strings_Count_nl (Value (Redirect_Hdoc r)))) p) ;;
            unquotedWord (run (S n)) (Redirect_Word r) ;;
            byte newline_byte ;;
            modify (fun p => set_curLine (add (curLine p) 1) p) ;;
            modify (set_wantSpace false)) hs p = Ok tt p' /\
    w p' = BytesBuffer (t ++ drainText hs) /\
    curLine p' = drainLine (curLine p) hs /\
    pendingHdocs p' = pendingHdocs p /\
    wantNewline p' = wantNewline p /\
    (hs <> [] -> wantSpace p' = false) /\
    same_levels p p'.
Proof.
  induction hs as [|r hs IH]; intros p t Hall Hw.
  - exists p. simpl. rewrite append_nil_r.
    repeat split; auto using same_levels_refl. congruence.
  - simpl in Hall. apply andb_true_iff in Hall as [Hr Hall].
    cbn [forM].
    destruct (str_plain (Value (Redirect_Hdoc r)) Hw) as (p1 & E1 & Hw1 & Hl1).
    set (p2 := set_curLine
                 (add (curLine p1) (strings_Count_nl (Value (Redirect_Hdoc r)))) p1).
    assert (Hw2 : w p2 = BytesBuffer (t ++ Value (Redirect_Hdoc r))) by exact Hw1.
    destruct (@unquotedWord_plain n (Redirect_Word r) p2 _ Hr Hw2)
      as (p3 & E3 & Hw3 & Hl3).
    destruct (byte_plain newline_byte Hw3) as (p4 & E4 & Hw4 & Hl4).
    set (p5 := set_wantSpace false (set_curLine (add (curLine p4) 1) p4)).
    assert (Hw5 : w p5 = BytesBuffer (t ++ hdocText r)).
    { unfold p5. simpl. rewrite Hw4. unfold hdocText, nl.
      rewrite !append_assoc. reflexivity. }
    destruct (IH p5 _ Hall Hw5) as (p' & E & Hw' & Hc' & Hp' & Hn' & Hs' & Hl').
    exists p'. split.
    { rewrite (bind_Ok _ (a:=tt) (p':=p5)); [exact E|].
      rewrite (bind_Ok _ E1), bind_modify. fold p2.
      rewrite (bind_Ok _ E3), (bind_Ok _ E4), bind_modify. reflexivity. }
    unfold same_layout in Hl1, Hl3, Hl4.
    split. { rewrite Hw'. simpl. rewrite append_assoc. reflexivity. }
    split. { rewrite Hc'. simpl. f_equal. unfold hdocLine, p5, p2. simpl.
             assert (curLine p4 = curLine p3) as -> by tauto.
             assert (curLine p3 = curLine p2) as -> by tauto.
             unfold p2. simpl.
             assert (curLine p1 = curLine p) as -> by tauto. reflexivity. }
    split. { rewrite Hp'. unfold p5. simpl.
             assert (pendingHdocs p4 = pendingHdocs p3) as -> by tauto.
             assert (pendingHdocs p3 = pendingHdocs p2) as -> by tauto.
             unfold p2. simpl. tauto. }
    split. { rewrite Hn'. unfold p5. simpl.
             assert (wantNewline p4 = wantNewline p3) as -> by tauto.
             assert (wantNewline p3 = wantNewline p2) as -> by tauto.
             unfold p2. simpl. tauto. }
    split. { intros _. destruct hs as [|r' hs'].
             - simpl in E. injection E as <-. reflexivity.
             - apply Hs'. discriminate. }
    eapply same_levels_trans; [|exact Hl'].
    unfold same_levels, p5. simpl.
    unfold same_levels, p2 in *. simpl in *. intuition congruence.
Qed.

Lemma newline_drain (n : nat) p t :
  plainHdocs (pendingHdocs p) = true ->
  w p = BytesBuffer t ->
  exists p',
    newline (run (S n)) p = Ok tt p' /\
    w p' = BytesBuffer (t ++ nl ++ drainText (pendingHdocs p)) /\
    curLine p' = drainLine (curLine p) (pendingHdocs p) /\
    pendingHdocs p' = [] /\
    wantNewline p' = false /\ wantSpace p' = false /\
    same_levels p p'.
Proof.
  intros Hall Hw. unfold newline. rewrite bind_modify.
  set (p1 := set_wantNewline false p).
  assert (Hw1 : w p1 = BytesBuffer t) by exact Hw.
  destruct (byte_plain newline_byte Hw1) as (p2 & E2 & Hw2 & Hl2).
  rewrite (bind_Ok _ E2), bind_modify, bind_gets.
  set (p3 := set_wantSpace false p2).
  assert (Hq : pendingHdocs p3 = pendingHdocs p).
  { unfold p3, same_layout in *. simpl. unfold p1 in Hl2. simpl in Hl2. tauto. }
  rewrite Hq.
  assert (Hw3 : w p3 = BytesBuffer (t ++ nl)) by exact Hw2.
  destruct (drain_loop n (pendingHdocs p) p3 Hall Hw3)
    as (p' & E & Hw' & Hc' & Hp' & Hn' & Hs' & Hl').
  rewrite (bind_Ok _ E). unfold modify.
  eexists. split; [reflexivity|]. simpl.
  unfold same_layout, p1 in Hl2. simpl in Hl2.
  split. { rewrite Hw', append_assoc. reflexivity. }
  split. { rewrite Hc'. unfold p3. simpl. f_equal. tauto. }
  split; [reflexivity|].
  split. { rewrite Hn'. unfold p3. simpl. tauto. }
  split. { destruct (pendingHdocs p) as [|r hs] eqn:Eh.
           - simpl in E. injection E as <-. reflexivity.
           - apply Hs'. discriminate. }
  unfold same_levels in *. unfold p3 in Hl'. simpl in *. intuition congruence.
Qed.

(** After [newline] the queue is empty, whatever was in it. *)
Lemma newline_clears (self : rec) p u p' :
  newline self p = Ok u p' -> pendingHdocs p' = [].
Proof.
  unfold newline. intros H.
  apply bind_inv in H as (? & ? & _ & H).
  apply bind_inv in H as (? & ? & _ & H).
  apply bind_inv in H as (? & ? & _ & H).
  apply bind_inv in H as (? & ? & _ & H).
  apply bind_inv in H as (? & ? & _ & H).
  apply modify_inv in H. subst. reflexivity.
Qed.

Lemma finish_keeps p e p' :
  finish p = Ok e p' -> pendingHdocs p' = pendingHdocs p.
Proof.
  unfold finish, bind, gets, modify. destruct (err p); simpl.
  - intros H. inversion H. reflexivity.
  - destruct (w p) as [|b]; [intros H; inversion H; reflexivity|].
    destruct (bufio.Flush b). intros H. inversion H. reflexivity.
Qed.

Lemma Fprint_queue_empty n cfg sink fl e p :
  Fprint n cfg sink fl = Ok e p -> pendingHdocs p = [].
Proof.
  rewrite Fprint_unfold. intros H.
  apply bind_inv in H as ([] & q & Ht & H).
  apply finish_keeps in H. rewrite H. clear H.
  unfold traversal in Ht.
  apply bind_inv in Ht as (? & ? & _ & H).
  apply bind_inv in H as (? & ? & _ & H).
  apply bind_inv in H as (? & ? & _ & H).
  eapply newline_clears, H.
Qed.

(** A heredoc redirection joins the queue at its tail when it is printed;
    any other leaves the queue as its word left it. *)
Lemma stmt_redir_enqueues (self : rec) any r p any' p' :
  stmt_redir self any r p = Ok any' p' ->
  isHeredoc (Redirect_Op r) = true ->
  exists hs, pendingHdocs p' = (hs ++ [r])%list.
Proof.
  unfold stmt_redir. intros H Hh. rewrite Hh in H.
  do 10 (apply bind_inv in H as (? & ? & _ & H)).
  unfold when in H.
  apply bind_inv in H as ([] & q & Hm & H).
  apply modify_inv in Hm. inversion H. subst.
  eexists. reflexivity.
Qed.

(** ** The heredoc queue *)

Lemma heredoc_file_output :
  exists p,
    Fprint 2 config0 reliable_sink heredoc_file = Ok None p /\
    sink_of p = Some (mkWriter
      ["cmd <<EOF" ++ nl ++ "body" ++ nl ++ "EOF" ++ nl ++ "cmd2" ++ nl]
      (answer reliable_sink)).
Proof. eexists. split; vm_compute; reflexivity. Qed.


(** ** The last newline *)

Lemma Rw_pre_byte x0 x w1 w2 : Rw_pre x0 w1 w2 ->
  Rw_pre x0 (fst (WriteByte x w1)) (fst (WriteByte x w2)) /\
  any_err (snd (WriteByte x w1)) (snd (WriteByte x w2)).
Proof.
  intros [y ->]. split; [|exact I]. simpl.
  exists (y ++ String x ""). rewrite append_assoc. reflexivity.
Qed.

Lemma Rw_pre_str x0 s w1 w2 : Rw_pre x0 w1 w2 ->
  Rw_pre x0 (fst (WriteString s w1)) (fst (WriteString s w2)) /\
  any_err (snd (WriteString s w1)) (snd (WriteString s w2)).
Proof.
  intros [y ->]. split; [|exact I]. simpl.
  exists (y ++ s). rewrite append_assoc. reflexivity.
Qed.

(** A function that relates to itself only appends to a buffer. *)
Lemma appends_only {A} (m : M A) x p a p' :
  rel (Rw_pre x) any_err false m m ->
  w p = BytesBuffer x -> m p = Ok a p' ->
  exists y, w p' = BytesBuffer (x ++ y).
Proof.
  intros Hm Hw E.
  assert (H0 : Rp (Rw_pre x) any_err p p).
  { unfold Rp, any_err, Rw_pre. repeat split; auto.
    exists "". rewrite append_nil_r. exact Hw. }
  specialize (Hm p p H0). rewrite E in Hm. simpl in Hm.
  destruct Hm as [_ (Hx & _)]. exact Hx.
Qed.

Lemma before_newline_appends n fl p a p' x :
  w p = BytesBuffer x -> before_newline n fl p = Ok a p' ->
  exists y, w p' = BytesBuffer (x ++ y).
Proof.
  apply appends_only. unfold before_newline.
  apply rel_bind.
  { apply rel_modify. intros p1 p2 H. unfold Rp in *. simpl. tauto. }
  intros _. apply rel_bind.
  { apply param_stmts; auto using Rw_pre_byte, Rw_pre_str. }
  intros _. apply param_commentsUpTo; auto using Rw_pre_byte, Rw_pre_str.
Qed.

Lemma drain_ends_nl (n : nat) (hs : list Redirect) : forall p x p',
  w p = BytesBuffer x ->
  forM (fun r =>
          str (Value (Redirect_Hdoc r)) ;;
          modify (fun p => set_curLine
            (add (curLine p) (strings_Count_nl (Value (Redirect_Hdoc r)))) p) ;;
          unquotedWord (run n) (Redirect_Word r) ;;
          byte newline_byte ;;
          modify (fun p => set_curLine (add (curLine p) 1) p) ;;
          modify (set_wantSpace false)) hs p = Ok tt p' ->
  exists d, w p' = BytesBuffer (x ++ d) /\
            (hs = [] -> d = "") /\
            (hs <> [] -> exists d', d = d' ++ nl).
Proof.
  induction hs as [|r hs IH]; intros p x p' Hw H; simpl in H.
  - inversion H; subst. exists "". rewrite append_nil_r.
    split; [assumption|]. split; [reflexivity|]. congruence.
  - apply bind_inv in H as ([] & q & Hb & H).
    assert (Hq : exists y, w q = BytesBuffer (x ++ y ++ nl)).
    { destruct (str_plain (Value (Redirect_Hdoc r)) Hw) as (p1 & E1 & Hw1 & _).
      rewrite (bind_Ok _ E1), bind_modify in Hb.
      apply bind_inv in Hb as ([] & p3 & E3 & Hb).
      eapply appends_only in E3 as [y Hw3];
        [|apply param_unquotedWord; auto using Rw_pre_byte, Rw_pre_str
         |exact Hw1].
      destruct (byte_plain newline_byte Hw3) as (p4 & E4 & Hw4 & _).
      rewrite (bind_Ok _ E4), !bind_modify in Hb.
      inversion Hb; subst. simpl.
      exists (Value (Redirect_Hdoc r) ++ y). rewrite Hw4.
      unfold nl. rewrite !append_assoc. reflexivity. }
    destruct Hq as [y Hwq].
    destruct (IH q _ p' Hwq H) as (d & Hw' & Hnil & Hcons).
    exists ((y ++ nl) ++ d). split.
    { rewrite Hw', !append_assoc. reflexivity. }
    split; [discriminate|]. intros _.
    destruct hs as [|r' hs'].
    + rewrite Hnil by reflexivity. exists y. rewrite append_nil_r. reflexivity.
    + destruct Hcons as [d' ->]; [discriminate|].
      exists ((y ++ nl) ++ d'). rewrite !append_assoc. reflexivity.
Qed.

Lemma newline_ends_nl (n : nat) p x p' :
  w p = BytesBuffer x -> newline (run n) p = Ok tt p' ->
  exists d, w p' = BytesBuffer (x ++ nl ++ d) /\
            (pendingHdocs p = [] -> d = "") /\
            (exists d', nl ++ d = d' ++ nl).
Proof.
  intros Hw H. unfold newline in H. rewrite bind_modify in H.
  assert (Hw1 : w (set_wantNewline false p) = BytesBuffer x) by exact Hw.
  destruct (byte_plain newline_byte Hw1) as (p2 & E2 & Hw2 & Hl2).
  rewrite (bind_Ok _ E2), bind_modify, bind_gets in H.
  apply bind_inv in H as ([] & q & Hf & H). apply modify_inv in H. subst p'.
  assert (Hq : pendingHdocs (set_wantSpace false p2) = pendingHdocs p).
  { unfold same_layout in Hl2. simpl in *. tauto. }
  rewrite Hq in Hf.
  assert (Hw3 : w (set_wantSpace false p2) = BytesBuffer (x ++ nl)) by exact Hw2.
  destruct (drain_ends_nl n _ _ Hw3 Hf) as (d & Hw' & Hnil & Hcons).
  exists d. simpl. split; [rewrite Hw', append_assoc; reflexivity|].
  split; [assumption|].
  destruct (pendingHdocs p) as [|r hs].
  - rewrite Hnil by reflexivity. exists "". reflexivity.
  - destruct Hcons as [d' ->]; [discriminate|].
    exists (nl ++ d'). rewrite append_assoc. reflexivity.
Qed.

Lemma traversal_split n fl p u p' :
  traversal n fl p = Ok u p' ->
  exists q, before_newline n fl p = Ok tt q /\ newline (run n) q = Ok u p'.
Proof.
  unfold traversal, before_newline. intros H.
  apply bind_inv in H as ([] & q1 & E1 & H). rewrite (bind_Ok _ E1).
  apply bind_inv in H as (b & q2 & E2 & H). rewrite (bind_Ok _ E2).
  apply bind_inv in H as ([] & q3 & E3 & H). exists q3. auto.
Qed.

(** C5: over a sink that accepts its writes, the text [Fprint] sends is the
    text of the statements and comments, one newline, and the flush of the
    heredocs still pending, which is empty when none is and ends with a
    newline otherwise: the output ends with a newline, written once after
    the last statement and comment. *)
Theorem Fprint_trailing_newline (n : nat) (cfg : PrintConfig)
        (sink : io_Writer) (fl : File) :
  reliable sink ->
  match Fprint n cfg sink fl with
  | Ok e p =>
      exists s' q t d,
        sink_of p = Some s' /\
        before_newline n fl (new_printer (BytesBuffer "") fl cfg) = Ok tt q /\
        w q = BytesBuffer t /\
        sink_text s' = sink_text sink ++ t ++ nl ++ d /\
        (pendingHdocs q = [] -> d = "") /\
        (exists d', nl ++ d = d' ++ nl)
  | _ => True
  end.
Proof.
  intros Hr. pose proof (@Fprint_render n cfg sink fl Hr) as HR.
  destruct (Fprint n cfg sink fl) as [e p| |] eqn:HF; auto.
  unfold render in HR.
  destruct (traversal n fl _) as [[] q2| |] eqn:ET; try contradiction.
  destruct HR as (_ & (s' & Hs & _ & Ht) & _).
  apply traversal_split in ET as (q & Eb & En).
  pose proof Eb as Eb'.
  eapply before_newline_appends in Eb' as [t Hwq]; [|reflexivity].
  simpl in Hwq.
  destruct (newline_ends_nl n _ Hwq En) as (d & Hw2 & Hnil & Hend).
  exists s', q, t, d. rewrite Ht. unfold Buffer_String. rewrite Hw2.
  repeat split; auto.
Qed.

Lemma Fprint_trailing_newline_witness :
  match Fprint 2 config0 reliable_sink heredoc_file with
  | Ok e p =>
      exists s' q t d,
        sink_of p = Some s' /\
        before_newline 2 heredoc_file
          (new_printer (BytesBuffer "") heredoc_file config0) = Ok tt q /\
        w q = BytesBuffer t /\
        sink_text s' = sink_text reliable_sink ++ t ++ nl ++ d /\
        (pendingHdocs q = [] -> d = "") /\
        (exists d', nl ++ d = d' ++ nl)
  | _ => True
  end.
Proof.
  apply (@Fprint_trailing_newline 2 config0 reliable_sink heredoc_file).
  intros h d. reflexivity.
Defined.

(** ** Arithmetic expressions *)

Lemma space_plain p t :
  w p = BytesBuffer t ->
  exists p', space p = Ok tt p' /\ w p' = BytesBuffer (t ++ " ") /\
             same_layout p p'.
Proof.
  intros H. unfold space.
  destruct (byte_plain " " H) as (p1 & E & Hw & Hl).
  rewrite (bind_Ok _ E). unfold modify. eexists. split; [reflexivity|].
  split; [exact Hw|]. unfold same_layout in *. simpl. tauto.
Qed.

Arguments space_plain {p t} _.

Lemma set_wantSpace_layout b p : same_layout p (set_wantSpace b p).
Proof. unfold same_layout. simpl. tauto. Qed.

(** Chaining steps that append to the buffer. *)
Lemma plain_bind {A} (m : M unit) (k : unit -> M A) p t s1 s2 a' :
  (forall p t, w p = BytesBuffer t ->
     exists p', m p = Ok tt p' /\ w p' = BytesBuffer (t ++ s1) /\
                same_layout p p') ->
  (forall p t, w p = BytesBuffer t ->
     exists p', k tt p = Ok a' p' /\ w p' = BytesBuffer (t ++ s2) /\
                same_layout p p') ->
  w p = BytesBuffer t ->
  exists p', bind m k p = Ok a' p' /\ w p' = BytesBuffer (t ++ s1 ++ s2) /\
             same_layout p p'.
Proof.
  intros Hm Hk Hw. destruct (Hm p t Hw) as (p1 & E1 & Hw1 & Hl1).
  destruct (Hk p1 _ Hw1) as (p2 & E2 & Hw2 & Hl2).
  exists p2. rewrite (bind_Ok _ E1). split; [exact E2|].
  split; [rewrite Hw2, append_assoc; reflexivity|].
  eapply same_layout_trans; eauto.
Qed.

Lemma writes_bind {A} (m : M unit) (k : unit -> M A) s1 s2 a :
  writes m tt s1 -> writes (k tt) a s2 -> writes (bind m k) a (s1 ++ s2).
Proof. intros Hm Hk p t Hw. eapply plain_bind; eauto. Qed.

Lemma writes_str s : writes (str s) tt s.
Proof. intros p t Hw. apply str_plain, Hw. Qed.

Lemma writes_byte x : writes (byte x) tt (String x "").
Proof. intros p t Hw. apply byte_plain, Hw. Qed.

Lemma writes_space : writes space tt " ".
Proof. intros p t Hw. apply space_plain, Hw. Qed.

Lemma writes_modify_wantSpace b : writes (modify (set_wantSpace b)) tt "".
Proof.
  intros p t Hw. eexists. split; [reflexivity|]. simpl.
  rewrite append_nil_r. split; [exact Hw|apply set_wantSpace_layout].
Qed.

Lemma writes_ret {A} (a : A) : writes (ret a) a "".
Proof.
  intros p t Hw. exists p. rewrite append_nil_r.
  auto using same_layout_refl.
Qed.

Lemma writes_eq {A} (m : M A) a s s' : s = s' -> writes m a s -> writes m a s'.
Proof. intros ->. auto. Qed.

Lemma writes_lits n parts :
  forallb isLit parts = true ->
  writes (forM (wordPart_r (run (S n))) parts) tt
         (fold_right append "" (map litValue parts)).
Proof. intros H p t Hw. apply forM_lits; assumption. Qed.

Lemma writes_spacedWord_after n wd :
  forallb isLit (Word_Parts wd) = true ->
  writes (modify (set_wantSpace false) ;; spacedWord (run (S n)) wd) tt
         (wordText wd).
Proof.
  intros H p t Hw. rewrite bind_modify. unfold spacedWord.
  rewrite bind_gets. simpl. rewrite bind_ret.
  destruct (@writes_lits n _ H (set_wantSpace false p) t Hw)
    as (p' & E & Hw' & Hl').
  exists p'. split; [exact E|]. split; [exact Hw'|].
  eapply same_layout_trans; [apply set_wantSpace_layout|exact Hl'].
Qed.

Ltac writes_step IH :=
  cbv beta;
  first [ eapply writes_bind
        | apply writes_modify_wantSpace
        | apply writes_str
        | apply writes_byte
        | apply writes_space
        | apply writes_ret
        | (apply IH; assumption) ].

Ltac writes_go IH :=
  eapply writes_eq; [|repeat writes_step IH]; reflexivity.

Lemma arithm_plain (n : nat) : forall e compact,
  plainArithm e = true -> (arithmDepth e + 2 <= n)%nat ->
  writes (arithm_r (run n) e compact) tt (arithmText e compact).
Proof.
  induction n as [|n IH]; intros e compact Hp Hd; [lia|].
  cbn [run arithm_r]. unfold arithm.
  destruct e as [|wd|x op y|post op x|x]; simpl in Hp, Hd.
  - writes_go IH.
  - destruct n as [|n]; [lia|]. apply writes_spacedWord_after, Hp.
  - apply andb_true_iff in Hp as [Hx Hy].
    assert (Hdx : (arithmDepth x + 2 <= n)%nat) by lia.
    assert (Hdy : (arithmDepth y + 2 <= n)%nat) by lia.
    cbn [arithmText].
    destruct compact; [writes_go IH|].
    destruct (Token_eqb op COMMA); cbn [negb when]; writes_go IH.
  - assert (Hdx : (arithmDepth x + 2 <= n)%nat) by lia.
    cbn [arithmText]. destruct post; writes_go IH.
  - assert (Hdx : (arithmDepth x + 2 <= n)%nat) by lia.
    cbn [arithmText]. writes_go IH.
Qed.

(** C6, as amended: printed in the mode that is not compact, a binary
    expression has a space on each side of its operator, except that the
    comma has no space before it and one after it; printed compact, it has
    no space around its operator. *)
Theorem arithm_binary_spacing (n : nat) (x y : ArithmExpr) (op : Token) :
  plainArithm x = true -> plainArithm y = true ->
  (arithmDepth x + 2 <= n)%nat -> (arithmDepth y + 2 <= n)%nat ->
  writes (arithm (run n) (BinaryExpr x op y) false) tt
         (arithmText x false ++ (if Token_eqb op COMMA then "" else " ")
            ++ binaryExprOp op ++ " " ++ arithmText y false) /\
  writes (arithm (run n) (BinaryExpr x op y) true) tt
         (arithmText x true ++ binaryExprOp op ++ arithmText y true).
Proof.
  intros Hx Hy Hdx Hdy.
  assert (Hp : plainArithm (BinaryExpr x op y) = true).
  { simpl. rewrite Hx, Hy. reflexivity. }
  assert (Hd : (arithmDepth (BinaryExpr x op y) + 2 <= S n)%nat).
  { simpl. lia. }
  split.
  - exact (@arithm_plain (S n) (BinaryExpr x op y) false Hp Hd).
  - exact (@arithm_plain (S n) (BinaryExpr x op y) true Hp Hd).
Qed.

Lemma arithm_binary_spacing_witness :
  writes (arithm (run 2) comma_expr false) tt
         (arithmText (arithmWord "a") false
            ++ (if Token_eqb COMMA COMMA then "" else " ")
            ++ binaryExprOp COMMA ++ " " ++ arithmText (arithmWord "b") false) /\
  writes (arithm (run 2) comma_expr true) tt
         (arithmText (arithmWord "a") true ++ binaryExprOp COMMA
            ++ arithmText (arithmWord "b") true).
Proof.
  apply (@arithm_binary_spacing 2 (arithmWord "a") (arithmWord "b") COMMA);
    [reflexivity | reflexivity | simpl; lia | simpl; lia].
Defined.

(** C6 as stated fails: the comma is printed with a space after it, where
    the claim gives it a space on neither side. *)
Lemma comma_space_counterexample :
  exists p,
    arithm (run 2) comma_expr false fresh_buffer = Ok tt p /\
    Buffer_String (w p) = "a, b" /\
    arithmText_spec comma_expr false = "a,b" /\
    Buffer_String (w p) <> arithmText_spec comma_expr false.
Proof.
  eexists. split; [vm_compute; reflexivity|]. simpl.
  split; [reflexivity|]. split; [reflexivity|]. discriminate.
Qed.

(** C7, as amended: the header of a C-style loop is its three expressions
    between double parentheses, separated by a semicolon and a space, each
    printed in the mode that is not compact, so with spaces around its
    binary operators. *)
Theorem loop_cstyle_header (n : nat) (init cnd post : ArithmExpr) :
  plainArithm init = true -> plainArithm cnd = true ->
  plainArithm post = true ->
  (arithmDepth init + 2 <= n)%nat -> (arithmDepth cnd + 2 <= n)%nat ->
  (arithmDepth post + 2 <= n)%nat ->
  writes (loop (run n) (CStyleLoop init cnd post)) tt
         ("((" ++ arithmText init false ++ "; " ++ arithmText cnd false
               ++ "; " ++ arithmText post false ++ "))").
Proof.
  intros Hi Hc Hp Hdi Hdc Hdp. unfold loop.
  pose proof (@arithm_plain n) as IH.
  eapply writes_eq; [|repeat writes_step IH]; try lia. reflexivity.
Qed.

Lemma loop_cstyle_header_witness :
  writes (loop (run 3) (CStyleLoop loop_init loop_cond loop_post)) tt
         ("((" ++ arithmText loop_init false ++ "; "
               ++ arithmText loop_cond false
               ++ "; " ++ arithmText loop_post false ++ "))").
Proof.
  apply (@loop_cstyle_header 3 loop_init loop_cond loop_post);
    first [reflexivity | simpl; lia].
Defined.

(** C7 as stated fails: the header of [for ((i = 0; i < 10; i++))] comes
    out with spaces around [=] and [<], where the claim has it compact. *)
Lemma loop_compact_counterexample :
  exists p,
    loop (run 3) (CStyleLoop loop_init loop_cond loop_post) fresh_buffer
      = Ok tt p /\
    Buffer_String (w p) = "((i = 0; i < 10; i++))" /\
    loopText_spec loop_init loop_cond loop_post = "((i=0; i<10; i++))" /\
    Buffer_String (w p) <> loopText_spec loop_init loop_cond loop_post.
Proof.
  eexists. split; [vm_compute; reflexivity|]. simpl.
  split; [reflexivity|]. split; [reflexivity|]. discriminate.
Qed.

(** ** Blank lines *)

Lemma repeat_byte_snoc x k : repeat_byte x k ++ String x "" = repeat_byte x (S k).
Proof. induction k; simpl in *; congruence. Qed.

Lemma repeatM_byte_ x (k : nat) : forall p t,
  w p = BytesBuffer t ->
  repeatM k (byte_ x) p = Ok tt (set_w (BytesBuffer (t ++ repeat_byte x k)) p).
Proof.
  induction k as [|k IH]; intros p t Hw.
  - simpl. rewrite append_nil_r. unfold ret. destruct p; simpl in *.
    subst. reflexivity.
  - cbn [repeatM]. unfold byte_ at 1. rewrite bind_modify. rewrite Hw.
    cbn [WriteByte fst]. erewrite IH by reflexivity.
    simpl. rewrite append_assoc. reflexivity.
Qed.

Lemma indent_buffer p t :
  w p = BytesBuffer t ->
  exists p',
    indent p = Ok tt p' /\
    w p' = BytesBuffer (t ++ indentText (c p) (level p)) /\
    curLine p' = curLine p /\ pendingHdocs p' = pendingHdocs p /\
    level p' = level p /\ levelIncs p' = levelIncs p /\
    lastLevel p' = level p.
Proof.
  intros Hw. unfold indent, indentText. rewrite bind_modify, !bind_gets.
  cbn [set_lastLevel level c].
  destruct (level p =? 0).
  { eexists. split; [reflexivity|]. simpl. rewrite append_nil_r. repeat split; auto. }
  destruct (Spaces (c p) =? 0).
  { unfold tabs. erewrite bind_Ok by (apply repeatM_byte_; exact Hw).
    eexists. split; [reflexivity|]. simpl. repeat split; auto. }
  destruct (Spaces (c p) >? 0).
  { unfold spaces. erewrite bind_Ok by (apply repeatM_byte_; exact Hw).
    eexists. split; [reflexivity|]. simpl. repeat split; auto. }
  eexists. split; [reflexivity|]. simpl. rewrite append_nil_r. repeat split; auto.
Qed.

Lemma newlines_text (n : nat) (pos : Position) p t :
  plainHdocs (pendingHdocs p) = true ->
  w p = BytesBuffer t ->
  exists p',
    newlines (run (S n)) pos p = Ok tt p' /\
    w p' = BytesBuffer
             (t ++ nl ++ drainText (pendingHdocs p)
                ++ (if Line pos >? add (drainLine (curLine p) (pendingHdocs p)) 1
                    then nl else "")
                ++ indentText (c p) (level p)) /\
    curLine p' = Line pos /\ pendingHdocs p' = [].
Proof.
  intros Hp Hw. unfold newlines.
  destruct (newline_drain n p Hp Hw)
    as (p1 & E1 & Hw1 & Hc1 & Hq1 & _ & _ & Hl1).
  rewrite (bind_Ok _ E1), bind_gets, Hc1.
  assert (Hlv : level p1 = level p /\ c p1 = c p).
  { unfold same_levels in Hl1. tauto. }
  destruct Hlv as [Hlv Hcf].
  destruct (Line pos >? add (drainLine (curLine p) (pendingHdocs p)) 1).
  - cbn [when].
    destruct (byte_plain newline_byte Hw1) as (p2 & E2 & Hw2 & Hl2).
    rewrite (bind_Ok _ E2).
    destruct (indent_buffer p2 Hw2) as (p3 & E3 & Hw3 & _ & Hq3 & _).
    rewrite (bind_Ok _ E3). unfold modify. eexists. split; [reflexivity|].
    simpl. unfold same_layout in Hl2.
    assert (level p2 = level p1 /\ c p2 = c p1 /\
            pendingHdocs p2 = pendingHdocs p1) as (Hl & Hc2 & Hq2) by tauto.
    rewrite Hw3, Hl, Hc2, Hlv, Hcf, Hq3, Hq2, Hq1. unfold nl.
    rewrite !append_assoc. auto.
  - cbn [when]. rewrite bind_ret.
    destruct (indent_buffer p1 Hw1) as (p3 & E3 & Hw3 & _ & Hq3 & _).
    rewrite (bind_Ok _ E3). unfold modify. eexists. split; [reflexivity|].
    simpl. rewrite Hw3, Hlv, Hcf, Hq3, Hq1. rewrite !append_assoc. auto.
Qed.

(** C3, as amended: the newline that keeps a blank line writes one newline,
    the heredocs that are pending, one more newline when the line of the
    next node is more than one past the line counter, however far, and
    the indentation; it never writes a second blank line. *)
Theorem newlines_blank_cap (n : nat) (pos : Position) (p : printer)
        (t : string) :
  plainHdocs (pendingHdocs p) = true ->
  w p = BytesBuffer t ->
  exists p',
    newlines (run (S n)) pos p = Ok tt p' /\
    w p' = BytesBuffer
             (t ++ nl ++ drainText (pendingHdocs p)
                ++ (if Line pos >? add (drainLine (curLine p) (pendingHdocs p)) 1
                    then nl else "")
                ++ indentText (c p) (level p)) /\
    curLine p' = Line pos.
Proof.
  intros Hp Hw. destruct (newlines_text n pos p Hp Hw) as (p' & E & H1 & H2 & _).
  exists p'. auto.
Qed.

Lemma newlines_blank_cap_witness :
  exists p',
    newlines (run 1) (mkPosition 1000 1) fresh_buffer = Ok tt p' /\
    w p' = BytesBuffer
             ("" ++ nl ++ drainText (pendingHdocs fresh_buffer)
                ++ (if Line (mkPosition 1000 1)
                         >? add (drainLine (curLine fresh_buffer)
                                           (pendingHdocs fresh_buffer)) 1
                    then nl else "")
                ++ indentText (c fresh_buffer) (level fresh_buffer)) /\
    curLine p' = Line (mkPosition 1000 1).
Proof.
  apply (@newlines_blank_cap 0 (mkPosition 1000 1) fresh_buffer "");
    reflexivity.
Defined.

(** C3 as stated fails: a quoted string is printed with the blank lines it
    holds, so three newlines follow each other in the output. *)
Lemma blank_lines_counterexample :
  exists p s,
    Fprint 2 config0 reliable_sink blank_lines_file = Ok None p /\
    sink_of p = Some s /\
    sink_text s = "echo 'a" ++ nl ++ nl ++ nl ++ "b'" ++ nl /\
    max_newline_run (sink_text s) = 3%nat.
Proof.
  eexists. eexists. split; [vm_compute; reflexivity|].
  split; [reflexivity|]. split; reflexivity.
Qed.

(** C5 as stated fails: a heredoc whose terminator is the empty word ends
    with an empty line, so the output ends with two newlines. *)
Lemma trailing_newline_counterexample :
  exists p s,
    Fprint 2 config0 reliable_sink empty_terminator_file = Ok None p /\
    sink_of p = Some s /\
    sink_text s = "cat <<''" ++ nl ++ "hello" ++ nl ++ nl /\
    trailing_newlines (sink_text s) = 2%nat.
Proof.
  eexists. eexists. split; [vm_compute; reflexivity|].
  split; [reflexivity|]. split; reflexivity.
Qed.

(** ** Indentation balance *)

Lemma wrap_cong z : (2 ^ 64 | wrap z - z).
Proof.
  unfold wrap. exists (- ((z + 2 ^ 63) / 2 ^ 64)).
  change (2 ^ 63) with 9223372036854775808.
  change (2 ^ 64) with 18446744073709551616.
  pose proof (Z.div_mod (z + 9223372036854775808) 18446744073709551616) as H.
  lia.
Qed.

Lemma wrap_in_int z : in_int (wrap z).
Proof.
  unfold wrap, in_int.
  change (2 ^ 63) with 9223372036854775808.
  change (2 ^ 64) with 18446744073709551616.
  pose proof (Z.mod_pos_bound (z + 9223372036854775808) 18446744073709551616)
    as H.
  lia.
Qed.

Lemma bal_refl p : bal 0 0 p p.
Proof.
  unfold bal. split; [lia|]. split; [exists 0; lia|auto].
Qed.

Lemma bal_trans a b a' b' p q r :
  bal a b p q -> bal a' b' q r -> bal (a + a') (b + b') p r.
Proof.
  intros (H1 & H2 & H3) (H1' & H2' & H3'). unfold bal.
  split; [lia|]. split; [|auto].
  replace (phi r - phi p - (b + b'))
    with ((phi r - phi q - b') + (phi q - phi p - b)) by lia.
  apply Z.divide_add_r; assumption.
Qed.

Lemma bal_keep p q :
  level q = level p -> levelIncs q = levelIncs p -> bal 0 0 p q.
Proof.
  intros Hl Hi. unfold bal, phi. rewrite Hl, Hi.
  split; [lia|]. split; [exists 0; lia|auto].
Qed.

Lemma sat_ret {A} (a : A) : sat (bal 0 0) (ret a).
Proof. intros p. apply bal_refl. Qed.

Lemma sat_panic {A} R : sat R (@panic A).
Proof. intros p. exact I. Qed.

Lemma sat_gets {A} (g : printer -> A) : sat (bal 0 0) (gets g).
Proof. intros p. apply bal_refl. Qed.

Lemma sat_bind_sub {A B} (m : M A) (k : A -> M B) a b c d :
  sat (bal a b) m -> (forall x, sat (bal (c - a) (d - b)) (k x)) ->
  sat (bal c d) (bind m k).
Proof.
  intros Hm Hk p. unfold bind. specialize (Hm p).
  destruct (m p) as [x q| |]; auto. specialize (Hk x q).
  destruct (k x q) as [y r| |]; auto.
  replace c with (a + (c - a)) by lia. replace d with (b + (d - b)) by lia.
  eapply bal_trans; eauto.
Qed.

Lemma sat_bind {A B} (m : M A) (k : A -> M B) :
  sat (bal 0 0) m -> (forall x, sat (bal 0 0) (k x)) ->
  sat (bal 0 0) (bind m k).
Proof. intros Hm Hk. eapply sat_bind_sub; eauto. Qed.

Lemma sat_modify_keep (g : printer -> printer) :
  (forall p, level (g p) = level p /\ levelIncs (g p) = levelIncs p) ->
  sat (bal 0 0) (modify g).
Proof. intros H p. simpl. destruct (H p). apply bal_keep; assumption. Qed.

Lemma sat_byte x : sat (bal 0 0) (byte x).
Proof.
  apply sat_modify_keep. intros p. destruct (WriteByte x (w p)). auto.
Qed.

Lemma sat_byte_ x : sat (bal 0 0) (byte_ x).
Proof. apply sat_modify_keep. intros p. auto. Qed.

Lemma sat_str s : sat (bal 0 0) (str s).
Proof.
  apply sat_modify_keep. intros p. destruct (WriteString s (w p)). auto.
Qed.

Lemma sat_when (b : bool) (m : M unit) :
  sat (bal 0 0) m -> sat (bal 0 0) (when b m).
Proof. destruct b; simpl; auto using sat_ret. Qed.

Lemma sat_forM {A} (body : A -> M unit) (l : list A) :
  (forall x, sat (bal 0 0) (body x)) -> sat (bal 0 0) (forM body l).
Proof.
  intros Hb. induction l; simpl; [apply sat_ret|].
  apply sat_bind; auto.
Qed.

Lemma sat_foldM {A S} (body : S -> A -> M S) (l : list A) :
  (forall s x, sat (bal 0 0) (body s x)) ->
  forall s, sat (bal 0 0) (foldM body s l).
Proof.
  intros Hb. induction l; simpl; intros s; [apply sat_ret|].
  apply sat_bind; auto.
Qed.

Lemma sat_repeatM (n : nat) (m : M unit) :
  sat (bal 0 0) m -> sat (bal 0 0) (repeatM n m).
Proof.
  intros Hm. induction n; simpl; [apply sat_ret|]. apply sat_bind; auto.
Qed.

(** The level goes up and down. *)
Lemma sat_level_up :
  sat (bal 0 1) (modify (fun p => set_level (add (level p) 1) p)).
Proof.
  intros p. simpl. unfold bal, phi, add. simpl.
  split; [lia|]. split; [|intros _; apply wrap_in_int].
  destruct (wrap_cong (level p + 1)) as [k Hk]. exists k. lia.
Qed.

Lemma sat_level_down :
  sat (bal 0 (-1)) (modify (fun p => set_level (sub (level p) 1) p)).
Proof.
  intros p. simpl. unfold bal, phi, sub. simpl.
  split; [lia|]. split; [|intros _; apply wrap_in_int].
  destruct (wrap_cong (level p - 1)) as [k Hk]. exists k. lia.
Qed.

Lemma unsnoc_spec {A} (l : list A) :
  match unsnoc l with
  | None => l = []
  | Some (i, x) => l = (i ++ [x])%list
  end.
Proof.
  induction l as [|y l IH]; simpl; [reflexivity|].
  destruct (unsnoc l) as [[i x]|]; subst; reflexivity.
Qed.

Lemma countTrue_snoc l b : countTrue (l ++ [b]) = countTrue l + b2z b.
Proof.
  unfold countTrue. rewrite filter_app, length_app. simpl.
  destruct b; simpl; lia.
Qed.

Lemma sat_incLevel : sat (bal 1 0) incLevel.
Proof.
  intros p. unfold incLevel, bind, gets, modify, ret, panic.
  destruct (level p <=? lastLevel p).
  - unfold bal, phi. simpl.
    rewrite length_app, countTrue_snoc. simpl.
    split; [lia|]. split; [|intros _; apply wrap_in_int].
    destruct (wrap_cong (level p + 1)) as [k Hk]. unfold add. exists k. lia.
  - pose proof (unsnoc_spec (levelIncs p)) as Hu.
    destruct (unsnoc (levelIncs p)) as [[i [|]]|]; [| |exact I].
    + unfold bal, phi. simpl.
      rewrite Hu, !length_app, !countTrue_snoc. simpl.
      split; [lia|]. split; [|auto]. exists 0. lia.
    + unfold bal, phi. simpl.
      rewrite length_app, countTrue_snoc. simpl.
      split; [lia|]. split; [|auto]. exists 0. lia.
Qed.

Lemma sat_decLevel : sat (bal (-1) 0) decLevel.
Proof.
  intros p. unfold decLevel, bind, gets, modify, ret, panic, when.
  pose proof (unsnoc_spec (levelIncs p)) as Hu.
  destruct (unsnoc (levelIncs p)) as [[i b]|]; [|exact I].
  destruct b; unfold bal, phi; simpl;
    rewrite Hu, length_app, countTrue_snoc; simpl.
  - split; [lia|]. split; [|intros _; apply wrap_in_int].
    destruct (wrap_cong (level p - 1)) as [k Hk]. unfold sub. exists k. lia.
  - split; [lia|]. split; [|auto]. exists 0. lia.
Qed.

Create HintDb bal.

#[export] Hint Resolve sat_ret sat_panic sat_gets sat_byte sat_byte_ sat_str
  sat_level_up sat_level_down sat_incLevel sat_decLevel : bal.

Ltac keep_solve := intros ?; simpl; split; reflexivity.

Ltac bal_norm :=
  match goal with
  | |- sat (bal ?a ?b) ?m =>
      let a' := eval cbv in a in
      let b' := eval cbv in b in
      change (sat (bal a' b') m)
  end.

Ltac bal_step :=
  cbv beta zeta;
  lazymatch goal with
  | |- sat (bal _ _) (bind (when ?b incLevel) _) =>
      destruct b; cbn [when negb]
  | |- sat (bal _ _) (bind (when ?b decLevel) _) =>
      destruct b; cbn [when negb]
  | |- sat (bal _ _) (bind ?m _) =>
      first [ eapply sat_bind_sub;
              [ solve [eauto with bal] | intros ?; bal_norm ]
            | eapply (@sat_bind_sub _ _ _ _ 0 0);
              [ | intros ?; bal_norm ] ]
  | |- sat (bal 0 0) (ret _) => apply sat_ret
  | |- sat _ panic => apply sat_panic
  | |- sat (bal 0 0) (gets _) => apply sat_gets
  | |- sat (bal 0 0) (position _) => apply sat_gets
  | |- sat (bal 0 0) (hasInline _) => apply sat_gets
  | |- sat (bal 0 0) (modify _) => apply sat_modify_keep; keep_solve
  | |- sat (bal 0 0) (when _ _) => apply sat_when
  | |- sat (bal 0 0) (forM _ _) => apply sat_forM; intros ?
  | |- sat (bal 0 0) (foldM _ _ _) => apply sat_foldM; intros ? ?
  | |- sat (bal 0 0) (repeatM _ _) => apply sat_repeatM
  | |- sat _ (if ?b then _ else _) => destruct b
  | |- sat _ (match ?x with _ => _ end) => destruct x
  | |- sat _ (let '(_, _) := ?x in _) => destruct x
  | |- _ => solve [eauto with bal]
  end.

Ltac bal_auto := repeat bal_step.

Lemma sat_space : sat (bal 0 0) space.
Proof. unfold space. bal_auto. Qed.
Lemma sat_spaces n : sat (bal 0 0) (spaces n).
Proof. unfold spaces. bal_auto. Qed.
Lemma sat_tabs n : sat (bal 0 0) (tabs n).
Proof. unfold tabs. bal_auto. Qed.
Lemma sat_bslashNewl : sat (bal 0 0) bslashNewl.
Proof. unfold bslashNewl. bal_auto. Qed.
Lemma sat_token s b : sat (bal 0 0) (token s b).
Proof. unfold token. bal_auto. Qed.
Lemma sat_rsrv s : sat (bal 0 0) (rsrv s).
Proof. unfold rsrv. bal_auto. Qed.
#[export] Hint Resolve sat_space sat_spaces sat_tabs sat_bslashNewl sat_token
  sat_rsrv : bal.
Lemma sat_spacedRsrv s : sat (bal 0 0) (spacedRsrv s).
Proof. unfold spacedRsrv. bal_auto. Qed.
Lemma sat_spacedTok s b : sat (bal 0 0) (spacedTok s b).
Proof. unfold spacedTok. bal_auto. Qed.
Lemma sat_indent : sat (bal 0 0) indent.
Proof. unfold indent. bal_auto. Qed.
#[export] Hint Resolve sat_spacedRsrv sat_spacedTok sat_indent : bal.

(** *** The loops that indent once *)

Lemma bal_trans' a b a' b' c d p q r :
  bal a b p q -> bal a' b' q r -> c = a + a' -> d = b + b' -> bal c d p r.
Proof. intros H1 H2 -> ->. eapply bal_trans; eauto. Qed.

Lemma satv_pre {A} c0 (m : M A) (k : A -> M bool) :
  sat (bal 0 0) m -> (forall x, satv (Rany c0) (k x)) ->
  satv (Rany c0) (bind m k).
Proof.
  intros Hm Hk p. unfold bind.
  specialize (Hm p). destruct (m p) as [x q| |]; auto.
  specialize (Hk x q). destruct (k x q) as [a r| |]; auto.
  unfold Rany in *.
  eapply bal_trans'; [eassumption|eassumption|lia|lia].
Qed.

Lemma satv_post c0 (m : M bool) (k : bool -> M bool) :
  satv (Rany c0) m -> (forall a, satv (Rret a) (k a)) ->
  satv (Rany c0) (bind m k).
Proof.
  intros Hm Hk p. unfold bind.
  specialize (Hm p). destruct (m p) as [a q| |]; auto.
  specialize (Hk a q). destruct (k a q) as [b r| |]; auto.
  destruct Hk as [-> Hb]. unfold Rany in *.
  eapply bal_trans'; [eassumption|eassumption|lia|lia].
Qed.

Lemma Rret_pre {A B} (a : B) (m : M A) (k : A -> M B) :
  sat (bal 0 0) m -> (forall x, satv (Rret a) (k x)) ->
  satv (Rret a) (bind m k).
Proof.
  intros Hm Hk p. unfold bind.
  specialize (Hm p). destruct (m p) as [x q| |]; auto.
  specialize (Hk x q). destruct (k x q) as [b r| |]; auto.
  destruct Hk as [-> Hb]. split; [reflexivity|].
  eapply bal_trans'; [eassumption|eassumption|lia|lia].
Qed.

Lemma Rret_ret {A} (a : A) : satv (Rret a) (ret a).
Proof. intros p. split; [reflexivity|apply bal_refl]. Qed.

Lemma Rany_ret (a : bool) : satv (Rany (b2z a)) (ret a).
Proof.
  intros p. unfold Rany. simpl. replace (b2z a - b2z a) with 0 by lia.
  apply bal_refl.
Qed.

(** The step the three loops share: the first time the flag is down the
    level goes up, and the flag with it. *)
Lemma satv_any_step (any : bool) :
  satv (Rany (b2z any))
       (if negb any then incLevel ;; ret true else ret any).
Proof.
  destruct any; simpl; [apply Rany_ret|].
  intros p. unfold bind. pose proof (sat_incLevel p) as H.
  destruct (incLevel p) as [x q| |]; auto.
Qed.

Lemma satv_foldM {A} (body : bool -> A -> M bool) (l : list A) :
  (forall s x, satv (Rany (b2z s)) (body s x)) ->
  forall s, satv (Rany (b2z s)) (foldM body s l).
Proof.
  intros Hb. induction l as [|x l IH]; intros s; simpl; [apply Rany_ret|].
  intros p. unfold bind. specialize (Hb s x p).
  destruct (body s x p) as [s' q| |]; auto.
  specialize (IH s' q). destruct (foldM body s' l q) as [s'' r| |]; auto.
  unfold Rany in *.
  eapply bal_trans'; [eassumption|eassumption|lia|lia].
Qed.

Lemma sat_loop_bind {B} (m : M bool) (k : bool -> M B) :
  satv (Rany 0) m -> (forall any, sat (bal (- b2z any) 0) (k any)) ->
  sat (bal 0 0) (bind m k).
Proof.
  intros Hm Hk p. unfold bind.
  specialize (Hm p). destruct (m p) as [a q| |]; auto.
  specialize (Hk a q). destruct (k a q) as [b r| |]; auto.
  unfold Rany in *.
  eapply bal_trans'; [eassumption|eassumption|lia|lia].
Qed.

Lemma sat_grade_eq {A} a b a' b' (m : M A) :
  a' = a -> b' = b -> sat (bal a b) m -> sat (bal a' b') m.
Proof. intros -> ->. auto. Qed.

Lemma sat_when_decLevel (any : bool) :
  sat (bal (- b2z any) 0) (when any decLevel).
Proof. destruct any; simpl; [apply sat_decLevel|apply sat_ret]. Qed.

(** The part of a loop body that breaks the line and indents. *)
Lemma satv_break_line (any : bool) (m : M unit) :
  sat (bal 0 0) m ->
  satv (Rany (b2z any))
       (m ;;
        any' <- (if negb any then incLevel ;; ret true else ret any) ;;
        indent ;;
        ret any').
Proof.
  intros Hm. apply satv_pre; [exact Hm|intros _].
  apply satv_post; [apply satv_any_step|intros a].
  apply Rret_pre; [apply sat_indent|intros _]. apply Rret_ret.
Qed.

Section Balance.

Variable self : rec.

Hypothesis Hb : bal_rec self.

Lemma Hb_wordPart wp : sat (bal 0 0) (wordPart_r self wp).
Proof. apply Hb. Qed.
Lemma Hb_stmt st : sat (bal 0 0) (stmt_r self st).
Proof. apply Hb. Qed.
Lemma Hb_arithm e b : sat (bal 0 0) (arithm_r self e b).
Proof. apply Hb. Qed.
Lemma Hb_commentsUpTo l : sat (bal 0 0) (commentsUpTo_r self l).
Proof. apply Hb. Qed.

Lemma sat_stmtLen st : sat (bal 0 0) (stmtLen self st).
Proof.
  intros p. unfold stmtLen. destruct (stmt_r self st _); auto.
  apply bal_refl.
Qed.

#[local] Hint Resolve Hb_wordPart Hb_stmt Hb_arithm Hb_commentsUpTo
  sat_stmtLen : bal.

Lemma sat_unquotedWord wd : sat (bal 0 0) (unquotedWord self wd).
Proof. unfold unquotedWord. bal_auto. Qed.
#[local] Hint Resolve sat_unquotedWord : bal.

Lemma sat_newline : sat (bal 0 0) (newline self).
Proof. unfold newline. bal_auto. Qed.
#[local] Hint Resolve sat_newline : bal.

Lemma sat_newlines pos : sat (bal 0 0) (newlines self pos).
Proof. unfold newlines. bal_auto. Qed.
#[local] Hint Resolve sat_newlines : bal.

Lemma sat_alwaysSeparate pos : sat (bal 0 0) (alwaysSeparate self pos).
Proof. unfold alwaysSeparate. bal_auto. Qed.

Lemma sat_didSeparate pos : sat (bal 0 0) (didSeparate self pos).
Proof. unfold didSeparate. bal_auto. Qed.
#[local] Hint Resolve sat_alwaysSeparate sat_didSeparate : bal.

Lemma sat_semiOrNewl s pos : sat (bal 0 0) (semiOrNewl self s pos).
Proof. unfold semiOrNewl. bal_auto. Qed.

Lemma sat_sepTok s pos : sat (bal 0 0) (sepTok self s pos).
Proof. unfold sepTok. bal_auto. Qed.

Lemma sat_semiRsrv s pos b : sat (bal 0 0) (semiRsrv self s pos b).
Proof. unfold semiRsrv. bal_auto. Qed.
#[local] Hint Resolve sat_semiOrNewl sat_sepTok sat_semiRsrv : bal.

Lemma sat_commentsUpTo l : sat (bal 0 0) (commentsUpTo self l).
Proof. unfold commentsUpTo. bal_auto. Qed.

Lemma sat_word wd : sat (bal 0 0) (word self wd).
Proof. unfold word. bal_auto. Qed.

Lemma sat_spacedWord wd : sat (bal 0 0) (spacedWord self wd).
Proof. unfold spacedWord. bal_auto. Qed.
#[local] Hint Resolve sat_word sat_spacedWord : bal.

Lemma sat_wordJoin ws b : sat (bal 0 0) (wordJoin self ws b).
Proof.
  unfold wordJoin. apply sat_loop_bind; [|apply sat_when_decLevel].
  apply (@satv_foldM _ _ ws). intros any wd.
  apply satv_pre; [apply sat_gets|intros cl].
  apply satv_pre; [apply sat_gets|intros wpos].
  apply satv_post.
  - destruct ((cl >? 0) && (Line wpos >? cl)).
    + apply satv_break_line. bal_auto.
    + apply satv_pre; [apply sat_gets|intros sp].
      apply satv_pre; [bal_auto|intros _]. apply Rany_ret.
  - intros a. apply Rret_pre; [bal_auto|intros _]. apply Rret_ret.
Qed.
#[local] Hint Resolve sat_wordJoin : bal.

Lemma sat_stmts_scan l : forall a b, sat (bal 0 0) (stmts_scan self a b l).
Proof. induction l; intros; simpl; bal_auto. Qed.
#[local] Hint Resolve sat_stmts_scan : bal.

Lemma sat_stmts_loop l : forall a b, sat (bal 0 0) (stmts_loop self a b l).
Proof. induction l; intros; simpl; bal_auto. Qed.
#[local] Hint Resolve sat_stmts_loop : bal.

Lemma sat_stmts l : sat (bal 0 0) (stmts self l).
Proof. unfold stmts. bal_auto. Qed.
#[local] Hint Resolve sat_stmts : bal.

Lemma sat_nestedStmts l : sat (bal 0 0) (nestedStmts self l).
Proof. unfold nestedStmts. bal_auto. Qed.
#[local] Hint Resolve sat_nestedStmts : bal.

Lemma sat_wordPart wp : sat (bal 0 0) (wordPart self wp).
Proof. unfold wordPart. bal_auto. Qed.

Lemma sat_cond cd : sat (bal 0 0) (cond self cd).
Proof. unfold cond. bal_auto. Qed.

Lemma sat_loop lp : sat (bal 0 0) (loop self lp).
Proof. unfold loop. bal_auto. Qed.

Lemma sat_arithm e b : sat (bal 0 0) (arithm self e b).
Proof. unfold arithm. bal_auto. Qed.
#[local] Hint Resolve sat_cond sat_loop : bal.

Lemma sat_assigns l : sat (bal 0 0) (assigns self l).
Proof.
  unfold assigns. apply sat_loop_bind; [|apply sat_when_decLevel].
  apply (@satv_foldM _ _ l). intros any [apos name append value].
  apply satv_pre; [apply sat_gets|intros cl].
  apply satv_pre; [apply sat_gets|intros ps].
  apply satv_post.
  - destruct ((cl >? 0) && (Line ps >? cl)).
    + apply satv_break_line. bal_auto.
    + apply satv_pre; [apply sat_gets|intros sp].
      apply satv_pre; [bal_auto|intros _]. apply Rany_ret.
  - intros a. apply Rret_pre; [bal_auto|intros _].
    apply Rret_pre; [bal_auto|intros _]. apply Rret_ret.
Qed.
#[local] Hint Resolve sat_assigns : bal.

Lemma sat_command_redirs a l : forall k,
  sat (bal 0 0) (command_redirs self a k l).
Proof. induction l; intros; simpl; bal_auto. Qed.
#[local] Hint Resolve sat_command_redirs : bal.

Lemma sat_command cmd rs : sat (bal 0 0) (command self cmd rs).
Proof. unfold command. bal_auto. Qed.
#[local] Hint Resolve sat_command : bal.

Lemma satv_stmt_redir any r : satv (Rany (b2z any)) (stmt_redir self any r).
Proof.
  unfold stmt_redir.
  apply satv_pre; [apply sat_gets|intros pos].
  apply satv_pre; [apply sat_gets|intros cl].
  apply satv_post.
  - destruct ((cl >? 0) && (Line pos >? cl)).
    + apply satv_break_line. bal_auto.
    + apply Rany_ret.
  - intros a.
    apply Rret_pre; [bal_auto|intros _].
    apply Rret_pre; [bal_auto|intros ws].
    apply Rret_pre; [bal_auto|intros _].
    apply Rret_pre; [bal_auto|intros _].
    apply Rret_pre; [bal_auto|intros _].
    apply Rret_pre; [bal_auto|intros _].
    apply Rret_pre; [bal_auto|intros _].
    apply Rret_pre; [bal_auto|intros _]. apply Rret_ret.
Qed.

Lemma sat_stmt st : sat (bal 0 0) (stmt self st).
Proof.
  unfold stmt. destruct st as [pos negated asgs cmd redirs background].
  apply sat_bind; [bal_auto|intros _].
  apply sat_bind; [bal_auto|intros _].
  apply sat_bind; [bal_auto|intros startRedirs].
  apply sat_loop_bind.
  - apply (@satv_foldM _ _ (skipn startRedirs redirs)).
    intros any r. apply satv_stmt_redir.
  - intros any. eapply sat_bind_sub; [apply sat_when_decLevel|intros _].
    apply (@sat_grade_eq _ 0 0); [lia|lia|]. bal_auto.
Qed.

End Balance.

Lemma run_bal (n : nat) : bal_rec (run n).
Proof.
  induction n as [|n IH].
  - repeat split; intros; intros p; exact I.
  - repeat split; intros; cbn [run wordPart_r stmt_r arithm_r commentsUpTo_r].
    + apply sat_wordPart, IH.
    + apply sat_stmt, IH.
    + apply sat_arithm, IH.
    + apply sat_commentsUpTo, IH.
Qed.

Lemma sat_traversal n fl : sat (bal 0 0) (traversal n fl).
Proof.
  unfold traversal. pose proof (run_bal n) as Hb.
  apply sat_bind; [apply sat_modify_keep; keep_solve|intros _].
  apply sat_bind; [apply sat_stmts, Hb|intros _].
  apply sat_bind; [apply sat_commentsUpTo, Hb|intros _].
  apply sat_newline, Hb.
Qed.

Lemma finish_levels p e p' :
  finish p = Ok e p' -> level p' = level p /\ levelIncs p' = levelIncs p.
Proof.
  unfold finish, bind, gets, modify. destruct (err p); simpl.
  - intros H. inversion H. auto.
  - destruct (w p) as [|b]; [intros H; inversion H; auto|].
    destruct (bufio.Flush b). intros H. inversion H. auto.
Qed.

Lemma bal_from_zero p q :
  level p = 0 -> levelIncs p = [] -> bal 0 0 p q ->
  level q = 0 /\ levelIncs q = [].
Proof.
  intros Hl Hi (H1 & H2 & H3). rewrite Hi in H1. simpl in H1.
  assert (Hq : levelIncs q = []).
  { destruct (levelIncs q); [reflexivity|simpl in H1; lia]. }
  split; [|exact Hq].
  unfold phi in H2. rewrite Hq, Hi, Hl in H2. unfold countTrue in H2.
  simpl in H2. rewrite Hl in H3.
  assert (Hin : in_int (level q)).
  { apply H3. unfold in_int.
    change (2 ^ 63) with 9223372036854775808. lia. }
  unfold in_int in Hin. destruct H2 as [k Hk].
  change (2 ^ 63) with 9223372036854775808 in Hin.
  change (2 ^ 64) with 18446744073709551616 in Hk. lia.
Qed.

Lemma Fprint_balanced n cfg sink fl e p :
  Fprint n cfg sink fl = Ok e p -> level p = 0 /\ levelIncs p = [].
Proof.
  rewrite Fprint_unfold. intros H.
  apply bind_inv in H as ([] & q & Ht & H).
  apply finish_levels in H as [-> ->].
  pose proof (@sat_traversal n fl
                (new_printer (BufioWriter (bufio.Reset sink)) fl cfg)) as Hs.
  rewrite Ht in Hs. eapply bal_from_zero; [| |exact Hs]; reflexivity.
Qed.

Lemma nested_file_output :
  exists p,
    Fprint 4 (mkPrintConfig 2) reliable_sink nested_file = Ok None p /\
    sink_of p = Some (mkWriter ["if a; then" ++ nl ++ "  b" ++ nl ++ "fi" ++ nl]
                               (answer reliable_sink)) /\
    level p = 0 /\ levelIncs p = [].
Proof.
  eexists. split; [vm_compute; reflexivity|].
  split; [reflexivity|]. split; reflexivity.
Qed.

(** C4: [incLevel] pushes one flag and [decLevel] pops one, and the level
    moves with the flags that are set; every function of the printer
    returns with the stack of flags as long as it found it and the level
    as far above its flags as before, so a nested statement list leaves
    both balanced, and when [Fprint] returns the level is zero and the
    stack is empty. *)
Theorem indentation_balanced (n : nat) :
  sat (bal 1 0) incLevel /\
  sat (bal (-1) 0) decLevel /\
  bal_rec (run n) /\
  (forall l, sat (bal 0 0) (nestedStmts (run n) l)) /\
  (forall cfg sink fl,
      match Fprint n cfg sink fl with
      | Ok e p => level p = 0 /\ levelIncs p = []
      | _ => True
      end) /\
  (exists p,
      Fprint 4 (mkPrintConfig 2) reliable_sink nested_file = Ok None p /\
      sink_of p = Some (mkWriter
                          ["if a; then" ++ nl ++ "  b" ++ nl ++ "fi" ++ nl]
                          (answer reliable_sink)) /\
      level p = 0 /\ levelIncs p = []).
Proof.
  split; [apply sat_incLevel|]. split; [apply sat_decLevel|].
  split; [apply run_bal|]. split; [|split].
  - intros l. apply sat_nestedStmts, run_bal.
  - intros cfg sink fl.
    destruct (Fprint n cfg sink fl) as [e p| |] eqn:E; auto.
    eapply Fprint_balanced, E.
  - exact nested_file_output.
Qed.

(** * Further properties of the printer *)

(** ** The flush at the end of [Fprint] *)

(** X1: over a sink that accepts every write, [Fprint] returns no error and
    the sink holds, after what it held before, exactly the bytes the
    traversal writes, in their order: nothing stays behind in the buffered
    writer.  Where the traversal panics or does not return, so does
    [Fprint]. *)
Theorem Fprint_flushes_all (n : nat) (cfg : PrintConfig) (sink : io_Writer)
        (fl : File) :
  reliable sink ->
  match Fprint n cfg sink fl, render n cfg fl with
  | Ok e p, Ok _ q =>
      e = None /\
      exists s', sink_of p = Some s' /\
                 sink_text s' = sink_text sink ++ Buffer_String (w q)
  | Panic, Panic => True
  | NoFuel, NoFuel => True
  | _, _ => False
  end.
Proof.
  intros Hr. pose proof (@Fprint_render n cfg sink fl Hr) as H.
  destruct (Fprint n cfg sink fl) as [e p| |],
           (render n cfg fl) as [u q| |]; auto.
  destruct H as (He & (s' & Hs & _ & Ht) & _).
  split; [exact He|]. exists s'. auto.
Qed.

Lemma Fprint_flushes_all_witness :
  match Fprint 2 config0 reliable_sink heredoc_file,
        render 2 config0 heredoc_file with
  | Ok e p, Ok _ q =>
      e = None /\
      exists s', sink_of p = Some s' /\
                 sink_text s' = sink_text reliable_sink ++ Buffer_String (w q)
  | Panic, Panic => True
  | NoFuel, NoFuel => True
  | _, _ => False
  end.
Proof.
  apply (@Fprint_flushes_all 2 config0 reliable_sink heredoc_file).
  intros h d. reflexivity.
Defined.

(** ** The comment backlog *)

Lemma hasInline_loop_sound fl pos cs :
  hasInline_loop fl pos cs = true ->
  exists c0, In c0 cs /\ commentLine fl c0 = Line pos.
Proof.
  induction cs as [|c0 cs IH]; simpl; [discriminate|].
  destruct (Line (File_Position fl (Hash c0)) =? Line pos) eqn:E.
  - intros _. exists c0. split; [left; reflexivity|].
    apply Z.eqb_eq. exact E.
  - destruct (Line (File_Position fl (Hash c0)) >? Line pos); [discriminate|].
    intros H. destruct (IH H) as (c1 & Hin & Hl). exists c1. auto.
Qed.

Lemma sorted_head_le fl c0 cs c1 :
  sortedComments fl (c0 :: cs) -> In c1 cs ->
  commentLine fl c0 <= commentLine fl c1.
Proof.
  revert c0. induction cs as [|c2 cs IH]; intros c0 Hs Hin; [contradiction|].
  simpl in Hs. destruct Hs as (Hle & Hs).
  destruct Hin as [->|Hin]; [exact Hle|].
  specialize (IH c2 Hs Hin). unfold commentLine in *. lia.
Qed.

Lemma hasInline_loop_complete fl pos cs :
  sortedComments fl cs ->
  (exists c0, In c0 cs /\ commentLine fl c0 = Line pos) ->
  hasInline_loop fl pos cs = true.
Proof.
  induction cs as [|c0 cs IH]; intros Hs (c1 & Hin & Hl);
    [contradiction|].
  simpl. destruct (Line (File_Position fl (Hash c0)) =? Line pos) eqn:E;
    [reflexivity|].
  apply Z.eqb_neq in E.
  destruct Hin as [->|Hin]; [unfold commentLine in Hl; contradiction|].
  pose proof (@sorted_head_le _ _ _ _ Hs Hin) as Hle.
  unfold commentLine in *.
  destruct (Line (File_Position fl (Hash c0)) >? Line pos) eqn:G.
  - apply Z.gtb_lt in G. lia.
  - apply IH; [simpl in Hs; destruct cs; tauto|]. exists c1. auto.
Qed.

(** X2: when the pending comments are in the order of their lines,
    [hasInline] answers whether one of them is on the line asked for; its
    early exit at the first later comment loses none. *)
Theorem hasInline_sorted (pos : Position) (p : printer) :
  sortedComments (f p) (comments p) ->
  match hasInline pos p with
  | Ok b p' =>
      p' = p /\
      (b = true <->
       exists c0, In c0 (comments p) /\ commentLine (f p) c0 = Line pos)
  | _ => False
  end.
Proof.
  intros Hs. unfold hasInline, gets. split; [reflexivity|]. split.
  - apply hasInline_loop_sound.
  - apply hasInline_loop_complete, Hs.
Qed.

Lemma hasInline_sorted_witness :
  match hasInline (mkPosition 3 1)
          (set_comments [mkComment 110 "a"; mkComment 320 "b"] fresh_buffer)
  with
  | Ok b p' =>
      p' = set_comments [mkComment 110 "a"; mkComment 320 "b"] fresh_buffer /\
      (b = true <->
       exists c0,
         In c0 (comments (set_comments [mkComment 110 "a"; mkComment 320 "b"]
                                       fresh_buffer)) /\
         commentLine (f (set_comments [mkComment 110 "a"; mkComment 320 "b"]
                                      fresh_buffer)) c0
           = Line (mkPosition 3 1))
  | _ => False
  end.
Proof.
  apply (@hasInline_sorted (mkPosition 3 1)
           (set_comments [mkComment 110 "a"; mkComment 320 "b"] fresh_buffer)).
  simpl. unfold line_col. simpl. repeat split. vm_compute. discriminate.
Defined.

Lemma commentsUpTo_head (n : nat) : forall line p,
  match commentsUpTo (run n) line p with
  | Ok _ p' =>
      comments p' = [] \/
      (0 < line /\
       exists c0 rest, comments p' = c0 :: rest /\
                       line <= commentLine (f p') c0)
  | _ => True
  end.
Proof.
  induction n as [|n IH]; intros line p.
  - unfold commentsUpTo. rewrite bind_gets.
    destruct (comments p) as [|c0 rest] eqn:Ec; [left; exact Ec|].
    unfold position. rewrite bind_gets.
    destruct ((line >? 0) && (Line (File_Position (f p) (Hash c0)) >=? line))
      eqn:E.
    + apply andb_true_iff in E as [E1 E2]. right.
      split; [lia|]. exists c0, rest. split; [exact Ec|].
      unfold commentLine. lia.
    + rewrite bind_modify.
      match goal with |- match ?m with _ => _ end =>
        destruct m as [u p'| |] eqn:Em; auto end.
      exfalso. repeat (apply bind_inv in Em as (? & ? & _ & Em)).
      discriminate.
  - unfold commentsUpTo. rewrite bind_gets.
    destruct (comments p) as [|c0 rest] eqn:Ec; [left; exact Ec|].
    unfold position. rewrite bind_gets.
    destruct ((line >? 0) && (Line (File_Position (f p) (Hash c0)) >=? line))
      eqn:E.
    + apply andb_true_iff in E as [E1 E2]. right.
      split; [lia|]. exists c0, rest. split; [exact Ec|].
      unfold commentLine. lia.
    + rewrite bind_modify.
      match goal with |- match ?m with _ => _ end =>
        destruct m as [u p'| |] eqn:Em; auto end.
      do 6 (apply bind_inv in Em as (? & ? & _ & Em)).
      cbn [run commentsUpTo_r] in Em.
      match type of Em with commentsUpTo _ _ ?q = _ =>
        specialize (IH line q) end.
      rewrite Em in IH. exact IH.
Qed.

(** X3: when [commentsUpTo] returns, the backlog is empty or, for a line
    above zero, starts with a comment that is not before that line: every
    earlier comment has been written.  Asked for line zero it leaves no
    comment. *)
Theorem commentsUpTo_flushes (n : nat) (line : int) (p : printer) :
  match commentsUpTo (run n) line p with
  | Ok _ p' =>
      (comments p' = [] \/
       (0 < line /\
        exists c0 rest, comments p' = c0 :: rest /\
                        line <= commentLine (f p') c0)) /\
      (line = 0 -> comments p' = [])
  | _ => True
  end.
Proof.
  pose proof (commentsUpTo_head n line p) as H.
  destruct (commentsUpTo (run n) line p) as [u p'| |]; auto.
  split; [exact H|]. intros ->. destruct H as [H|[H _]]; [exact H|lia].
Qed.

(** ** Redirections printed early *)

Lemma command_redirs_prefix (self : rec) (arg1 : Pos) (l : list Redirect) :
  forall k p,
    match command_redirs self arg1 k l p with
    | Ok k' p' =>
        exists j, k' = (k + j)%nat /\ (j <= List.length l)%nat /\
          Forall (earlyRedirect arg1) (firstn j l) /\
          match nth_error l j with
          | Some r => arg1 < Redirect_pos r \/ isHeredoc (Redirect_Op r) = true
          | None => True
          end
    | _ => True
    end.
Proof.
  induction l as [|r l IH]; intros k p; simpl.
  - exists O. simpl. split; [lia|]. split; [lia|]. split; [constructor|exact I].
  - destruct (Redirect_pos r >? arg1) eqn:E1.
    { exists O. simpl. split; [lia|]. split; [lia|]. split; [constructor|].
      left. apply Z.gtb_lt in E1. lia. }
    destruct (isHeredoc (Redirect_Op r)) eqn:E2.
    { exists O. simpl. split; [lia|]. split; [lia|]. split; [constructor|].
      right. exact E2. }
    match goal with |- match ?m with _ => _ end =>
      destruct m as [k' p'| |] eqn:Em; auto end.
    do 6 (apply bind_inv in Em as (? & ? & _ & Em)).
    match type of Em with command_redirs _ _ _ _ ?q = _ =>
      specialize (IH (S k) q) end.
    rewrite Em in IH.
    destruct IH as (j & -> & Hj & Hall & Hnth).
    exists (S j). simpl. split; [lia|]. split; [lia|]. split; [|exact Hnth].
    constructor; [|exact Hall]. split; [|exact E2].
    destruct (Z.gtb_spec (Redirect_pos r) arg1); [discriminate|lia].
Qed.

(** X4: the redirections [command] prints right after the first word of a
    call are a prefix of the statement's redirections, each of them
    starting no later than the second word and none of them a heredoc; the
    count it returns is the length of that prefix, and the redirection
    after it, if any, starts later or is a heredoc.  So a heredoc is always
    left to the loop of [stmt]. *)
Theorem command_redirs_early (self : rec) (arg1 : Pos) (l : list Redirect)
        (p : printer) :
  match command_redirs self arg1 O l p with
  | Ok k p' =>
      (k <= List.length l)%nat /\
      Forall (earlyRedirect arg1) (firstn k l) /\
      match nth_error l k with
      | Some r => arg1 < Redirect_pos r \/ isHeredoc (Redirect_Op r) = true
      | None => True
      end
  | _ => True
  end.
Proof.
  pose proof (command_redirs_prefix self arg1 l O p) as H.
  destruct (command_redirs self arg1 O l p) as [k p'| |]; auto.
  destruct H as (j & -> & H). exact H.
Qed.

(** ** Indentation levels, one step at a time *)

Lemma wrap_id z : in_int z -> wrap z = z.
Proof.
  unfold in_int, wrap. change (2 ^ 63) with 9223372036854775808.
  change (2 ^ 64) with 18446744073709551616. intros H.
  rewrite Z.mod_small by lia. lia.
Qed.

Lemma wrap_up_down z : in_int z -> wrap (wrap (z + 1) - 1) = z.
Proof.
  intros H. pose proof (wrap_cong (z + 1)) as [k Hk].
  pose proof (wrap_cong (wrap (z + 1) - 1)) as [k' Hk'].
  pose proof (wrap_in_int (wrap (z + 1) - 1)) as Hi.
  unfold in_int in *. change (2 ^ 63) with 9223372036854775808 in *.
  change (2 ^ 64) with 18446744073709551616 in *. lia.
Qed.

Lemma unsnoc_snoc {A} (l : list A) (x : A) : unsnoc (l ++ [x]) = Some (l, x).
Proof.
  induction l as [|y l IH]; simpl; [reflexivity|]. rewrite IH. reflexivity.
Qed.

Lemma printer_eta p :
  mkPrinter (w p) (f p) (c p) (err p) (nestedBinary p) (wantSpace p)
            (wantNewline p) (wantSpaces p) (curLine p) (lastLevel p)
            (level p) (levelIncs p) (comments p) (pendingHdocs p) = p.
Proof. destruct p. reflexivity. Qed.

(** X5: on an empty stack [decLevel] panics, and so does [incLevel] when
    the level is above the last one used; with the level at or below the
    last one used, [incLevel] followed by [decLevel] returns the state it
    started from. *)
Theorem incLevel_decLevel (p : printer) :
  in_int (level p) ->
  (levelIncs p = [] -> decLevel p = Panic) /\
  (levelIncs p = [] -> lastLevel p < level p -> incLevel p = Panic) /\
  (level p <= lastLevel p -> (incLevel ;; decLevel) p = Ok tt p).
Proof.
  intros Hin. split; [|split].
  - intros H. unfold decLevel, bind, gets. rewrite H. reflexivity.
  - intros H Hl. unfold incLevel, bind, gets.
    destruct (Z.leb_spec (level p) (lastLevel p)); [lia|].
    rewrite H. reflexivity.
  - intros Hl. unfold incLevel, decLevel, bind, gets, modify, ret, when.
    destruct (Z.leb_spec (level p) (lastLevel p)); [|lia].
    cbn [levelIncs set_levelIncs set_level].
    rewrite unsnoc_snoc. unfold set_levelIncs, set_level, add, sub. simpl.
    rewrite (wrap_up_down Hin). rewrite printer_eta. reflexivity.
Qed.

Lemma incLevel_decLevel_witness :
  (levelIncs fresh_buffer = [] -> decLevel fresh_buffer = Panic) /\
  (levelIncs fresh_buffer = [] -> lastLevel fresh_buffer < level fresh_buffer ->
   incLevel fresh_buffer = Panic) /\
  (level fresh_buffer <= lastLevel fresh_buffer ->
   (incLevel ;; decLevel) fresh_buffer = Ok tt fresh_buffer).
Proof.
  apply (incLevel_decLevel fresh_buffer). unfold in_int. simpl. lia.
Defined.

(** ** The operator tables *)

Lemma distinctOn_dec (table : Token -> string) (toks : list Token) :
  forallb (fun a => forallb (fun b =>
     implb (String.eqb (table a) (table b)) (Token_eqb a b)) toks) toks = true ->
  distinctOn table toks.
Proof.
  intros H a b Ha Hb E. rewrite forallb_forall in H.
  specialize (H a Ha). rewrite forallb_forall in H. specialize (H b Hb).
  rewrite E, String.eqb_refl in H. simpl in H. unfold Token_eqb in H.
  destruct (Token_eq_dec a b); [assumption|discriminate].
Qed.

(** X6: each operator table spells the token kinds it names in pairwise
    different ways, so the operator printed tells which token it was. *)
Theorem operator_tables_distinct :
  distinctOn redirectOp redirectTokens /\
  distinctOn binaryExprOp binaryExprTokens /\
  distinctOn unaryExprOp unaryExprTokens /\
  distinctOn expansionOp expansionTokens /\
  distinctOn binaryCmdOp binaryCmdTokens /\
  distinctOn caseClauseOp caseClauseTokens /\
  distinctOn quotedOp quoteTokens.
Proof. repeat split; apply distinctOn_dec; vm_compute; reflexivity. Qed.

(** ** Indentation text *)

(** X7: [indent] records the level as the last one used and writes, at a
    level other than zero, that many tabs when the configuration asks for
    tabs, or the configured number of spaces per level when it is above
    zero; at level zero, or with a negative number of spaces, it writes
    nothing. *)
Theorem indent_writes (p : printer) (t : string) :
  w p = BytesBuffer t ->
  exists p',
    indent p = Ok tt p' /\
    lastLevel p' = level p /\ level p' = level p /\
    levelIncs p' = levelIncs p /\ curLine p' = curLine p /\
    w p' = BytesBuffer
      (t ++ if level p =? 0 then ""
            else if Spaces (c p) =? 0
                 then repeat_byte tab_byte (Z.to_nat (level p))
                 else if Spaces (c p) >? 0
                      then repeat_byte space_byte
                             (Z.to_nat (mul (Spaces (c p)) (level p)))
                      else "").
Proof.
  intros Hw. destruct (indent_buffer p Hw) as (p' & E & Hw' & Hc & _ & Hl & Hi & Hll).
  exists p'. unfold indentText in Hw'. repeat split; auto.
Qed.

Lemma indent_writes_witness :
  exists p',
    indent (set_level 2 fresh_buffer) = Ok tt p' /\
    lastLevel p' = level (set_level 2 fresh_buffer) /\
    level p' = level (set_level 2 fresh_buffer) /\
    levelIncs p' = levelIncs (set_level 2 fresh_buffer) /\
    curLine p' = curLine (set_level 2 fresh_buffer) /\
    w p' = BytesBuffer
      ("" ++ if level (set_level 2 fresh_buffer) =? 0 then ""
            else if Spaces (c (set_level 2 fresh_buffer)) =? 0
                 then repeat_byte tab_byte
                        (Z.to_nat (level (set_level 2 fresh_buffer)))
                 else if Spaces (c (set_level 2 fresh_buffer)) >? 0
                      then repeat_byte space_byte
                             (Z.to_nat (mul (Spaces (c (set_level 2 fresh_buffer)))
                                            (level (set_level 2 fresh_buffer))))
                      else "").
Proof.
  apply (@indent_writes (set_level 2 fresh_buffer) ""). reflexivity.
Defined.

(** ** The measured width of a simple command *)

Lemma forM_lits_space (n : nat) (parts : list WordPart) : forall p t,
  forallb isLit parts = true ->
  w p = BytesBuffer t ->
  exists p', forM (wordPart_r (run (S n))) parts p = Ok tt p' /\
             w p' = BytesBuffer (t ++ fold_right append "" (map litValue parts)) /\
             same_layout p p' /\
             wantSpace p' = match parts with [] => wantSpace p | _ => true end.
Proof.
  induction parts as [|wp parts IH]; intros p t Hall Hw; simpl.
  - exists p. rewrite append_nil_r. auto using same_layout_refl.
  - simpl in Hall. apply andb_true_iff in Hall as [Hl Hall].
    destruct wp; try discriminate.
    cbn [run wordPart_r]. unfold wordPart at 1.
    destruct (str_plain (Value l) Hw) as (p1 & E & Hw1 & Hl1).
    rewrite (bind_Ok _ (a:=tt) (p':=set_wantSpace true p1)).
    2:{ rewrite (bind_Ok _ E). reflexivity. }
    destruct (IH (set_wantSpace true p1) _ Hall Hw1) as (p2 & E2 & Hw2 & Hl2 & Hs2).
    exists p2. split; [exact E2|]. split.
    + rewrite Hw2. simpl. rewrite append_assoc. reflexivity.
    + split.
      * eapply same_layout_trans; [exact Hl1|].
        eapply same_layout_trans; [apply set_wantSpace_layout|exact Hl2].
      * rewrite Hs2. destruct parts; reflexivity.
Qed.

Lemma wordJoin_loop_simple (n : nat) (nb : bool) (ws : list Word) : forall p t,
  onLine (f p) (curLine p) ws = true ->
  w p = BytesBuffer t ->
  forallb simpleWord ws = true ->
  exists p',
    foldM (fun (anyNewline : bool) wd =>
             cl <- gets curLine ;;
             wpos <- position (Word_pos wd) ;;
             anyNewline' <-
               (if (cl >? 0) && (Line wpos >? cl) then
                  (if nb then bslashNewl
                   else byte newline_byte ;;
                        modify (fun p => set_curLine (add (curLine p) 1) p)) ;;
                  any <- (if negb anyNewline then incLevel ;; ret true
                          else ret anyNewline) ;;
                  indent ;;
                  ret any
                else
                  sp <- gets wantSpace ;;
                  when sp space ;;
                  ret anyNewline) ;;
             forM (wordPart_r (run (S n))) (Word_Parts wd) ;;
             ret anyNewline') false ws p = Ok false p' /\
    w p' = BytesBuffer (t ++ joinFrom (wantSpace p) ws) /\
    same_layout p p' /\
    wantSpace p' = match ws with [] => wantSpace p | _ => true end.
Proof.
  induction ws as [|wd ws IH]; intros p t Hc Hw Hall.
  - exists p. simpl. rewrite append_nil_r. auto using same_layout_refl.
  - simpl in Hall. apply andb_true_iff in Hall as [Hwd Hall].
    simpl in Hc. apply andb_true_iff in Hc as [Hc0 Hc].
    apply negb_true_iff in Hc0.
    unfold simpleWord in Hwd.
    destruct (Word_Parts wd) as [|wp0 parts0] eqn:Ep; [discriminate|].
    cbn [foldM]. rewrite bind_assoc_gets.
    unfold position at 1. rewrite bind_assoc_gets. rewrite Hc0.
    assert (Hsp : exists p1,
      (sp <- gets wantSpace ;; when sp space ;; ret false) p = Ok false p1 /\
      w p1 = BytesBuffer (t ++ if wantSpace p then " " else "") /\
      same_layout p p1).
    { rewrite bind_gets. destruct (wantSpace p); cbn [when].
      - destruct (space_plain Hw) as (p1 & E1 & Hw1 & Hl1).
        rewrite (bind_Ok _ E1). exists p1. auto.
      - rewrite bind_ret. exists p. rewrite append_nil_r.
        auto using same_layout_refl. }
    destruct Hsp as (p1 & E1 & Hw1 & Hl1).
    rewrite Ep.
    destruct (@forM_lits_space n (wp0 :: parts0) p1 _ Hwd Hw1)
      as (p2 & E2 & Hw2 & Hl2 & Hs2).
    assert (Hc2 : onLine (f p2) (curLine p2) ws = true).
    { unfold same_layout in Hl1, Hl2.
      assert (f p2 = f p) as -> by intuition congruence.
      assert (curLine p2 = curLine p) as -> by intuition congruence.
      exact Hc. }
    destruct (IH p2 _ Hc2 Hw2 Hall) as (p3 & E3 & Hw3 & Hl3 & Hs3).
    exists p3. split.
    { rewrite (bind_Ok _ (a:=false) (p':=p2)); [exact E3|].
      rewrite (bind_Ok _ E1), (bind_Ok _ E2). reflexivity. }
    split.
    { rewrite Hw3, Hs2. cbn [joinFrom]. unfold wordText. rewrite Ep.
      rewrite !append_assoc. reflexivity. }
    split.
    { eapply same_layout_trans; [exact Hl1|].
      eapply same_layout_trans; [exact Hl2|exact Hl3]. }
    rewrite Hs3, Hs2. destruct ws; reflexivity.
Qed.

Lemma wordJoin_simple (n : nat) (nb : bool) (ws : list Word) p t :
  onLine (f p) (curLine p) ws = true ->
  w p = BytesBuffer t ->
  forallb simpleWord ws = true ->
  exists p',
    wordJoin (run (S n)) ws nb p = Ok tt p' /\
    w p' = BytesBuffer (t ++ joinFrom (wantSpace p) ws) /\
    same_layout p p' /\
    wantSpace p' = match ws with [] => wantSpace p | _ => true end.
Proof.
  intros Hc Hw Hall. unfold wordJoin.
  destruct (wordJoin_loop_simple n nb ws p Hc Hw Hall)
    as (p' & E & H).
  exists p'. split; [|exact H]. rewrite (bind_Ok _ E). reflexivity.
Qed.

Lemma joinFrom_app b ws1 ws2 :
  ws1 <> [] -> joinFrom b (ws1 ++ ws2) = joinFrom b ws1 ++ joinFrom true ws2.
Proof.
  revert b. induction ws1 as [|wd ws1 IH]; intros b Hne; [congruence|].
  simpl. destruct ws1 as [|wd' ws1'].
  - simpl. rewrite append_nil_r. rewrite !append_assoc. reflexivity.
  - rewrite IH by discriminate. rewrite !append_assoc. reflexivity.
Qed.

(** A simple command whose words are on the line being printed: the words,
    one space apart. *)
Lemma stmt_simpleCall (n : nat) (pos : Pos) (args : list Word) p t :
  onLine (f p) (curLine p) args = true ->
  w p = BytesBuffer t ->
  forallb simpleWord args = true ->
  exists p',
    stmt (run (S n)) (simpleCall pos args) p = Ok tt p' /\
    w p' = BytesBuffer (t ++ joinFrom (wantSpace p) args) /\
    same_layout p p' /\
    wantSpace p' = match args with [] => wantSpace p | _ => true end.
Proof.
  intros Hc Hw Hall. unfold stmt, simpleCall. cbn [when].
  rewrite bind_ret.
  change (assigns (run (S n)) []) with
    (anyNewline <- ret false ;; when anyNewline decLevel).
  rewrite (bind_Ok _ (a:=tt) (p':=p)) by reflexivity.
  unfold command.
  destruct args as [|a0 [|a1 more]].
  - destruct (wordJoin_simple n true [] p Hc Hw Hall) as (p' & E & Hw' & Hl & Hs).
    rewrite (bind_Ok _ (a:=O) (p':=p')).
    2:{ rewrite (bind_Ok _ E). reflexivity. }
    exists p'. split; [reflexivity|]. auto.
  - destruct (wordJoin_simple n true [a0] p Hc Hw Hall)
      as (p' & E & Hw' & Hl & Hs).
    rewrite (bind_Ok _ (a:=O) (p':=p')).
    2:{ rewrite (bind_Ok _ E). reflexivity. }
    exists p'. split; [reflexivity|]. auto.
  - simpl in Hall. apply andb_true_iff in Hall as [H0 Hall].
    simpl in Hc. apply andb_true_iff in Hc as [Hc0 Hc].
    assert (Hc0' : onLine (f p) (curLine p) [a0] = true).
    { simpl. rewrite Hc0. reflexivity. }
    assert (H0' : forallb simpleWord [a0] = true).
    { simpl. rewrite H0. reflexivity. }
    destruct (wordJoin_simple n true [a0] p Hc0' Hw H0')
      as (p1 & E1 & Hw1 & Hl1 & Hs1).
    assert (Hc1 : onLine (f p1) (curLine p1) (a1 :: more) = true).
    { unfold same_layout in Hl1.
      assert (f p1 = f p) as -> by tauto.
      assert (curLine p1 = curLine p) as -> by tauto. exact Hc. }
    destruct (wordJoin_simple n true (a1 :: more) p1 Hc1 Hw1 Hall)
      as (p2 & E2 & Hw2 & Hl2 & Hs2).
    rewrite (bind_Ok _ (a:=O) (p':=p2)).
    2:{ rewrite (bind_Ok _ E1). cbn [command_redirs]. rewrite bind_ret.
        rewrite (bind_Ok _ E2). reflexivity. }
    exists p2. split; [reflexivity|]. split.
    { rewrite Hw2, Hs1. change (a0 :: a1 :: more) with ([a0] ++ a1 :: more)%list.
      rewrite joinFrom_app by discriminate. rewrite append_assoc. reflexivity. }
    split; [eapply same_layout_trans; eauto|exact Hs2].
Qed.

Lemma stmtLen_call (n : nat) (pos : Pos) (args : list Word) (p : printer) :
  forallb simpleWord args = true ->
  stmtLen (run (S (S n))) (simpleCall pos args) p
    = Ok (len (joinFrom false args)) p.
Proof.
  intros Hall. unfold stmtLen.
  change (stmt_r (run (S (S n)))) with (stmt (run (S n))).
  set (p0 := new_printer (BytesBuffer "") (f p) (mkPrintConfig 0)).
  assert (Hc : onLine (f p0) (curLine p0) args = true).
  { unfold onLine. apply forallb_forall. intros wd _. reflexivity. }
  destruct (@stmt_simpleCall n pos args p0 "" Hc eq_refl Hall)
    as (p' & E & Hw & _).
  rewrite E. unfold Buffer_Len, Buffer_String. rewrite Hw. reflexivity.
Qed.

(** X8: the width [stmtLen] measures for a simple command, its words
    literal, is the length of the words joined by single spaces, whatever
    the positions of the words and the state of the printer that asks. *)
Theorem stmtLen_simpleCall (n : nat) (pos : Pos) (args : list Word)
        (p : printer) :
  forallb simpleWord args = true ->
  stmtLen (run (S (S n))) (simpleCall pos args) p
    = Ok (len (joinFrom false args)) p.
Proof. apply stmtLen_call. Qed.

Lemma stmtLen_simpleCall_witness :
  stmtLen (run 2) (simpleCall 101 (litWords 101 ["echo"; "foo"])) fresh_buffer
    = Ok (len (joinFrom false (litWords 101 ["echo"; "foo"]))) fresh_buffer.
Proof.
  apply (@stmtLen_simpleCall 0 101 (litWords 101 ["echo"; "foo"]) fresh_buffer).
  reflexivity.
Defined.

(** ** Separating from the line before *)

Lemma commentsUpTo_none (self : rec) (line : int) (p : printer) :
  comments p = [] -> commentsUpTo self line p = Ok tt p.
Proof. intros H. unfold commentsUpTo. rewrite bind_gets, H. reflexivity. Qed.

(** X9: with no comment pending and plain heredoc terminators in the queue,
    [didSeparate] breaks the line when a newline is wanted or the position
    is on a later line than the current one, which is not the first: it
    then writes a newline, the queued heredocs, one more newline if the
    position is more than a line further, and the indentation.  Otherwise
    it writes nothing.  It answers that it did separate in the first case
    and on the first line, and leaves the position's line as the current
    one. *)
Theorem didSeparate_text (n : nat) (pos : Position) (p : printer)
        (t : string) :
  comments p = [] ->
  plainHdocs (pendingHdocs p) = true ->
  w p = BytesBuffer t ->
  let sep := wantNewline p || ((curLine p >? 0) && (Line pos >? curLine p)) in
  exists p',
    didSeparate (run (S n)) pos p = Ok (sep || (curLine p =? 0)) p' /\
    curLine p' = Line pos /\
    w p' = BytesBuffer
             (t ++ if sep then
                     nl ++ drainText (pendingHdocs p)
                        ++ (if Line pos >?
                               add (drainLine (curLine p) (pendingHdocs p)) 1
                            then nl else "")
                        ++ indentText (c p) (level p)
                   else "").
Proof.
  intros Hc Hp Hw sep. unfold didSeparate.
  change (commentsUpTo_r (run (S n))) with (commentsUpTo (run n)).
  rewrite (bind_Ok _ (commentsUpTo_none (run n) (Line pos) p Hc)).
  rewrite !bind_gets. fold sep. destruct sep.
  - destruct (newlines_text n pos p Hp Hw) as (p' & E & Hw' & Hl & _).
    rewrite (bind_Ok _ E). exists p'. split; [reflexivity|]. auto.
  - cbn [orb]. destruct (curLine p =? 0);
      (eexists; split; [reflexivity|]; simpl; rewrite append_nil_r; auto).
Qed.

Lemma didSeparate_text_witness :
  exists p',
    didSeparate (run 1) (mkPosition 3 1) (set_curLine 1 fresh_buffer)
      = Ok true p' /\
    curLine p' = 3 /\
    w p' = BytesBuffer (nl ++ nl).
Proof.
  exact (@didSeparate_text 0 (mkPosition 3 1) (set_curLine 1 fresh_buffer) ""
           eq_refl eq_refl eq_refl).
Defined.

(** ** What [stmts] tells its caller *)

(** X10: [stmts] answers false exactly when the list is empty, where it
    leaves the printer as it was, or holds one statement that starts on
    the current line; when it answers true it has asked for a newline. *)
Theorem stmts_result (self : rec) (l : list Stmt) (p : printer) (b : bool)
        (p' : printer) :
  stmts self l p = Ok b p' ->
  b = negb (match l with
            | [] => true
            | [s] => Line (File_Position (f p) (Stmt_pos s)) =? curLine p
            | _ => false
            end) /\
  (l = [] -> p' = p) /\
  (b = true -> wantNewline p' = true).
Proof.
  intros H. destruct l as [|s r].
  - inversion H. subst. repeat split; auto. discriminate.
  - unfold stmts in H. unfold position in H. rewrite !bind_gets in H.
    destruct r as [|s2 r].
    + cbn [andb] in H.
      destruct (Line (File_Position (f p) (Stmt_pos s)) =? curLine p).
      * apply bind_inv in H as (? & q1 & _ & H).
        apply bind_inv in H as (? & q2 & _ & H).
        inversion H. subst. repeat split; try discriminate.
      * apply bind_inv in H as (? & q1 & _ & H).
        rewrite bind_modify in H. inversion H. subst.
        repeat split; try discriminate.
    + cbn [andb] in H.
      apply bind_inv in H as (? & q1 & _ & H).
      rewrite bind_modify in H. inversion H. subst.
      repeat split; try discriminate.
Qed.

Lemma stmts_result_witness :
  true = negb false /\
  ([callStmt 101 ["a"]; callStmt 201 ["b"]] = [] ->
   set_wantNewline true
     (set_wantSpace true
        (set_curLine 2
           (set_w (BytesBuffer ("a" ++ nl ++ "b")) fresh_buffer)))
   = fresh_buffer) /\
  (true = true ->
   wantNewline
     (set_wantNewline true
        (set_wantSpace true
           (set_curLine 2
              (set_w (BytesBuffer ("a" ++ nl ++ "b")) fresh_buffer))))
   = true).
Proof.
  apply (@stmts_result (run 2) [callStmt 101 ["a"]; callStmt 201 ["b"]]
           fresh_buffer true).
  vm_compute. reflexivity.
Defined.

(** ** Tokens and reserved words *)

(** X11: a reserved word is a token with a space wanted after it: [rsrv]
    does what [token] does with [spaceAfter] set, and [spacedRsrv] what
    [spacedTok] does, in every state and with every writer, although they
    write and set the flag in the opposite order. *)
Theorem rsrv_is_token (s : string) (p : printer) :
  rsrv s p = token s true p /\ spacedRsrv s p = spacedTok s true p.
Proof.
  assert (H : forall q, rsrv s q = token s true q).
  { intros q. unfold rsrv, token, str, bind, modify.
    destruct (WriteString s (w q)) eqn:E. cbn [w set_wantSpace].
    rewrite E. reflexivity. }
  split; [apply H|].
  unfold spacedRsrv, spacedTok. rewrite !bind_gets.
  unfold bind at 1 3. destruct (when (wantSpace p) space p) as [[] q| |];
    try reflexivity.
  apply (H q).
Qed.

(** ** Word parts *)

(** X12: whatever part [wordPart] printed, a space is wanted when it
    returns; so it is after [word] printed a word that has a part. *)
Theorem wordPart_wants_space (self : rec) (p p' : printer) :
  (forall wp, wordPart self wp p = Ok tt p' -> wantSpace p' = true) /\
  (forall n wd, Word_Parts wd <> [] ->
                word (run (S n)) wd p = Ok tt p' -> wantSpace p' = true).
Proof.
  assert (H1 : forall s wp q q', wordPart s wp q = Ok tt q' ->
                                 wantSpace q' = true).
  { intros s wp q q' H. unfold wordPart in H.
    apply bind_inv in H as (? & q1 & _ & H).
    apply modify_inv in H. subst q'. reflexivity. }
  split; [intros wp; apply H1|].
  intros n wd Hne. unfold word.
  change (wordPart_r (run (S n))) with (wordPart (run n)).
  revert p. induction (Word_Parts wd) as [|wp l IH]; [congruence|].
  intros p H. cbn [forM] in H.
  apply bind_inv in H as ([] & q & Hq & H).
  destruct l as [|wp2 l].
  - inversion H. subst. eapply H1, Hq.
  - eapply IH; [discriminate|exact H].
Qed.

(** ** Reserved words after a list of statements *)

Lemma indent_file p t p' :
  w p = BytesBuffer t -> indent p = Ok tt p' -> f p' = f p.
Proof.
  intros Hw. unfold indent. rewrite bind_modify, !bind_gets.
  cbn [set_lastLevel level c].
  destruct (level p =? 0).
  { intros H. inversion H. reflexivity. }
  destruct (Spaces (c p) =? 0).
  { unfold tabs. erewrite bind_Ok by (apply repeatM_byte_; exact Hw).
    intros H. inversion H. reflexivity. }
  destruct (Spaces (c p) >? 0).
  { unfold spaces. erewrite bind_Ok by (apply repeatM_byte_; exact Hw).
    intros H. inversion H. reflexivity. }
  intros H. inversion H. reflexivity.
Qed.

(** X13: [semiOrNewl] puts the word after a semicolon and a space on the
    line it is on, unless a newline is wanted: then, the queued heredocs
    having plain terminators, the word comes after the newline, the
    heredocs and the indentation.  A space is wanted after the word, and
    the line of its position is the current one. *)
Theorem semiOrNewl_text (n : nat) (s : string) (pos : Pos) (p : printer)
        (t : string) :
  plainHdocs (pendingHdocs p) = true ->
  w p = BytesBuffer t ->
  exists p',
    semiOrNewl (run (S n)) s pos p = Ok tt p' /\
    wantSpace p' = true /\
    curLine p' = Line (File_Position (f p) pos) /\
    w p' = BytesBuffer
             (t ++ (if wantNewline p then
                      nl ++ drainText (pendingHdocs p)
                         ++ indentText (c p) (level p)
                    else "; ") ++ s).
Proof.
  intros Hp Hw. unfold semiOrNewl. rewrite bind_gets.
  assert (H : exists p2,
    (if wantNewline p then newline (run (S n)) ;; indent else str "; ") p
      = Ok tt p2 /\ f p2 = f p /\
    w p2 = BytesBuffer
             (t ++ (if wantNewline p then
                      nl ++ drainText (pendingHdocs p)
                         ++ indentText (c p) (level p)
                    else "; "))).
  { destruct (wantNewline p).
    - destruct (newline_drain n p Hp Hw)
        as (p1 & E1 & Hw1 & _ & _ & _ & _ & Hl1).
      destruct (indent_buffer p1 Hw1) as (p2 & E2 & Hw2 & _).
      exists p2. unfold same_levels in Hl1. split.
      { rewrite (bind_Ok _ E1). exact E2. }
      split.
      { rewrite (@indent_file _ _ _ Hw1 E2). tauto. }
      rewrite Hw2.
      assert (c p1 = c p) as -> by tauto.
      assert (level p1 = level p) as -> by tauto.
      rewrite !append_assoc. reflexivity.
    - destruct (str_plain "; " Hw) as (p2 & E2 & Hw2 & Hl2).
      exists p2. unfold same_layout in Hl2. tauto. }
  destruct H as (p2 & E2 & Hf2 & Hw2).
  rewrite (bind_Ok _ E2).
  destruct (str_plain s Hw2) as (p3 & E3 & Hw3 & Hl3).
  rewrite (bind_Ok _ E3), bind_modify. unfold position.
  rewrite bind_gets. unfold modify. eexists. split; [reflexivity|].
  cbn [wantSpace curLine w set_curLine set_wantSpace f].
  unfold same_layout in Hl3. destruct Hl3 as (-> & _).
  rewrite Hf2, Hw3, append_assoc. auto.
Qed.

Lemma semiOrNewl_text_witness :
  exists p',
    semiOrNewl (run 1) "then" 205 (set_wantNewline true fresh_buffer)
      = Ok tt p' /\
    wantSpace p' = true /\
    curLine p' = 2 /\
    w p' = BytesBuffer (nl ++ "then").
Proof.
  exact (@semiOrNewl_text 0 "then" 205 (set_wantNewline true fresh_buffer) ""
           eq_refl eq_refl).
Defined.

(** ** The printer only appends *)

Lemma param_stmt_pre n x st :
  rel (Rw_pre x) any_err false (stmt (run n) st) (stmt (run n) st).
Proof.
  destruct (@run_param (Rw_pre x) any_err
              (@Rw_pre_byte x) (@Rw_pre_str x) n) as (Hw & Hs & Ha & Hc).
  apply rel_stmt; auto using Rw_pre_byte, Rw_pre_str;
    try (intros; apply fresh_refl).
Qed.

(** X14: printing into a buffer never takes back or rewrites what the
    buffer holds: when [stmt] returns, the text of the buffer is the text
    it had at the call, with what the statement printed after it. *)
Theorem stmt_appends (n : nat) (st : Stmt) (p : printer) (x : string)
        (p' : printer) :
  w p = BytesBuffer x ->
  stmt (run n) st p = Ok tt p' ->
  exists y, w p' = BytesBuffer (x ++ y).
Proof. apply appends_only, param_stmt_pre. Qed.

Lemma stmt_appends_witness :
  exists p' y,
    stmt (run 1) (callStmt 101 ["a"]) (set_w (BytesBuffer "x") fresh_buffer)
      = Ok tt p' /\
    w p' = BytesBuffer ("x" ++ y).
Proof.
  assert (E : exists p',
    stmt (run 1) (callStmt 101 ["a"]) (set_w (BytesBuffer "x") fresh_buffer)
      = Ok tt p') by (vm_compute; eexists; reflexivity).
  destruct E as [p' E]. exists p'.
  destruct (@stmt_appends 1 (callStmt 101 ["a"])
              (set_w (BytesBuffer "x") fresh_buffer) "x" p' eq_refl E)
    as [y Hy].
  exists y. split; assumption.
Defined.

(** ** A parenthesis after a parenthesis *)

Lemma spacedTok_plain s b p t :
  w p = BytesBuffer t ->
  exists p', spacedTok s b p = Ok tt p' /\
             w p' = BytesBuffer (t ++ (if wantSpace p then " " else "") ++ s).
Proof.
  intros Hw. unfold spacedTok. rewrite bind_gets.
  destruct (wantSpace p); cbn [when].
  - destruct (space_plain Hw) as (p1 & E1 & Hw1 & _).
    rewrite (bind_Ok _ E1), bind_modify.
    assert (Hw1' : w (set_wantSpace b p1) = BytesBuffer (t ++ " ")) by exact Hw1.
    destruct (str_plain s Hw1') as (p2 & E2 & Hw2 & _).
    exists p2. split; [exact E2|]. rewrite Hw2, append_assoc. reflexivity.
  - rewrite bind_ret, bind_modify.
    assert (Hw1' : w (set_wantSpace b p) = BytesBuffer t) by exact Hw.
    destruct (str_plain s Hw1') as (p2 & E2 & Hw2 & _).
    exists p2. split; [exact E2|]. exact Hw2.
Qed.

Lemma nested_close_pre n x sts right_ (b : bool) :
  let m := (_ <- nestedStmts (run n) sts ;;
            rp <- position right_ ;;
            if b then modify (set_wantSpace false) ;; sepTok (run n) "`" rp
            else sepTok (run n) ")" rp) in
  rel (Rw_pre x) any_err false m m.
Proof.
  destruct (@run_param (Rw_pre x) any_err
              (@Rw_pre_byte x) (@Rw_pre_str x) n) as (Hw & Hs & Ha & Hc).
  intros m. unfold m. apply rel_bind.
  { apply rel_nestedStmts; auto using Rw_pre_byte, Rw_pre_str;
      try (intros; apply fresh_refl). }
  intros _. apply rel_bind.
  { apply rel_gets. intros p1 p2 H. unfold Rp in H.
    assert (f p1 = f p2) as -> by tauto. reflexivity. }
  intros rp. destruct b.
  - apply rel_bind.
    { apply rel_modify. intros p1 p2 H. unfold Rp in *. simpl. tauto. }
    intros _. apply rel_sepTok; auto using Rw_pre_byte, Rw_pre_str.
  - apply rel_sepTok; auto using Rw_pre_byte, Rw_pre_str.
Qed.


(** ** Comments are printed in order *)

Lemma consumed_refl p : consumed p p.
Proof. unfold consumed. repeat split. exists O. reflexivity. Qed.

Lemma consumed_trans p q r : consumed p q -> consumed q r -> consumed p r.
Proof.
  intros (Hf & Hc & k & Hk) (Hf' & Hc' & k' & Hk'). unfold consumed.
  split; [congruence|]. split; [congruence|].
  exists (k' + k)%nat. rewrite Hk', Hk. apply skipn_skipn.
Qed.

Lemma consumed_keep p q :
  f q = f p -> c q = c p -> comments q = comments p -> consumed p q.
Proof.
  intros Hf Hc Hk. unfold consumed. repeat split; auto. exists O. exact Hk.
Qed.

Lemma inv_ret {A} (a : A) : sat consumed (ret a).
Proof. intros p. apply consumed_refl. Qed.

Lemma inv_gets {A} (g : printer -> A) : sat consumed (gets g).
Proof. intros p. apply consumed_refl. Qed.

Lemma inv_bind {A B} (m : M A) (k : A -> M B) :
  sat consumed m -> (forall x, sat consumed (k x)) -> sat consumed (bind m k).
Proof.
  intros Hm Hk p. unfold bind. specialize (Hm p).
  destruct (m p) as [x q| |]; auto. specialize (Hk x q).
  destruct (k x q) as [y r| |]; auto.
  eapply consumed_trans; eauto.
Qed.

Lemma inv_modify (g : printer -> printer) :
  (forall p, f (g p) = f p /\ c (g p) = c p /\ comments (g p) = comments p) ->
  sat consumed (modify g).
Proof.
  intros H p. simpl. destruct (H p) as (Hf & Hc & Hk).
  apply consumed_keep; assumption.
Qed.

Lemma inv_byte x : sat consumed (byte x).
Proof. apply inv_modify. intros p. destruct (WriteByte x (w p)). auto. Qed.

Lemma inv_byte_ x : sat consumed (byte_ x).
Proof. apply inv_modify. intros p. auto. Qed.

Lemma inv_str s : sat consumed (str s).
Proof. apply inv_modify. intros p. destruct (WriteString s (w p)). auto. Qed.

Lemma inv_when (b : bool) (m : M unit) :
  sat consumed m -> sat consumed (when b m).
Proof. destruct b; simpl; auto using inv_ret. Qed.

Lemma inv_forM {A} (body : A -> M unit) (l : list A) :
  (forall x, sat consumed (body x)) -> sat consumed (forM body l).
Proof.
  intros Hb. induction l; simpl; [apply inv_ret|]. apply inv_bind; auto.
Qed.

Lemma inv_foldM {A S} (body : S -> A -> M S) (l : list A) :
  (forall s x, sat consumed (body s x)) ->
  forall s, sat consumed (foldM body s l).
Proof.
  intros Hb. induction l; simpl; intros s; [apply inv_ret|].
  apply inv_bind; auto.
Qed.

Lemma inv_repeatM (n : nat) (m : M unit) :
  sat consumed m -> sat consumed (repeatM n m).
Proof.
  intros Hm. induction n; simpl; [apply inv_ret|]. apply inv_bind; auto.
Qed.

(** The comment that was printed leaves the backlog. *)
Lemma inv_pop {B} (k : unit -> M B) :
  (forall x, sat consumed (k x)) ->
  sat consumed
      (cs' <- gets comments ;;
       match cs' with
       | [] => panic
       | _ :: rest => modify (set_comments rest)
       end ;;
       k tt).
Proof.
  intros Hk p. unfold bind, gets, modify, panic.
  destruct (comments p) as [|c0 rest] eqn:E; [exact I|].
  specialize (Hk tt (set_comments rest p)).
  destruct (k tt (set_comments rest p)) as [y r| |]; auto.
  eapply consumed_trans; [|exact Hk].
  unfold consumed. simpl. repeat split. exists 1%nat. rewrite E. reflexivity.
Qed.

Create HintDb inv.

#[export] Hint Resolve inv_ret sat_panic inv_gets inv_byte inv_byte_ inv_str
  : inv.

Ltac inv_keep := intros ?; simpl; repeat split; reflexivity.

Ltac inv_step :=
  cbv beta zeta;
  lazymatch goal with
  | |- sat consumed (bind _ _) => apply inv_bind; [|intros ?]
  | |- sat consumed (ret _) => apply inv_ret
  | |- sat _ panic => apply sat_panic
  | |- sat consumed (gets _) => apply inv_gets
  | |- sat consumed (position _) => apply inv_gets
  | |- sat consumed (hasInline _) => apply inv_gets
  | |- sat consumed (byte _) => apply inv_byte
  | |- sat consumed (byte_ _) => apply inv_byte_
  | |- sat consumed (str _) => apply inv_str
  | |- sat consumed (modify _) => apply inv_modify; inv_keep
  | |- sat consumed (when _ _) => apply inv_when
  | |- sat consumed (forM _ _) => apply inv_forM; intros ?
  | |- sat consumed (foldM _ _ _) => apply inv_foldM; intros ? ?
  | |- sat consumed (repeatM _ _) => apply inv_repeatM
  | |- sat _ (if ?b then _ else _) => destruct b
  | |- sat _ (match ?x with _ => _ end) => destruct x
  | |- sat _ (let '(_, _) := ?x in _) => destruct x
  | |- _ => solve [eauto with inv]
  end.

Ltac inv_auto := repeat inv_step.

Lemma inv_space : sat consumed space.
Proof. unfold space. inv_auto. Qed.
Lemma inv_spaces n : sat consumed (spaces n).
Proof. unfold spaces. inv_auto. Qed.
Lemma inv_tabs n : sat consumed (tabs n).
Proof. unfold tabs. inv_auto. Qed.
Lemma inv_bslashNewl : sat consumed bslashNewl.
Proof. unfold bslashNewl. inv_auto. Qed.
Lemma inv_token s b : sat consumed (token s b).
Proof. unfold token. inv_auto. Qed.
Lemma inv_rsrv s : sat consumed (rsrv s).
Proof. unfold rsrv. inv_auto. Qed.
#[export] Hint Resolve inv_space inv_spaces inv_tabs inv_bslashNewl inv_token
  inv_rsrv : inv.
Lemma inv_spacedRsrv s : sat consumed (spacedRsrv s).
Proof. unfold spacedRsrv. inv_auto. Qed.
Lemma inv_spacedTok s b : sat consumed (spacedTok s b).
Proof. unfold spacedTok. inv_auto. Qed.
Lemma inv_indent : sat consumed indent.
Proof. unfold indent. inv_auto. Qed.
Lemma inv_incLevel : sat consumed incLevel.
Proof. unfold incLevel. inv_auto. Qed.
Lemma inv_decLevel : sat consumed decLevel.
Proof. unfold decLevel. inv_auto. Qed.
#[export] Hint Resolve inv_spacedRsrv inv_spacedTok inv_indent inv_incLevel
  inv_decLevel : inv.

Section Backlog.

Variable self : rec.

Hypothesis Hs : consumed_rec self.

Lemma Hs_wordPart wp : sat consumed (wordPart_r self wp).
Proof. apply Hs. Qed.
Lemma Hs_stmt st : sat consumed (stmt_r self st).
Proof. apply Hs. Qed.
Lemma Hs_arithm e b : sat consumed (arithm_r self e b).
Proof. apply Hs. Qed.
Lemma Hs_commentsUpTo l : sat consumed (commentsUpTo_r self l).
Proof. apply Hs. Qed.

Lemma inv_stmtLen st : sat consumed (stmtLen self st).
Proof.
  intros p. unfold stmtLen. destruct (stmt_r self st _); auto.
  apply consumed_refl.
Qed.

#[local] Hint Resolve Hs_wordPart Hs_stmt Hs_arithm Hs_commentsUpTo
  inv_stmtLen : inv.

Lemma inv_unquotedWord wd : sat consumed (unquotedWord self wd).
Proof. unfold unquotedWord. inv_auto. Qed.
#[local] Hint Resolve inv_unquotedWord : inv.

Lemma inv_newline : sat consumed (newline self).
Proof. unfold newline. inv_auto. Qed.
#[local] Hint Resolve inv_newline : inv.

Lemma inv_newlines pos : sat consumed (newlines self pos).
Proof. unfold newlines. inv_auto. Qed.
#[local] Hint Resolve inv_newlines : inv.

Lemma inv_alwaysSeparate pos : sat consumed (alwaysSeparate self pos).
Proof. unfold alwaysSeparate. inv_auto. Qed.

Lemma inv_didSeparate pos : sat consumed (didSeparate self pos).
Proof. unfold didSeparate. inv_auto. Qed.
#[local] Hint Resolve inv_alwaysSeparate inv_didSeparate : inv.

Lemma inv_semiOrNewl s pos : sat consumed (semiOrNewl self s pos).
Proof. unfold semiOrNewl. inv_auto. Qed.

Lemma inv_sepTok s pos : sat consumed (sepTok self s pos).
Proof. unfold sepTok. inv_auto. Qed.

Lemma inv_semiRsrv s pos b : sat consumed (semiRsrv self s pos b).
Proof. unfold semiRsrv. inv_auto. Qed.
#[local] Hint Resolve inv_semiOrNewl inv_sepTok inv_semiRsrv : inv.

Lemma inv_commentsUpTo l : sat consumed (commentsUpTo self l).
Proof.
  unfold commentsUpTo.
  apply inv_bind; [apply inv_gets|intros cs]. destruct cs as [|c0 rest];
    [apply inv_ret|].
  apply inv_bind; [apply inv_gets|intros cpos].
  destruct ((l >? 0) && (Line cpos >=? l)); [apply inv_ret|].
  apply inv_bind; [inv_auto|intros _].
  apply inv_bind; [inv_auto|intros sep].
  apply inv_bind; [inv_auto|intros _].
  apply inv_bind; [inv_auto|intros _].
  apply inv_bind; [inv_auto|intros _].
  apply (@inv_pop _ (fun _ => commentsUpTo_r self l)).
  intros _. apply Hs_commentsUpTo.
Qed.

Lemma inv_word wd : sat consumed (word self wd).
Proof. unfold word. inv_auto. Qed.

Lemma inv_spacedWord wd : sat consumed (spacedWord self wd).
Proof. unfold spacedWord. inv_auto. Qed.
#[local] Hint Resolve inv_word inv_spacedWord : inv.

Lemma inv_wordJoin ws b : sat consumed (wordJoin self ws b).
Proof. unfold wordJoin. inv_auto. Qed.
#[local] Hint Resolve inv_wordJoin : inv.

Lemma inv_stmts_scan l : forall a b, sat consumed (stmts_scan self a b l).
Proof. induction l; intros; simpl; inv_auto. Qed.
#[local] Hint Resolve inv_stmts_scan : inv.

Lemma inv_stmts_loop l : forall a b, sat consumed (stmts_loop self a b l).
Proof. induction l; intros; simpl; inv_auto. Qed.
#[local] Hint Resolve inv_stmts_loop : inv.

Lemma inv_stmts l : sat consumed (stmts self l).
Proof. unfold stmts. inv_auto. Qed.
#[local] Hint Resolve inv_stmts : inv.

Lemma inv_nestedStmts l : sat consumed (nestedStmts self l).
Proof. unfold nestedStmts. inv_auto. Qed.
#[local] Hint Resolve inv_nestedStmts : inv.

Lemma inv_wordPart wp : sat consumed (wordPart self wp).
Proof. unfold wordPart. inv_auto. Qed.

Lemma inv_cond cd : sat consumed (cond self cd).
Proof. unfold cond. inv_auto. Qed.

Lemma inv_loop lp : sat consumed (loop self lp).
Proof. unfold loop. inv_auto. Qed.

Lemma inv_arithm e b : sat consumed (arithm self e b).
Proof. unfold arithm. inv_auto. Qed.
#[local] Hint Resolve inv_cond inv_loop : inv.

Lemma inv_assigns l : sat consumed (assigns self l).
Proof. unfold assigns. inv_auto. Qed.
#[local] Hint Resolve inv_assigns : inv.

Lemma inv_command_redirs a l : forall k,
  sat consumed (command_redirs self a k l).
Proof. induction l; intros; simpl; inv_auto. Qed.
#[local] Hint Resolve inv_command_redirs : inv.

Lemma inv_command cmd rs : sat consumed (command self cmd rs).
Proof. unfold command. inv_auto. Qed.
#[local] Hint Resolve inv_command : inv.

Lemma inv_stmt_redir any r : sat consumed (stmt_redir self any r).
Proof. unfold stmt_redir. inv_auto. Qed.
#[local] Hint Resolve inv_stmt_redir : inv.

Lemma inv_stmt st : sat consumed (stmt self st).
Proof. unfold stmt. inv_auto. Qed.

End Backlog.

Lemma run_consumed (n : nat) : consumed_rec (run n).
Proof.
  induction n as [|n IH].
  - repeat split; intros; intros p; exact I.
  - repeat split; intros; cbn [run wordPart_r stmt_r arithm_r commentsUpTo_r].
    + apply inv_wordPart, IH.
    + apply inv_stmt, IH.
    + apply inv_arithm, IH.
    + apply inv_commentsUpTo, IH.
Qed.

Lemma finish_backlog p e p' :
  finish p = Ok e p' ->
  comments p' = comments p /\ f p' = f p /\ c p' = c p.
Proof.
  unfold finish, bind, gets, modify. destruct (err p); simpl.
  - intros H. inversion H. auto.
  - destruct (w p) as [|b]; [intros H; inversion H; auto|].
    destruct (bufio.Flush b). intros H. inversion H. auto.
Qed.

Lemma traversal_backlog n fl p p' :
  traversal n fl p = Ok tt p' ->
  comments p' = [] /\ f p' = f p /\ c p' = c p.
Proof.
  unfold traversal. rewrite bind_modify. intros H.
  pose proof (run_consumed n) as Hr.
  apply bind_inv in H as (sep & q1 & H1 & H).
  apply bind_inv in H as ([] & q2 & H2 & H3).
  pose proof (inv_stmts Hr (File_Stmts fl)
                (set_comments (File_Comments fl) p)) as I1.
  rewrite H1 in I1.
  pose proof (inv_commentsUpTo Hr 0 q1) as I2. rewrite H2 in I2.
  pose proof (inv_newline Hr q2) as I3. rewrite H3 in I3.
  pose proof (commentsUpTo_head n 0 q1) as I4. rewrite H2 in I4.
  destruct I1 as (F1 & C1 & _), I2 as (F2 & C2 & _), I3 as (F3 & C3 & k & K3).
  split; [|split; [rewrite F3, F2, F1|rewrite C3, C2, C1]; reflexivity].
  destruct I4 as [E|[E _]]; [|lia].
  rewrite K3, E. destruct k; reflexivity.
Qed.

(** X16: no function of the printer puts a comment back, and none changes
    the file or the configuration: when a word part, a statement, an
    arithmetic expression, the comments up to a line or a list of
    statements has been printed, the comments still pending are the last of
    those that were pending before.  When [Fprint] returns, no comment is
    pending. *)
Theorem comments_in_order (n : nat) :
  consumed_rec (run n) /\
  (forall l, sat consumed (stmts (run n) l)) /\
  (forall cfg sink fl,
      match Fprint n cfg sink fl with
      | Ok e p => comments p = [] /\ f p = fl /\ c p = cfg
      | _ => True
      end).
Proof.
  split; [apply run_consumed|]. split.
  - intros l. apply inv_stmts, run_consumed.
  - intros cfg sink fl.
    destruct (Fprint n cfg sink fl) as [e p| |] eqn:E; auto.
    rewrite Fprint_unfold in E.
    apply bind_inv in E as ([] & q & Ht & H).
    apply traversal_backlog in Ht as (K & F & C).
    apply finish_backlog in H as (-> & -> & ->).
    rewrite K, F, C. auto.
Qed.

(** ** Words with their quotes *)

Lemma quoted_lits (n : nat) (parts : list WordPart) : forall p t,
  forallb isLit parts = true ->
  w p = BytesBuffer t ->
  exists p',
    forM (fun x =>
            wordPart_r (run (S n)) x ;;
            ps <- position (WordPart_End x) ;;
            modify (set_curLine (Line ps))) parts p = Ok tt p' /\
    w p' = BytesBuffer (t ++ fold_right append "" (map litValue parts)) /\
    f p' = f p.
Proof.
  induction parts as [|wp parts IH]; intros p t Hall Hw; simpl.
  - exists p. rewrite append_nil_r. auto.
  - simpl in Hall. apply andb_true_iff in Hall as [Hl Hall].
    destruct wp; try discriminate.
    destruct (wordPart_lit (run n) End l Hw) as (p1 & E & Hw1 & Hl1).
    change (wordPart_r (run (S n))) with (wordPart (run n)).
    rewrite (bind_Ok _ (a:=tt) (p':=set_curLine (Line (File_Position (f p1) End)) p1)).
    2:{ rewrite (bind_Ok _ E). reflexivity. }
    destruct (IH (set_curLine (Line (File_Position (f p1) End)) p1) _ Hall Hw1)
      as (p2 & E2 & Hw2 & Hf2).
    exists p2. split; [exact E2|]. split.
    + rewrite Hw2. simpl. rewrite append_assoc. reflexivity.
    + rewrite Hf2. simpl. unfold same_layout in Hl1. tauto.
Qed.

Lemma wordPart_flat (n : nat) (wp : WordPart) p t :
  flatPart wp = true ->
  w p = BytesBuffer t ->
  exists p',
    wordPart (run (S n)) wp p = Ok tt p' /\
    w p' = BytesBuffer (t ++ partText wp) /\ f p' = f p.
Proof.
  intros Hf Hw. destruct wp as [e x|e v|e q parts| | | | |]; try discriminate.
  - destruct (wordPart_lit (run (S n)) e x Hw) as (p1 & E & Hw1 & Hl1).
    exists p1. unfold same_layout in Hl1. tauto.
  - unfold wordPart.
    destruct (byte_plain "'" Hw) as (p1 & E1 & Hw1 & Hl1).
    destruct (str_plain v Hw1) as (p2 & E2 & Hw2 & Hl2).
    rewrite (bind_Ok _ (a:=tt)
               (p':=set_err None
                      (set_w (BytesBuffer (((t ++ "'") ++ v) ++ "'"))
                         (set_curLine (add (curLine p2) (strings_Count_nl v))
                                      p2)))).
    2:{ rewrite (bind_Ok _ E1), (bind_Ok _ E2), bind_modify.
        apply byte_buffer. exact Hw2. }
    unfold modify. eexists. split; [reflexivity|]. simpl.
    unfold same_layout in Hl1, Hl2. split; [|intuition congruence].
    rewrite !append_assoc. reflexivity.
  - unfold wordPart. simpl in Hf.
    destruct (str_plain (quotedOp q) Hw) as (p1 & E1 & Hw1 & Hl1).
    destruct (quoted_lits n parts p1 Hf Hw1) as (p2 & E2 & Hw2 & Hf2).
    destruct (str_plain (quotedOp (quotedStop q)) Hw2) as (p3 & E3 & Hw3 & Hl3).
    rewrite (bind_Ok _ (a:=tt) (p':=p3)).
    2:{ rewrite (bind_Ok _ E1), (bind_Ok _ E2). exact E3. }
    unfold modify. eexists. split; [reflexivity|]. simpl.
    unfold same_layout in Hl1, Hl3. split; [|intuition congruence].
    rewrite Hw3. unfold partText. rewrite !append_assoc. reflexivity.
Qed.

Lemma word_flat (n : nat) (parts : list WordPart) : forall p t,
  forallb flatPart parts = true ->
  w p = BytesBuffer t ->
  exists p',
    forM (wordPart_r (run (S (S n)))) parts p = Ok tt p' /\
    w p' = BytesBuffer (t ++ fold_right append "" (map partText parts)).
Proof.
  induction parts as [|wp parts IH]; intros p t Hall Hw; simpl.
  - exists p. rewrite append_nil_r. auto.
  - simpl in Hall. apply andb_true_iff in Hall as [Hl Hall].
    destruct (wordPart_flat n wp p Hl Hw) as (p1 & E & Hw1 & _).
    change (wordPart_r (run (S (S n)))) with (wordPart (run (S n))).
    rewrite (bind_Ok _ E).
    destruct (IH p1 _ Hall Hw1) as (p2 & E2 & Hw2).
    exists p2. split; [exact E2|]. rewrite Hw2, append_assoc. reflexivity.
Qed.

(** X17: [wordStr] gives a word of literals, single-quoted strings and
    quoted strings of literals as it is written: each literal as it is,
    each quoted part between the opening and the closing of its kind of
    quote. *)
Theorem wordStr_flat (n : nat) (fl : File) (wd : Word) :
  forallb flatPart (Word_Parts wd) = true ->
  exists q,
    wordStr (run (S (S n))) fl wd
      = Ok (fold_right append "" (map partText (Word_Parts wd))) q.
Proof.
  intros Hall. unfold wordStr, word.
  destruct (@word_flat n (Word_Parts wd)
              (new_printer (BytesBuffer "") fl (mkPrintConfig 0)) ""
              Hall eq_refl) as (p' & E & Hw).
  rewrite E. exists p'. unfold Buffer_String. rewrite Hw. reflexivity.
Qed.

Lemma wordStr_flat_witness :
  exists q,
    wordStr (run 2) empty_file
      (mkWord 101 [LitPart 103 (mkLit "a="); SglQuoted 106 "b";
                   Quoted 109 DQUOTE [LitPart 108 (mkLit "c")]])
      = Ok ("a=" ++ ("'" ++ "b" ++ "'")
              ++ (quotedOp DQUOTE ++ "c" ++ quotedOp (quotedStop DQUOTE))) q.
Proof.
  exact (@wordStr_flat 0 empty_file
           (mkWord 101 [LitPart 103 (mkLit "a="); SglQuoted 106 "b";
                        Quoted 109 DQUOTE [LitPart 108 (mkLit "c")]])
           eq_refl).
Defined.

(** ** Where a comment is put *)

Ltac fields :=
  cbn [w f c err nestedBinary wantSpace wantNewline wantSpaces curLine
       lastLevel level levelIncs comments pendingHdocs
       set_w set_err set_nestedBinary set_wantSpace set_wantNewline
       set_wantSpaces set_curLine set_lastLevel set_level set_levelIncs
       set_comments set_pendingHdocs].

Lemma same_page_refl p : same_page p p.
Proof. unfold same_page. tauto. Qed.

Lemma same_page_trans p q r : same_page p q -> same_page q r -> same_page p r.
Proof. unfold same_page. intuition congruence. Qed.

Lemma layout_page p q : same_layout p q -> same_page p q.
Proof. unfold same_layout, same_page. tauto. Qed.

Lemma indent_exact p t :
  w p = BytesBuffer t ->
  exists ws,
    indent p = Ok tt (set_wantSpace ws
                        (set_w (BytesBuffer (t ++ indentText (c p) (level p)))
                               (set_lastLevel (level p) p))) /\
    (wantSpace p = false -> ws = false).
Proof.
  intros Hw. unfold indent, indentText. rewrite bind_modify, !bind_gets.
  cbn [set_lastLevel level c].
  assert (Hsame : set_wantSpace (wantSpace p)
                    (set_w (BytesBuffer (t ++ ""))
                           (set_lastLevel (level p) p))
                  = set_lastLevel (level p) p).
  { rewrite append_nil_r. destruct p; simpl in *; subst; reflexivity. }
  destruct (level p =? 0).
  { exists (wantSpace p). rewrite Hsame. auto. }
  destruct (Spaces (c p) =? 0).
  { exists false. split; [|auto]. unfold tabs.
    erewrite bind_Ok by (apply repeatM_byte_; exact Hw). reflexivity. }
  destruct (Spaces (c p) >? 0).
  { exists false. split; [|auto]. unfold spaces.
    erewrite bind_Ok by (apply repeatM_byte_; exact Hw). reflexivity. }
  exists (wantSpace p). rewrite Hsame. auto.
Qed.

(** [newlines], with what it leaves alone. *)
Lemma newlines_page (n : nat) (pos : Position) p t :
  plainHdocs (pendingHdocs p) = true ->
  w p = BytesBuffer t ->
  exists p',
    newlines (run (S n)) pos p = Ok tt p' /\
    w p' = BytesBuffer
             (t ++ nl ++ drainText (pendingHdocs p)
                ++ (if Line pos >? add (drainLine (curLine p) (pendingHdocs p)) 1
                    then nl else "")
                ++ indentText (c p) (level p)) /\
    curLine p' = Line pos /\ pendingHdocs p' = [] /\
    wantSpace p' = false /\ wantNewline p' = false /\
    f p' = f p /\ c p' = c p /\ nestedBinary p' = nestedBinary p /\
    wantSpaces p' = wantSpaces p /\ level p' = level p /\
    levelIncs p' = levelIncs p /\ comments p' = comments p.
Proof.
  intros Hp Hw. unfold newlines.
  destruct (newline_drain n p Hp Hw)
    as (p1 & E1 & Hw1 & Hc1 & Hq1 & Hn1 & Hs1 & Hl1).
  rewrite (bind_Ok _ E1), bind_gets, Hc1.
  set (b := Line pos >? add (drainLine (curLine p) (pendingHdocs p)) 1).
  assert (H2 : exists p2,
    when b (byte newline_byte) p1 = Ok tt p2 /\
    w p2 = BytesBuffer ((t ++ nl ++ drainText (pendingHdocs p))
                          ++ if b then nl else "") /\
    same_layout p1 p2 /\ wantSpace p2 = wantSpace p1).
  { destruct b; cbn [when].
    - rewrite (byte_buffer newline_byte Hw1). eexists. split; [reflexivity|].
      fields. unfold same_layout. fields. tauto.
    - exists p1. rewrite append_nil_r. auto using same_layout_refl. }
  destruct H2 as (p2 & E2 & Hw2 & Hl2 & Hs2).
  rewrite (bind_Ok _ E2).
  destruct (indent_exact p2 Hw2) as (ws & E3 & Hws).
  rewrite (bind_Ok _ E3). unfold modify. eexists. split; [reflexivity|].
  fields. unfold same_levels in Hl1. unfold same_layout in Hl2.
  assert (ws = false) as -> by (apply Hws; congruence).
  assert (c p2 = c p) as -> by intuition congruence.
  assert (level p2 = level p) as -> by intuition congruence.
  split; [rewrite !append_assoc; reflexivity|].
  repeat split; try reflexivity; intuition congruence.
Qed.

Lemma commentsUpTo_notDue (self : rec) (line : int) (p : printer) :
  notDue (f p) line (comments p) = true ->
  commentsUpTo self line p = Ok tt p.
Proof.
  unfold notDue, commentsUpTo. rewrite bind_gets.
  destruct (comments p) as [|c1 rest]; [reflexivity|].
  unfold position. rewrite bind_gets. unfold commentLine.
  intros ->. reflexivity.
Qed.

(** The first pending comment, printed. *)
Lemma comment_placed (n : nat) (line : int) (p : printer) (t : string)
      (c0 : Comment) (rest : list Comment) :
  comments p = c0 :: rest ->
  0 < commentLine (f p) c0 ->
  (line >? 0) && (commentLine (f p) c0 >=? line) = false ->
  notDue (f p) line rest = true ->
  plainHdocs (pendingHdocs p) = true ->
  w p = BytesBuffer t ->
  exists p',
    commentsUpTo (run (S n)) line p = Ok tt p' /\
    w p' = BytesBuffer
             (t ++ commentLead p (commentLine (f p) c0) ++ "#" ++ Text c0) /\
    comments p' = rest /\
    curLine p' = commentLine (f p) c0 /\
    wantNewline p' = false /\
    (curLine p <> 0 -> wantSpace p' = false) /\
    ((curLine p >? 0) && (commentLine (f p) c0 >? curLine p) = false ->
     pendingHdocs p' = pendingHdocs p) /\
    f p' = f p /\ c p' = c p /\ nestedBinary p' = nestedBinary p /\
    wantSpaces p' = wantSpaces p /\ level p' = level p /\
    levelIncs p' = levelIncs p.
Proof.
  intros Hc Hpos Hdue Hnext Hp Hw.
  set (cl := commentLine (f p) c0) in *.
  unfold commentsUpTo. rewrite bind_gets, Hc. unfold position.
  rewrite bind_gets. fold (commentLine (f p) c0). fold cl. rewrite Hdue.
  rewrite bind_modify.
  set (p1 := set_wantNewline false p).
  (* the comments up to the comment's own line: none *)
  assert (E0 : commentsUpTo_r (run (S n)) cl p1 = Ok tt p1).
  { change (commentsUpTo_r (run (S n))) with (commentsUpTo (run n)).
    apply commentsUpTo_notDue. unfold p1. fields. rewrite Hc. unfold notDue.
    fold cl. apply andb_true_iff. split; [apply Z.gtb_lt|apply Z.geb_le]; lia. }
  assert (Hd : exists sep p2,
    didSeparate (run (S n)) (File_Position (f p) (Hash c0)) p1 = Ok sep p2 /\
    w p2 = BytesBuffer
             (t ++ if (curLine p >? 0) && (cl >? curLine p) then
                     nl ++ drainText (pendingHdocs p)
                        ++ (if cl >? add (drainLine (curLine p)
                                                    (pendingHdocs p)) 1
                            then nl else "")
                        ++ indentText (c p) (level p)
                   else "") /\
    sep = ((curLine p >? 0) && (cl >? curLine p)) || (curLine p =? 0) /\
    curLine p2 = cl /\ wantNewline p2 = false /\
    (sep = true -> curLine p <> 0 -> wantSpace p2 = false) /\
    ((curLine p >? 0) && (cl >? curLine p) = false ->
     pendingHdocs p2 = pendingHdocs p) /\
    f p2 = f p /\ c p2 = c p /\ nestedBinary p2 = nestedBinary p /\
    wantSpaces p2 = wantSpaces p /\ level p2 = level p /\
    levelIncs p2 = levelIncs p /\ comments p2 = comments p).
  { unfold didSeparate. fold (commentLine (f p) c0). fold cl.
    rewrite (bind_Ok _ E0), !bind_gets.
    change (wantNewline p1) with false. change (curLine p1) with (curLine p).
    cbn [orb].
    destruct ((curLine p >? 0) && (cl >? curLine p)) eqn:Es.
    - assert (Hp1 : plainHdocs (pendingHdocs p1) = true) by exact Hp.
      assert (Hw1 : w p1 = BytesBuffer t) by exact Hw.
      destruct (newlines_page n (File_Position (f p) (Hash c0)) p1 Hp1 Hw1)
        as (p2 & E2 & Hw2 & H2).
      rewrite (bind_Ok _ E2). exists true, p2. split; [reflexivity|].
      split; [exact Hw2|]. unfold p1 in H2. revert H2. fields. intros H2.
      repeat split; try tauto. discriminate.
    - destruct (curLine p =? 0) eqn:Ez.
      + exists true, (set_curLine cl p1). split; [reflexivity|].
        unfold p1. fields. rewrite append_nil_r.
        apply Z.eqb_eq in Ez. repeat split; auto. intros _ H. contradiction.
      + exists false, (set_curLine cl p1). split; [reflexivity|].
        unfold p1. fields. rewrite append_nil_r.
        repeat split; auto. discriminate. }
  destruct Hd as (sep & p2 & E2 & Hw2 & Hsep & Hc2 & Hn2 & Hs2 & Hq2 & Hf2).
  rewrite (bind_Ok _ E2).
  (* the spaces before an inline comment *)
  assert (H3 : exists p3,
    (if negb sep then wsp <- gets wantSpaces ;; spaces (add wsp 1)
     else ret tt) p2 = Ok tt p3 /\
    w p3 = BytesBuffer (t ++ commentLead p cl) /\
    (curLine p <> 0 -> wantSpace p3 = false) /\
    same_page p2 p3 /\ curLine p3 = curLine p2 /\
    wantNewline p3 = wantNewline p2).
  { unfold commentLead. destruct sep; cbn [negb].
    - exists p2. split; [reflexivity|]. split.
      { rewrite Hw2. symmetry in Hsep. apply orb_true_iff in Hsep.
        destruct ((curLine p >? 0) && (cl >? curLine p)); [reflexivity|].
        destruct Hsep as [|Hz]; [discriminate|]. rewrite Hz. reflexivity. }
      split; [auto|]. auto using same_page_refl.
    - symmetry in Hsep. apply orb_false_iff in Hsep as [Es Ez].
      rewrite Es, Ez in *. rewrite append_nil_r in Hw2.
      rewrite bind_gets. unfold spaces.
      erewrite bind_Ok by (apply repeatM_byte_; exact Hw2).
      unfold modify. eexists. split; [reflexivity|]. fields.
      assert (wantSpaces p2 = wantSpaces p) as -> by tauto.
      unfold same_page. fields. tauto. }
  destruct H3 as (p3 & E3 & Hw3 & Hs3 & Hl3 & Hc3 & Hn3).
  rewrite (bind_Ok _ E3).
  rewrite (bind_Ok _ (byte_buffer "#" Hw3)).
  set (p4 := set_err None (set_w (BytesBuffer ((t ++ commentLead p cl) ++ "#"))
                                 p3)).
  assert (Hw4 : w p4 = BytesBuffer ((t ++ commentLead p cl) ++ "#"))
    by reflexivity.
  rewrite (bind_Ok _ (str_buffer (Text c0) Hw4)).
  rewrite bind_gets. unfold p4 at 1. fields.
  unfold same_page in Hl3.
  assert (Hc3' : comments p3 = c0 :: rest) by intuition congruence.
  rewrite Hc3'. rewrite bind_modify.
  change (commentsUpTo_r (run (S n))) with (commentsUpTo (run n)).
  rewrite commentsUpTo_notDue.
  2:{ unfold p4. fields. assert (f p3 = f p) as -> by intuition congruence.
      exact Hnext. }
  eexists. split; [reflexivity|]. unfold p4. fields.
  split; [rewrite !append_assoc; reflexivity|].
  repeat split; try reflexivity; try (intuition congruence).
Qed.

(** X18: the first pending comment, when it is due, is printed after a
    line break and the indentation if it is on a later line than the
    current one, with nothing before it on the first line of the output,
    and else on the current line after one space more than [wantSpaces]
    asks for.  It leaves the backlog, and its line is the current one. *)
Theorem commentsUpTo_places (n : nat) (line : int) (p : printer) (t : string)
        (c0 : Comment) (rest : list Comment) :
  comments p = c0 :: rest ->
  0 < commentLine (f p) c0 ->
  (line >? 0) && (commentLine (f p) c0 >=? line) = false ->
  notDue (f p) line rest = true ->
  plainHdocs (pendingHdocs p) = true ->
  w p = BytesBuffer t ->
  exists p',
    commentsUpTo (run (S n)) line p = Ok tt p' /\
    w p' = BytesBuffer
             (t ++ commentLead p (commentLine (f p) c0) ++ "#" ++ Text c0) /\
    comments p' = rest /\
    curLine p' = commentLine (f p) c0.
Proof.
  intros Hc Hpos Hdue Hnext Hp Hw.
  destruct (comment_placed n line p Hc Hpos Hdue Hnext Hp Hw)
    as (p' & E & Hw' & Hc' & Hl' & _).
  exists p'. auto.
Qed.

Lemma commentsUpTo_places_witness :
  exists p',
    commentsUpTo (run 1) 0
      (set_wantSpaces 2
         (set_curLine 1 (set_comments [mkComment 120 " c"] fresh_buffer)))
      = Ok tt p' /\
    w p' = BytesBuffer ("" ++ "   " ++ "#" ++ " c") /\
    comments p' = [] /\
    curLine p' = 1.
Proof.
  apply (@commentsUpTo_places 0 0
           (set_wantSpaces 2
              (set_curLine 1 (set_comments [mkComment 120 " c"] fresh_buffer)))
           "" (mkComment 120 " c") []); reflexivity.
Defined.

(** ** Inline comments in one column *)

Ltac int_lia :=
  unfold in_int in *; change (2 ^ 63) with 9223372036854775808 in *; lia.

Lemma gtb_false a b : a <= b -> (a >? b) = false.
Proof. intros H. rewrite Z.gtb_ltb. apply Z.ltb_ge. exact H. Qed.

Lemma gtb_true a b : b < a -> (a >? b) = true.
Proof. intros H. apply Z.gtb_lt. exact H. Qed.

Lemma add_small a b : in_int (a + b) -> add a b = a + b.
Proof. apply wrap_id. Qed.

Lemma sub_small a b : in_int (a - b) -> sub a b = a - b.
Proof. apply wrap_id. Qed.

Lemma callWidth_nonneg x : 0 <= callWidth x.
Proof. unfold callWidth, len. lia. Qed.

Lemma runWidth_nonneg l : 0 <= runWidth l.
Proof. induction l; simpl; lia. Qed.

Lemma runWidth_le l wd :
  (forall x, In x l -> callWidth x <= wd) -> 0 <= wd -> runWidth l <= wd.
Proof.
  intros H H0. induction l as [|x r IH]; simpl; [lia|].
  pose proof (H x (or_introl eq_refl)).
  assert (runWidth r <= wd) by (apply IH; intros; apply H; right; assumption).
  lia.
Qed.

Lemma runWidth_ge l x : In x l -> callWidth x <= runWidth l.
Proof.
  induction l as [|y r IH]; [contradiction|].
  intros [->|H]; simpl; [lia|]. specialize (IH H). lia.
Qed.

Lemma adjacent_app fl pre : forall l ln,
  adjacent fl ln (pre ++ l) ->
  adjacent fl (ln + Z.of_nat (List.length pre)) l.
Proof.
  induction pre as [|y pre IH]; intros l ln H.
  - simpl. replace (ln + 0) with ln by lia. exact H.
  - simpl in H. destruct H as (_ & _ & _ & _ & H). apply IH in H.
    replace (ln + Z.of_nat (List.length (y :: pre)))
      with (ln + 1 + Z.of_nat (List.length pre))
      by (cbn [List.length]; lia).
    exact H.
Qed.

Lemma hasInline_adj fl x r pos : forall pre ln0,
  adjacent fl ln0 (pre ++ x :: r) ->
  Line pos = ln0 + Z.of_nat (List.length pre) ->
  hasInline_loop fl pos (map Call_comment (pre ++ x :: r)) = true.
Proof.
  induction pre as [|y pre IH]; intros ln0 H Hl.
  - simpl in *. destruct H as (_ & Hc & _). unfold commentLine in Hc.
    rewrite Hc. replace (ln0 =? Line pos) with true; [reflexivity|].
    symmetry. apply Z.eqb_eq. lia.
  - cbn [app map hasInline_loop]. cbn [app adjacent] in H.
    destruct H as (_ & Hc & _ & _ & H). unfold commentLine in Hc.
    rewrite Hc. cbn [List.length] in Hl.
    replace (ln0 =? Line pos) with false by (symmetry; apply Z.eqb_neq; lia).
    rewrite gtb_false by lia.
    apply (IH (ln0 + 1)); [exact H|lia].
Qed.

Lemma scan_width (n : nat) (fl : File) : forall l pre ln0 ii lastLine p,
  f p = fl ->
  comments p = map Call_comment (pre ++ l) ->
  adjacent fl ln0 (pre ++ l) ->
  0 < ln0 -> ln0 + Z.of_nat (List.length (pre ++ l)) < 2 ^ 63 ->
  ln0 + Z.of_nat (List.length pre) - 1 <= lastLine
    <= ln0 + Z.of_nat (List.length pre) ->
  0 <= ii ->
  stmts_scan (run (S (S n))) ii lastLine (map callOf l) p
    = Ok (Z.max ii (runWidth l)) p.
Proof.
  induction l as [|x r IH]; intros pre ln0 ii lastLine p Hf Hc Ha H0 Hb Hl Hi.
  - simpl. unfold ret. f_equal. lia.
  - cbn [map stmts_scan]. unfold position. rewrite bind_gets.
    unfold hasInline. rewrite bind_gets.
    change (Stmt_pos (callOf x)) with (Call_pos x). rewrite Hf, Hc.
    rewrite (@hasInline_adj fl x r _ pre ln0 Ha).
    2:{ apply adjacent_app in Ha. simpl in Ha. tauto. }
    assert (Hln : Line (File_Position fl (Call_pos x))
                  = ln0 + Z.of_nat (List.length pre)).
    { apply adjacent_app in Ha. simpl in Ha. tauto. }
    rewrite length_app in Hb. cbn [List.length] in Hb.
    rewrite Hln. rewrite add_small by int_lia.
    rewrite gtb_false by lia. cbn [negb orb]. unfold callOf at 1.
    assert (Hsw : forallb simpleWord (Call_args x) = true).
    { apply adjacent_app in Ha. simpl in Ha. tauto. }
    rewrite (bind_Ok _ (stmtLen_call n (Call_pos x) (Call_args x) p Hsw)).
    fold (callText x). fold (callWidth x).
    pose proof (callWidth_nonneg x) as Hx.
    rewrite (IH (pre ++ [x])%list ln0).
    + f_equal. cbn [runWidth fold_right]. fold (runWidth r).
      destruct (callWidth x >? ii) eqn:E.
      * apply Z.gtb_lt in E. lia.
      * rewrite Z.gtb_ltb in E. apply Z.ltb_ge in E. lia.
    + exact Hf.
    + rewrite <- app_assoc. exact Hc.
    + rewrite <- app_assoc. exact Ha.
    + exact H0.
    + rewrite <- app_assoc. rewrite length_app. cbn [List.length]. exact Hb.
    + rewrite length_app. cbn [List.length]. lia.
    + destruct (callWidth x >? ii); lia.
Qed.

Lemma drain_none cl : drainText [] = "" /\ drainLine cl [] = cl.
Proof. split; reflexivity. Qed.

(** The line break before a command of the run, with the comment of the
    command before it. *)
Lemma separate_aligned (n : nat) (fl : File) (wd : int)
      (prev : option commented) (ln : int) (x : commented)
      (r : list commented) (p : printer) (t : string) :
  awaiting fl wd prev ln (x :: r) p ->
  adjacent fl ln (x :: r) ->
  0 < ln -> ln + 1 < 2 ^ 63 -> wd + 1 < 2 ^ 63 ->
  w p = BytesBuffer t ->
  exists pA,
    alwaysSeparate (run (S (S n))) (File_Position fl (Call_pos x)) p
      = Ok tt pA /\
    w pA = BytesBuffer
             (t ++ leadOf (nl ++ indentText (c p) (level p)) wd prev) /\
    curLine pA = ln /\ wantSpace pA = false /\
    comments pA = map Call_comment (x :: r) /\
    f pA = fl /\ pendingHdocs pA = [] /\ c pA = c p /\ level pA = level p.
Proof.
  intros (Hf & Hq & Hprev) Ha Hln Hb Hwd Hw.
  assert (Hpos : Line (File_Position fl (Call_pos x)) = ln)
    by (simpl in Ha; tauto).
  assert (Hcx : commentLine fl (Call_comment x) = ln)
    by (simpl in Ha; tauto).
  unfold alwaysSeparate. rewrite Hpos.
  change (commentsUpTo_r (run (S (S n)))) with (commentsUpTo (run (S n))).
  destruct prev as [y|].
  - destruct Hprev as (Hcl & Hl1 & Hcy & Hc & Hws & Hle).
    pose proof (callWidth_nonneg y) as Hy.
    assert (Hdue : (ln >? 0) && (commentLine (f p) (Call_comment y) >=? ln)
                   = false).
    { rewrite Hf, Hcy. apply andb_false_iff. right.
      rewrite Z.geb_leb. apply Z.leb_gt. lia. }
    assert (Hnext : notDue (f p) ln (map Call_comment (x :: r)) = true).
    { cbn [map notDue]. rewrite Hf, Hcx. apply andb_true_iff.
      split; [apply gtb_true; lia|apply Z.geb_le; lia]. }
    assert (Hp : plainHdocs (pendingHdocs p) = true) by (rewrite Hq; reflexivity).
    assert (Hpy : 0 < commentLine (f p) (Call_comment y))
      by (rewrite Hf, Hcy; lia).
    destruct (comment_placed n ln p Hc Hpy Hdue Hnext Hp Hw)
      as (p1 & E1 & Hw1 & Hc1 & Hl' & Hn1 & Hs1 & Hq1 & Hf1 & Hcf1 & _ &
          Hws1 & Hlv1 & _).
    rewrite (bind_Ok _ E1), bind_gets, Hl', Hf, Hcy.
    rewrite gtb_true by lia.
    assert (Hq1' : pendingHdocs p1 = []).
    { rewrite Hq1; [exact Hq|]. rewrite Hf, Hcy, Hcl.
      apply andb_false_iff. right. apply gtb_false. lia. }
    assert (Hp1 : plainHdocs (pendingHdocs p1) = true)
      by (rewrite Hq1'; reflexivity).
    destruct (newlines_page (S n) (File_Position fl (Call_pos x)) p1 Hp1 Hw1)
      as (p2 & E2 & Hw2 & Hc2 & Hq2 & Hs2 & Hn2 & Hf2 & Hcf2 & _ & _ &
          Hlv2 & _ & Hcm2).
    exists p2. split; [exact E2|]. split.
    { rewrite Hw2, Hq1'. cbn [drainText drainLine fold_left].
      rewrite Hpos, Hl', Hf, Hcy.
      rewrite add_small by int_lia.
      rewrite gtb_false by lia.
      unfold leadOf, alignedTail, commentLead.
      rewrite Hcl, ?Hf, ?Hcy.
      rewrite (@gtb_false (ln - 1) (ln - 1)) by lia.
      rewrite andb_false_r.
      replace (ln - 1 =? 0) with false by (symmetry; apply Z.eqb_neq; lia).
      rewrite Hws, add_small by int_lia.
      rewrite Hcf1, Hlv1. rewrite !append_assoc. reflexivity. }
    repeat split; try congruence.
  - destruct Hprev as (Hcl & Hs & Hc).
    assert (Hnd : notDue (f p) ln (comments p) = true).
    { rewrite Hc. cbn [map notDue]. rewrite Hf, Hcx. apply andb_true_iff.
      split; [apply gtb_true; lia|apply Z.geb_le; lia]. }
    rewrite (bind_Ok _ (commentsUpTo_notDue (run (S n)) ln p Hnd)).
    rewrite bind_gets, Hcl. cbn [Z.gtb Z.compare].
    unfold modify. eexists. split; [reflexivity|].
    cbn [w curLine wantSpace comments f pendingHdocs c level set_curLine].
    unfold leadOf. rewrite append_nil_r. repeat split; auto.
Qed.

Lemma loop_aligned (n : nat) (fl : File) (wd : int) (cfg : PrintConfig)
      (lv : int) :
  forall l prev ln ii lastLine p t,
  adjacent fl ln l ->
  awaiting fl wd prev ln l p ->
  c p = cfg -> level p = lv ->
  0 < ln -> ln + Z.of_nat (List.length l) < 2 ^ 63 ->
  (forall x, In x l -> callWidth x <= wd) -> 0 <= wd -> wd + 1 < 2 ^ 63 ->
  (prev = None -> runWidth l = wd) ->
  match prev with
  | None => ii = 0 /\ lastLine = ln
  | Some _ => ii = wd /\ lastLine = ln - 1
  end ->
  w p = BytesBuffer t ->
  exists p',
    stmts_loop (run (S (S n))) ii lastLine (map callOf l) p = Ok tt p' /\
    w p' = BytesBuffer (t ++ runText (nl ++ indentText cfg lv) wd prev l) /\
    awaiting fl wd (lastCall prev l) (ln + Z.of_nat (List.length l)) [] p' /\
    c p' = cfg /\ level p' = lv.
Proof.
  induction l as [|x r IH];
    intros prev ln ii lastLine p t Ha Hp Hcfg Hlv Hln Hb Hwx Hwd0 Hwd Hnone
           Hii Hw.
  - exists p. split; [reflexivity|]. cbn [runText lastCall List.length].
    rewrite append_nil_r. replace (ln + Z.of_nat 0) with ln by lia. auto.
  - cbn [List.length] in Hb.
    destruct (@separate_aligned n fl wd prev ln x r p t Hp Ha Hln
                ltac:(int_lia) Hwd Hw)
      as (pA & EA & HwA & HlA & HsA & HcA & HfA & HqA & HcfA & HlvA).
    cbn [map stmts_loop]. unfold position. rewrite bind_gets.
    change (Stmt_pos (callOf x)) with (Call_pos x).
    assert (Hfp : f p = fl) by (destruct Hp; assumption).
    rewrite Hfp. rewrite (bind_Ok _ EA).
    change (stmt_r (run (S (S n)))) with (stmt (run (S n))).
    assert (Hon : onLine (f pA) (curLine pA) (Call_args x) = true)
      by (rewrite HfA, HlA; simpl in Ha; tauto).
    assert (Hsw : forallb simpleWord (Call_args x) = true)
      by (simpl in Ha; tauto).
    destruct (@stmt_simpleCall n (Call_pos x) (Call_args x) pA _ Hon HwA Hsw)
      as (pS & ES & HwS & HlS & _).
    unfold callOf at 1. rewrite (bind_Ok _ ES).
    assert (Hpos : Line (File_Position fl (Call_pos x)) = ln)
      by (simpl in Ha; tauto).
    unfold same_layout in HlS.
    assert (HfS : f pS = fl) by intuition congruence.
    assert (HcS : comments pS = map Call_comment ([] ++ x :: r))
      by (cbn [app]; intuition congruence).
    cbv zeta. unfold hasInline. rewrite bind_gets, HfS, HcS.
    rewrite (@hasInline_adj fl x r _ [] ln Ha) by (cbn [List.length]; lia).
    cbn [negb]. rewrite Hpos.
    assert (Hlast : (ln >? add lastLine 1) = false).
    { destruct prev; destruct Hii as [_ ->];
        rewrite add_small by int_lia; apply gtb_false; lia. }
    rewrite Hlast.
    pose proof (callWidth_nonneg x) as Hx0.
    assert (Hxw : callWidth x <= wd) by (apply Hwx; left; reflexivity).
    assert (Hscan : (if ii =? 0
                     then stmts_scan (run (S (S n))) ii ln
                            (callOf x :: map callOf r)
                     else ret ii) pS = Ok wd pS).
    { assert (Hs0 : stmts_scan (run (S (S n))) 0 ln
                      (map callOf (x :: r)) pS
                    = Ok (Z.max 0 (runWidth (x :: r))) pS).
      { apply (@scan_width n fl (x :: r) [] ln 0 ln pS); auto;
          cbn [app List.length]; lia. }
      pose proof (runWidth_nonneg (x :: r)) as Hr0.
      pose proof (@runWidth_le (x :: r) wd Hwx Hwd0) as Hr1.
      destruct prev as [y|]; destruct Hii as [-> _].
      - destruct (wd =? 0) eqn:Ez; [|reflexivity].
        apply Z.eqb_eq in Ez. subst wd. cbn [map] in Hs0. rewrite Hs0.
        f_equal. lia.
      - cbn [Z.eqb]. cbn [map] in Hs0. rewrite Hs0. f_equal.
        rewrite <- (Hnone eq_refl). lia. }
    rewrite (bind_Ok _ Hscan).
    rewrite (bind_Ok _ (stmtLen_call n (Call_pos x) (Call_args x) pS Hsw)).
    fold (callText x). fold (callWidth x). rewrite bind_modify.
    rewrite sub_small by int_lia.
    set (pN := set_wantSpaces (wd - callWidth x) pS).
    assert (HwN : w pN = BytesBuffer
                    ((t ++ leadOf (nl ++ indentText (c p) (level p)) wd prev)
                       ++ joinFrom (wantSpace pA) (Call_args x)))
      by exact HwS.
    assert (HaN : awaiting fl wd (Some x) (ln + 1) r pN).
    { unfold awaiting, pN.
      cbn [f pendingHdocs curLine comments wantSpaces set_wantSpaces].
      split; [exact HfS|]. split; [intuition congruence|].
      split; [intuition (try congruence; lia)|].
      assert (curLine pS = ln) by intuition congruence.
      split; [lia|]. split; [simpl in Ha; replace (ln + 1 - 1) with ln by lia;
                             tauto|].
      split; [exact HcS|]. split; [reflexivity|exact Hxw]. }
    destruct (IH (Some x) (ln + 1) wd ln pN
                ((t ++ leadOf (nl ++ indentText (c p) (level p)) wd prev)
                   ++ joinFrom (wantSpace pA) (Call_args x)))
      as (p' & E' & Hw' & Ha' & Hc' & Hl'); auto.
    + simpl in Ha. tauto.
    + unfold pN. cbn [c set_wantSpaces]. intuition congruence.
    + unfold pN. cbn [level set_wantSpaces]. intuition congruence.
    + lia.
    + lia.
    + intros y Hy. apply Hwx. right. exact Hy.
    + discriminate.
    + split; [reflexivity|lia].
    + exists p'. split; [exact E'|]. split.
      { rewrite Hw'. cbn [runText]. rewrite HsA, Hcfg, Hlv.
        fold (callText x). rewrite !append_assoc. reflexivity. }
      split; [|auto]. cbn [lastCall List.length].
      replace (ln + Z.of_nat (S (List.length r)))
        with (ln + 1 + Z.of_nat (List.length r)) by lia.
      exact Ha'.
Qed.

Lemma runText_concat (sep : string) (wd : int) : forall l prev,
  l <> [] ->
  exists y,
    lastCall prev l = Some y /\ In y l /\
    runText sep wd prev l ++ alignedTail wd y
      = leadOf sep wd prev ++ String.concat sep (map (alignedLine wd) l).
Proof.
  induction l as [|x r IH]; intros prev Hne; [congruence|].
  destruct r as [|x' r].
  - exists x. split; [reflexivity|]. split; [left; reflexivity|].
    cbn [runText map String.concat]. unfold alignedLine.
    rewrite append_nil_r, !append_assoc. reflexivity.
  - destruct (IH (Some x)) as (y & Hy & Hin & E); [discriminate|].
    exists y. split; [exact Hy|]. split; [right; exact Hin|].
    change (runText sep wd prev (x :: x' :: r))
      with (leadOf sep wd prev ++ callText x
              ++ runText sep wd (Some x) (x' :: r)).
    rewrite !append_assoc. rewrite E.
    change (String.concat sep (map (alignedLine wd) (x :: x' :: r)))
      with (alignedLine wd x ++ sep
              ++ String.concat sep (map (alignedLine wd) (x' :: r))).
    unfold leadOf at 2, alignedLine at 2. rewrite !append_assoc. reflexivity.
Qed.

(** X19: a run of simple commands on adjacent lines, each with a comment
    on its line, is printed with the comments in one column: every command
    is followed by as many spaces as it is narrower than the widest of the
    run, one more, and its comment; the lines are joined by a newline and
    the indentation. *)
Theorem inline_comments_aligned (n : nat) (l : list commented) (ln : int)
        (p : printer) (t : string) :
  adjacent (f p) ln l ->
  0 < ln -> ln + Z.of_nat (List.length l) < 2 ^ 63 ->
  runWidth l + 1 < 2 ^ 63 ->
  comments p = map Call_comment l ->
  curLine p = 0 -> wantSpace p = false -> pendingHdocs p = [] ->
  w p = BytesBuffer t ->
  exists p',
    (_ <- stmts (run (S (S n))) (map callOf l) ;;
     commentsUpTo (run (S (S n))) 0) p = Ok tt p' /\
    w p' = BytesBuffer
             (t ++ String.concat (nl ++ indentText (c p) (level p))
                     (map (alignedLine (runWidth l)) l)) /\
    comments p' = [].
Proof.
  intros Ha Hln Hb Hwd Hc Hcl Hs Hq Hw.
  destruct l as [|x r].
  - exists p. cbn [map stmts String.concat]. rewrite bind_ret.
    split; [apply commentsUpTo_none; exact Hc|].
    rewrite append_nil_r. auto.
  - set (l := x :: r) in *.
    assert (Hpos : Line (File_Position (f p) (Call_pos x)) = ln)
      by (simpl in Ha; tauto).
    pose proof (runWidth_nonneg l) as Hw0.
    destruct (@loop_aligned n (f p) (runWidth l) (c p) (level p) l None ln 0 ln
                p t) as (pL & EL & HwL & HaL & HcL & HlL); auto.
    { unfold awaiting. auto. }
    { intros y Hy. apply runWidth_ge. exact Hy. }
    destruct (@runText_concat (nl ++ indentText (c p) (level p)) (runWidth l)
                l None) as (y & Hy & Hin & Etxt); [discriminate|].
    rewrite Hy in HaL.
    destruct HaL as (HfL & HqL & HclL & HposL & HcyL & HcmL & HwsL & HleL).
    unfold l at 1. cbn [map]. unfold stmts, position.
    rewrite !bind_assoc_gets.
    change (Stmt_pos (callOf x)) with (Call_pos x). rewrite Hpos, Hcl.
    replace (ln =? 0) with false by (symmetry; apply Z.eqb_neq; lia).
    rewrite andb_false_r.
    change (callOf x :: map callOf r) with (map callOf l).
    rewrite (bind_Ok _ (a:=true) (p':=set_wantNewline true pL)).
    2:{ rewrite (bind_Ok _ EL). reflexivity. }
    set (pM := set_wantNewline true pL).
    assert (HwM : w pM = BytesBuffer
                    (t ++ runText (nl ++ indentText (c p) (level p))
                            (runWidth l) None l)) by exact HwL.
    assert (HcM : comments pM = Call_comment y :: []) by exact HcmL.
    assert (HpM : 0 < commentLine (f pM) (Call_comment y)).
    { change (f pM) with (f pL). rewrite HfL, HcyL. exact HposL. }
    assert (HqM : plainHdocs (pendingHdocs pM) = true).
    { change (pendingHdocs pM) with (pendingHdocs pL). rewrite HqL.
      reflexivity. }
    destruct (@comment_placed (S n) 0 pM _ (Call_comment y) [] HcM HpM
                eq_refl eq_refl HqM HwM)
      as (p' & E' & Hw' & Hc' & _).
    exists p'. split; [exact E'|]. split; [|exact Hc'].
    assert (Etxt' :
      runText (nl ++ indentText (c p) (level p)) (runWidth l) None l
        ++ alignedTail (runWidth l) y
      = String.concat (nl ++ indentText (c p) (level p))
          (map (alignedLine (runWidth l)) l)) by exact Etxt.
    rewrite Hw'. f_equal. rewrite <- Etxt'.
    rewrite !append_assoc. f_equal. f_equal.
    unfold alignedTail, commentLead.
    change (curLine pM) with (curLine pL). change (f pM) with (f pL).
    change (wantSpaces pM) with (wantSpaces pL).
    rewrite HclL, HfL, HcyL, HwsL.
    pose proof (callWidth_nonneg y) as Hy0.
    rewrite (@gtb_false _ _ (Z.le_refl _)), andb_false_r.
    replace (ln + Z.of_nat (List.length l) - 1 =? 0) with false
      by (symmetry; apply Z.eqb_neq; lia).
    rewrite add_small by int_lia. reflexivity.
Qed.

Lemma inline_comments_aligned_witness :
  exists p',
    (_ <- stmts (run 2)
            (map callOf
               [mkCommented 101 (litWords 101 ["a"]) (mkComment 103 " x");
                mkCommented 201 (litWords 201 ["bbb"]) (mkComment 205 " y")]) ;;
     commentsUpTo (run 2) 0)
      (set_comments [mkComment 103 " x"; mkComment 205 " y"] fresh_buffer)
      = Ok tt p' /\
    w p' = BytesBuffer ("" ++ "a   # x" ++ nl ++ "bbb # y") /\
    comments p' = [].
Proof.
  apply (@inline_comments_aligned 0
           [mkCommented 101 (litWords 101 ["a"]) (mkComment 103 " x");
            mkCommented 201 (litWords 201 ["bbb"]) (mkComment 205 " y")]
           1 (set_comments [mkComment 103 " x"; mkComment 205 " y"]
                           fresh_buffer) "");
    try reflexivity.
  vm_compute. repeat split; reflexivity.
Defined.

(** ** A script of simple commands *)

Lemma script_loop (n : nat) (fl : File) (cfg : PrintConfig) (lv : int) :
  forall l ii lastLine p t,
  Forall (scriptCall fl) l ->
  f p = fl -> c p = cfg -> level p = lv ->
  comments p = [] -> pendingHdocs p = [] ->
  0 <= curLine p -> curLine p + 1 < 2 ^ 63 ->
  (curLine p = 0 -> wantSpace p = false) ->
  w p = BytesBuffer t ->
  exists p',
    stmts_loop (run (S (S n))) ii lastLine (scriptStmts l) p = Ok tt p' /\
    w p' = BytesBuffer (t ++ scriptText fl (indentText cfg lv) (curLine p) l) /\
    f p' = fl /\ c p' = cfg /\ level p' = lv /\
    comments p' = [] /\ pendingHdocs p' = [].
Proof.
  induction l as [|x r IH];
    intros ii lastLine p t Hall Hf Hc Hlv Hcm Hq Hcl0 Hcl1 Hsp Hw.
  - exists p. cbn [scriptStmts map stmts_loop scriptText].
    rewrite append_nil_r. repeat split; auto.
  - inversion Hall as [|x0 r0 (Hx0 & Hx1 & Hon & Hsw) Hr]. subst x0 r0.
    set (ln := Line (File_Position fl (fst x))) in *.
    cbn [scriptStmts map stmts_loop]. fold (scriptStmts r).
    unfold position. rewrite bind_gets.
    change (Stmt_pos (simpleCall (fst x) (snd x))) with (fst x).
    rewrite Hf. fold ln.
    (* the line break *)
    assert (HA : exists pA,
      alwaysSeparate (run (S (S n))) (File_Position fl (fst x)) p = Ok tt pA /\
      w pA = BytesBuffer
               (t ++ if curLine p >? 0 then
                       nl ++ (if ln >? curLine p + 1 then nl else "")
                          ++ indentText cfg lv
                     else "") /\
      curLine pA = ln /\ wantSpace pA = false /\
      f pA = fl /\ c pA = cfg /\ level pA = lv /\
      comments pA = [] /\ pendingHdocs pA = []).
    { unfold alwaysSeparate.
      change (commentsUpTo_r (run (S (S n)))) with (commentsUpTo (run (S n))).
      rewrite (bind_Ok _ (commentsUpTo_none (run (S n)) _ p Hcm)).
      rewrite bind_gets.
      destruct (curLine p >? 0) eqn:Eg.
      - assert (Hp : plainHdocs (pendingHdocs p) = true)
          by (rewrite Hq; reflexivity).
        destruct (newlines_page (S n) (File_Position fl (fst x)) p Hp Hw)
          as (pA & EA & HwA & HcA & HqA & HsA & _ & HfA & HcfA & _ & _ &
              HlvA & _ & HcmA).
        exists pA. split; [exact EA|]. split.
        { rewrite HwA, Hq. cbn [drainText drainLine fold_left].
          fold ln. rewrite add_small by int_lia. rewrite Hc, Hlv.
          reflexivity. }
        unfold ln. repeat split; congruence.
      - unfold modify. eexists. split; [reflexivity|].
        cbn [w curLine wantSpace f c level comments pendingHdocs set_curLine].
        rewrite append_nil_r. repeat split; auto. apply Hsp.
        rewrite Z.gtb_ltb in Eg. apply Z.ltb_ge in Eg. lia. }
    destruct HA as (pA & EA & HwA & HlA & HsA & HfA & HcA & HlvA & HcmA & HqA).
    rewrite (bind_Ok _ EA).
    change (stmt_r (run (S (S n)))) with (stmt (run (S n))).
    assert (Hon' : onLine (f pA) (curLine pA) (snd x) = true)
      by (rewrite HfA, HlA; exact Hon).
    destruct (@stmt_simpleCall n (fst x) (snd x) pA _ Hon' HwA Hsw)
      as (pS & ES & HwS & HlS & _).
    rewrite (bind_Ok _ ES). cbv zeta. unfold hasInline. rewrite bind_gets.
    unfold same_layout in HlS.
    assert (comments pS = []) as -> by intuition congruence.
    cbn [hasInline_loop negb].
    assert (HcS : curLine pS = ln) by intuition congruence.
    edestruct (IH 0 ln pS) as (p' & E' & Hw' & H');
      [exact Hr
      |first [ intuition congruence
             | rewrite HcS; unfold ln; lia
             | intros H0; rewrite HcS in H0; unfold ln in *; lia ] ..
      |exact HwS|].
    exists p'. split; [exact E'|]. split; [|exact H'].
    rewrite Hw', HcS, HsA. cbn [scriptText]. fold ln.
    rewrite !append_assoc. reflexivity.
Qed.

(** X20: a file of simple commands and no comments is printed one command
    on a line, in the order of the file, the words of a command one space
    apart; a command that is more than one line after the one before it
    comes after a single blank line, however many lines lie between them;
    the text ends with a newline. *)
Theorem script_lines (n : nat) (cfg : PrintConfig) (posfn : Pos -> Position)
        (l : list (Pos * list Word)) :
  Forall (scriptCall (mkFile (scriptStmts l) [] posfn)) l ->
  rendered (render (S (S n)) cfg (mkFile (scriptStmts l) [] posfn))
    = Some (scriptText (mkFile (scriptStmts l) [] posfn) "" 0 l ++ nl).
Proof.
  intros Hall. set (fl := mkFile (scriptStmts l) [] posfn) in *.
  unfold render, traversal. rewrite bind_modify.
  set (p0 := set_comments (File_Comments fl)
               (new_printer (BytesBuffer "") fl cfg)).
  assert (HS : exists b pL,
    stmts (run (S (S n))) (File_Stmts fl) p0 = Ok b pL /\
    w pL = BytesBuffer ("" ++ scriptText fl "" 0 l) /\
    comments pL = [] /\ pendingHdocs pL = []).
  { change (File_Stmts fl) with (scriptStmts l).
    destruct l as [|x r].
    - exists false, p0. repeat split; reflexivity.
    - destruct (@script_loop n fl cfg 0 (x :: r) 0
                  (Line (File_Position fl (fst x))) p0 "" Hall)
        as (pL & EL & HwL & _ & _ & _ & HcL & HqL);
        try reflexivity; try (cbn; lia).
      cbn [scriptStmts map]. unfold stmts, position. rewrite !bind_gets.
      change (Stmt_pos (simpleCall (fst x) (snd x))) with (fst x).
      change (f p0) with fl. change (curLine p0) with 0.
      inversion Hall as [|x0 r0 (Hx0 & _) _]. subst x0 r0.
      replace (Line (File_Position fl (fst x)) =? 0) with false
        by (symmetry; apply Z.eqb_neq; lia).
      rewrite andb_false_r.
      change (simpleCall (fst x) (snd x)
                :: map (fun x1 => simpleCall (fst x1) (snd x1)) r)
        with (scriptStmts (x :: r)).
      rewrite (bind_Ok _ EL), bind_modify.
      exists true, (set_wantNewline true pL). split; [reflexivity|].
      split; [exact HwL|]. split; assumption. }
  destruct HS as (b & pL & ES & HwL & HcL & HqL).
  rewrite (bind_Ok _ ES).
  rewrite (bind_Ok _ (commentsUpTo_none (run (S (S n))) 0 pL HcL)).
  assert (Hp : plainHdocs (pendingHdocs pL) = true) by (rewrite HqL; reflexivity).
  destruct (newline_drain (S n) pL Hp HwL) as (p' & E' & Hw' & _).
  rewrite E'. unfold rendered, Buffer_String. rewrite Hw', HqL.
  cbn [drainText]. rewrite !append_assoc. reflexivity.
Qed.

Lemma script_lines_witness :
  rendered
    (render 2 config0
       (mkFile (scriptStmts [(101, litWords 101 ["echo"; "a"]);
                             (501, litWords 501 ["b"])]) [] line_col))
    = Some ("echo a" ++ nl ++ nl ++ "b" ++ nl).
Proof.
  apply (@script_lines 0 config0 line_col
           [(101, litWords 101 ["echo"; "a"]); (501, litWords 501 ["b"])]).
  repeat constructor.
Defined.

(** ** Compound commands on one line *)

Lemma oneLine_layout p q ln : oneLine p ln -> same_layout p q -> oneLine q ln.
Proof.
  unfold oneLine, same_layout. intros H1 H2.
  destruct H2 as (_ & _ & _ & Hn & _ & Hc & Hll & Hl & _ & Hcm & _).
  rewrite Hn, Hc, Hll, Hl, Hcm. exact H1.
Qed.

Lemma spacedRsrv_plain s p t :
  w p = BytesBuffer t ->
  exists p',
    spacedRsrv s p = Ok tt p' /\
    w p' = BytesBuffer (t ++ (if wantSpace p then " " else "") ++ s) /\
    same_layout p p' /\ wantSpace p' = true.
Proof.
  intros Hw. unfold spacedRsrv. rewrite bind_gets.
  assert (H1 : exists p1, when (wantSpace p) space p = Ok tt p1 /\
                 w p1 = BytesBuffer (t ++ if wantSpace p then " " else "") /\
                 same_layout p p1).
  { destruct (wantSpace p); cbn [when].
    - apply space_plain. exact Hw.
    - exists p. rewrite append_nil_r. auto using same_layout_refl. }
  destruct H1 as (p1 & E1 & Hw1 & Hl1). rewrite (bind_Ok _ E1).
  destruct (str_plain s Hw1) as (p2 & E2 & Hw2 & Hl2).
  rewrite (bind_Ok _ E2). unfold modify. eexists. split; [reflexivity|].
  cbn [w wantSpace set_wantSpace]. split; [rewrite Hw2, append_assoc; reflexivity|].
  split; [|reflexivity].
  apply (same_layout_trans Hl1). unfold same_layout in *.
  cbn [f c nestedBinary wantNewline wantSpaces curLine lastLevel level
       levelIncs comments pendingHdocs set_wantSpace]. exact Hl2.
Qed.

Lemma didSeparate_same (n : nat) (pos : Position) p ln :
  oneLine p ln -> Line pos = ln ->
  didSeparate (run (S n)) pos p = Ok false p.
Proof.
  intros (Hc & Hln & Hcm & Hn & _) Hp. unfold didSeparate.
  change (commentsUpTo_r (run (S n))) with (commentsUpTo (run n)).
  rewrite (bind_Ok _ (commentsUpTo_none (run n) _ p Hcm)).
  rewrite !bind_gets, Hn, Hc, Hp.
  rewrite (@gtb_false ln ln) by lia. rewrite andb_false_r. cbn [orb].
  replace (ln =? 0) with false by (symmetry; apply Z.eqb_neq; lia).
  rewrite bind_modify. unfold ret. f_equal.
  rewrite <- Hc. destruct p; reflexivity.
Qed.

(** A list of one simple command on the current line, nested. *)
Lemma nested_inline (n : nat) (pos : Pos) (args : list Word) p t ln :
  oneLine p ln -> callOn (f p) ln pos args ->
  w p = BytesBuffer t ->
  exists p',
    nestedStmts (run (S (S n))) [simpleCall pos args] p = Ok false p' /\
    w p' = BytesBuffer (t ++ joinFrom (wantSpace p) args) /\
    same_layout p p' /\
    wantSpace p' = match args with [] => wantSpace p | _ => true end.
Proof.
  intros Ho (Hpos & Hon & Hsw) Hw.
  pose proof Ho as (Hc & Hln & Hcm & Hn & Hle & Hin).
  unfold nestedStmts.
  set (p1 := set_levelIncs (levelIncs p ++ [true])%list
               (set_level (add (level p) 1) p)).
  assert (E1 : incLevel p = Ok tt p1).
  { unfold incLevel. rewrite !bind_gets.
    replace (level p <=? lastLevel p) with true
      by (symmetry; apply Z.leb_le; exact Hle).
    reflexivity. }
  rewrite (bind_Ok _ E1).
  assert (Ho1 : curLine p1 = ln /\ 0 < ln /\ comments p1 = [] /\
                wantNewline p1 = false) by (unfold p1; fields; auto).
  assert (E2 : didSeparate (run (S (S n))) (File_Position (f p) pos) p1
               = Ok false p1).
  { destruct Ho1 as (H1 & H2 & H3 & H4). unfold didSeparate.
    change (commentsUpTo_r (run (S (S n)))) with (commentsUpTo (run (S n))).
    rewrite (bind_Ok _ (commentsUpTo_none (run (S n)) _ p1 H3)).
    rewrite !bind_gets, H4, H1, Hpos.
    rewrite (@gtb_false ln ln) by lia. rewrite andb_false_r. cbn [orb].
    replace (ln =? 0) with false by (symmetry; apply Z.eqb_neq; lia).
    rewrite bind_modify. unfold ret. f_equal.
    rewrite <- H1. destruct p; reflexivity. }
  assert (Hw1 : w p1 = BytesBuffer t) by exact Hw.
  assert (Hon1 : onLine (f p1) (curLine p1) args = true).
  { change (f p1) with (f p). change (curLine p1) with (curLine p).
    rewrite Hc. exact Hon. }
  destruct (@stmt_simpleCall n pos args p1 t Hon1 Hw1 Hsw)
    as (p2 & E3 & Hw2 & Hl2 & Hs2).
  assert (ES : stmts (run (S (S n))) [simpleCall pos args] p1 = Ok false p2).
  { unfold stmts, position. rewrite !bind_gets.
    change (Stmt_pos (simpleCall pos args)) with pos.
    change (f p1) with (f p). change (curLine p1) with (curLine p).
    rewrite Hpos, Hc, Z.eqb_refl. cbn [andb].
    rewrite (bind_Ok _ E2).
    change (stmt_r (run (S (S n)))) with (stmt (run (S n))).
    rewrite (bind_Ok _ E3). reflexivity. }
  rewrite (bind_Ok _ ES).
  unfold same_layout in Hl2.
  assert (Hi2 : levelIncs p2 = (levelIncs p ++ [true])%list)
    by (transitivity (levelIncs p1); [tauto|reflexivity]).
  assert (Hlv2 : level p2 = add (level p) 1)
    by (transitivity (level p1); [tauto|reflexivity]).
  assert (ED : decLevel p2
               = Ok tt (set_level (level p) (set_levelIncs (levelIncs p) p2))).
  { unfold decLevel. rewrite bind_gets, Hi2, unsnoc_snoc, bind_modify.
    cbn [when]. unfold modify. fields. rewrite Hlv2. unfold add, sub.
    rewrite (wrap_up_down Hin). reflexivity. }
  rewrite (bind_Ok _ ED). eexists. split; [reflexivity|]. fields.
  split; [exact Hw2|]. split.
  - unfold same_layout. fields. unfold p1 in Hl2. revert Hl2. fields.
    intros Hl2. repeat split; tauto.
  - exact Hs2.
Qed.

Lemma semiOrNewl_inline (self : rec) s pos p t ln :
  oneLine p ln -> Line (File_Position (f p) pos) = ln ->
  w p = BytesBuffer t ->
  exists p',
    semiOrNewl self s pos p = Ok tt p' /\
    w p' = BytesBuffer (t ++ "; " ++ s) /\
    same_layout p p' /\ wantSpace p' = true.
Proof.
  intros (Hc & Hln & Hcm & Hn & Hle & Hin) Hpos Hw.
  unfold semiOrNewl. rewrite bind_gets, Hn.
  destruct (str_plain "; " Hw) as (p1 & E1 & Hw1 & Hl1).
  rewrite (bind_Ok _ E1).
  destruct (str_plain s Hw1) as (p2 & E2 & Hw2 & Hl2).
  rewrite (bind_Ok _ E2), bind_modify. unfold position.
  rewrite bind_gets. unfold modify. eexists. split; [reflexivity|].
  fields. split; [rewrite Hw2, append_assoc; reflexivity|].
  split; [|reflexivity].
  unfold same_layout in *. fields.
  assert (f p2 = f p) as -> by intuition congruence. rewrite Hpos.
  repeat split; intuition congruence.
Qed.

Lemma semiRsrv_inline (n : nat) s rpos p t ln :
  oneLine p ln -> Line (File_Position (f p) rpos) = ln ->
  w p = BytesBuffer t ->
  exists p',
    semiRsrv (run (S n)) s rpos true p = Ok tt p' /\
    w p' = BytesBuffer (t ++ "; " ++ s) /\
    same_layout p p' /\ wantSpace p' = true.
Proof.
  intros Ho Hpos Hw. pose proof Ho as (Hc & Hln & Hcm & Hn & Hle & Hin).
  unfold semiRsrv, position. rewrite bind_gets, bind_modify.
  change (commentsUpTo_r (run (S n))) with (commentsUpTo (run n)).
  rewrite (bind_Ok _ (commentsUpTo_none (run n) _
                        (set_level (add (level p) 1) p) Hcm)).
  rewrite bind_modify. fields. unfold add, sub.
  rewrite (wrap_up_down Hin).
  replace (set_level (level p) (set_level (wrap (level p + 1)) p)) with p
    by (destruct p; reflexivity).
  rewrite (bind_Ok _ (@didSeparate_same n _ p ln Ho Hpos)).
  cbn [negb andb].
  destruct (str_plain "; " Hw) as (p1 & E1 & Hw1 & Hl1).
  rewrite (bind_Ok _ E1).
  destruct (str_plain s Hw1) as (p2 & E2 & Hw2 & Hl2).
  rewrite (bind_Ok _ E2). unfold modify. eexists. split; [reflexivity|].
  fields. split; [rewrite Hw2, append_assoc; reflexivity|].
  split; [|reflexivity].
  apply (same_layout_trans Hl1). unfold same_layout in *. fields. exact Hl2.
Qed.

Lemma callOn_layout p q ln pos args :
  same_layout p q -> callOn (f p) ln pos args -> callOn (f q) ln pos args.
Proof. intros (-> & _) H. exact H. Qed.

(** A keyword, a condition, a second keyword, a body and a closing
    keyword, all on the current line. *)
Lemma clause_inline (n : nat) (kw1 kw2 kw3 : string) (cpos : Pos)
      (cargs : list Word) (mid bpos : Pos) (bargs : list Word) (last_ : Pos)
      p t ln :
  oneLine p ln ->
  callOn (f p) ln cpos cargs -> callOn (f p) ln bpos bargs ->
  allOn (f p) ln [mid; last_] ->
  w p = BytesBuffer t ->
  exists p',
    (spacedRsrv kw1 ;;
     cond (run (S (S n))) (StmtCond [simpleCall cpos cargs]) ;;
     semiOrNewl (run (S (S n))) kw2 mid ;;
     _ <- nestedStmts (run (S (S n))) [simpleCall bpos bargs] ;;
     semiRsrv (run (S (S n))) kw3 last_ true ;;
     ret O) p = Ok O p' /\
    w p' = BytesBuffer
             (t ++ (if wantSpace p then " " else "")
                ++ kw1 ++ joinFrom true cargs ++ "; " ++ kw2
                ++ joinFrom true bargs ++ "; " ++ kw3) /\
    same_layout p p'.
Proof.
  intros Ho Hc Hb Hps Hw.
  assert (Hmid : Line (File_Position (f p) mid) = ln)
    by (inversion Hps; assumption).
  assert (Hlast : Line (File_Position (f p) last_) = ln).
  { inversion Hps as [|? ? _ H]. inversion H. assumption. }
  destruct (spacedRsrv_plain kw1 p Hw) as (p1 & E1 & Hw1 & Hl1 & Hs1).
  rewrite (bind_Ok _ E1).
  destruct (@nested_inline n cpos cargs p1 _ ln (oneLine_layout Ho Hl1)
              (callOn_layout Hl1 Hc) Hw1) as (p2 & E2 & Hw2 & Hl2 & _).
  pose proof (same_layout_trans Hl1 Hl2) as Hl12.
  unfold cond. rewrite (bind_Ok _ (a:=tt) (p':=p2)).
  2:{ rewrite (bind_Ok _ E2). reflexivity. }
  assert (Hmid2 : Line (File_Position (f p2) mid) = ln).
  { destruct Hl12 as (-> & _). exact Hmid. }
  destruct (@semiOrNewl_inline (run (S (S n))) kw2 mid p2 _ ln
              (oneLine_layout Ho Hl12) Hmid2 Hw2)
    as (p3 & E3 & Hw3 & Hl3 & Hs3).
  rewrite (bind_Ok _ E3).
  pose proof (same_layout_trans Hl12 Hl3) as Hl13.
  destruct (@nested_inline n bpos bargs p3 _ ln (oneLine_layout Ho Hl13)
              (callOn_layout Hl13 Hb) Hw3) as (p4 & E4 & Hw4 & Hl4 & _).
  rewrite (bind_Ok _ E4).
  pose proof (same_layout_trans Hl13 Hl4) as Hl14.
  assert (Hlast4 : Line (File_Position (f p4) last_) = ln).
  { destruct Hl14 as (-> & _). exact Hlast. }
  destruct (@semiRsrv_inline (S n) kw3 last_ p4 _ ln
              (oneLine_layout Ho Hl14) Hlast4 Hw4)
    as (p5 & E5 & Hw5 & Hl5 & _).
  rewrite (bind_Ok _ E5). exists p5. split; [reflexivity|].
  split; [|exact (same_layout_trans Hl14 Hl5)].
  rewrite Hw5, Hs1, Hs3. rewrite !append_assoc. reflexivity.
Qed.

(** X21: an [if], a [while] or an [until] clause whose condition and body
    are one simple command each, and a block of one simple command, all on
    the line being printed, are printed on that line: the keywords, the
    commands after a space, and a semicolon and a space before [then],
    [do] and the closing keyword or brace.  The layout state is as
    before. *)
Theorem compound_one_line (n : nat) (p : printer) (t : string) (ln : int)
        (cpos : Pos) (cargs : list Word) (bpos : Pos) (bargs : list Word)
        (mid last_ : Pos) (redirs : list Redirect) :
  oneLine p ln ->
  callOn (f p) ln cpos cargs -> callOn (f p) ln bpos bargs ->
  allOn (f p) ln [mid; last_] ->
  w p = BytesBuffer t ->
  (exists p',
      command (run (S (S n)))
        (IfClause (StmtCond [simpleCall cpos cargs]) mid
                  [simpleCall bpos bargs] [] 0 [] last_) redirs p = Ok O p' /\
      w p' = BytesBuffer
               (t ++ (if wantSpace p then " " else "")
                  ++ "if" ++ joinFrom true cargs ++ "; then"
                  ++ joinFrom true bargs ++ "; fi") /\
      same_layout p p') /\
  (exists p',
      command (run (S (S n)))
        (WhileClause (StmtCond [simpleCall cpos cargs]) mid
                     [simpleCall bpos bargs] last_) redirs p = Ok O p' /\
      w p' = BytesBuffer
               (t ++ (if wantSpace p then " " else "")
                  ++ "while" ++ joinFrom true cargs ++ "; do"
                  ++ joinFrom true bargs ++ "; done") /\
      same_layout p p') /\
  (exists p',
      command (run (S (S n)))
        (UntilClause (StmtCond [simpleCall cpos cargs]) mid
                     [simpleCall bpos bargs] last_) redirs p = Ok O p' /\
      w p' = BytesBuffer
               (t ++ (if wantSpace p then " " else "")
                  ++ "until" ++ joinFrom true cargs ++ "; do"
                  ++ joinFrom true bargs ++ "; done") /\
      same_layout p p') /\
  (exists p',
      command (run (S (S n))) (Block [simpleCall bpos bargs] last_) redirs p
        = Ok O p' /\
      w p' = BytesBuffer
               (t ++ (if wantSpace p then " " else "")
                  ++ "{" ++ joinFrom true bargs ++ "; }") /\
      same_layout p p').
Proof.
  intros Ho Hc Hb Hps Hw.
  split; [|split; [|split]].
  - exact (@clause_inline n "if" "then" "fi" cpos cargs mid bpos bargs last_
             p t ln Ho Hc Hb Hps Hw).
  - exact (@clause_inline n "while" "do" "done" cpos cargs mid bpos bargs
             last_ p t ln Ho Hc Hb Hps Hw).
  - exact (@clause_inline n "until" "do" "done" cpos cargs mid bpos bargs
             last_ p t ln Ho Hc Hb Hps Hw).
  - assert (Hlast : Line (File_Position (f p) last_) = ln).
    { inversion Hps as [|? ? _ H]. inversion H. assumption. }
    unfold command.
    destruct (spacedRsrv_plain "{" p Hw) as (p1 & E1 & Hw1 & Hl1 & Hs1).
    rewrite (bind_Ok _ E1).
    destruct (@nested_inline n bpos bargs p1 _ ln (oneLine_layout Ho Hl1)
                (callOn_layout Hl1 Hb) Hw1) as (p2 & E2 & Hw2 & Hl2 & _).
    rewrite (bind_Ok _ E2).
    pose proof (same_layout_trans Hl1 Hl2) as Hl12.
    assert (Hlast2 : Line (File_Position (f p2) last_) = ln).
    { destruct Hl12 as (-> & _). exact Hlast. }
    destruct (@semiRsrv_inline (S n) "}" last_ p2 _ ln
                (oneLine_layout Ho Hl12) Hlast2 Hw2)
      as (p3 & E3 & Hw3 & Hl3 & _).
    rewrite (bind_Ok _ E3). exists p3. split; [reflexivity|].
    split; [|exact (same_layout_trans Hl12 Hl3)].
    rewrite Hw3, Hs1. rewrite !append_assoc. reflexivity.
Qed.

Lemma compound_one_line_witness :
  exists p',
    command (run 2)
      (IfClause (StmtCond [simpleCall 104 (litWords 104 ["a"])]) 107
                [simpleCall 112 (litWords 112 ["b"])] [] 0 [] 115) []
      (set_curLine 1 fresh_buffer) = Ok O p' /\
    w p' = BytesBuffer "if a; then b; fi".
Proof.
  destruct (@compound_one_line 0 (set_curLine 1 fresh_buffer) "" 1
              104 (litWords 104 ["a"]) 112 (litWords 112 ["b"]) 107 115 [])
    as ((p' & E & Hw & _) & _).
  - vm_compute. repeat split; try reflexivity; discriminate.
  - repeat split; reflexivity.
  - repeat split; reflexivity.
  - repeat constructor.
  - reflexivity.
  - exists p'. split; [exact E|exact Hw].
Defined.

(** ** A subshell that begins a subshell *)

Lemma same_line_refl p : same_line p p.
Proof. unfold same_line. tauto. Qed.

Lemma same_line_trans p q r : same_line p q -> same_line q r -> same_line p r.
Proof. unfold same_line. intuition congruence. Qed.

Lemma layout_line p q : same_layout p q -> same_line p q.
Proof.
  unfold same_layout, same_line. intros H.
  assert (levelIncs q = levelIncs p) as -> by tauto. tauto.
Qed.

Lemma lineState_line p q ln : lineState p ln -> same_line p q -> lineState q ln.
Proof.
  unfold lineState, same_line. intros H1 (_ & _ & Hc & Hcm & Hn & _).
  rewrite Hc, Hcm, Hn. exact H1.
Qed.

Lemma oneLine_lineState p ln : oneLine p ln -> lineState p ln.
Proof. unfold oneLine, lineState. tauto. Qed.

Lemma didSeparate_line (n : nat) (pos : Position) p ln :
  lineState p ln -> Line pos = ln ->
  didSeparate (run (S n)) pos p = Ok false p.
Proof.
  intros (Hc & Hln & Hcm & Hn) Hp. unfold didSeparate.
  change (commentsUpTo_r (run (S n))) with (commentsUpTo (run n)).
  rewrite (bind_Ok _ (commentsUpTo_none (run n) _ p Hcm)).
  rewrite !bind_gets, Hn, Hc, Hp.
  rewrite (@gtb_false ln ln) by lia. rewrite andb_false_r. cbn [orb].
  replace (ln =? 0) with false by (symmetry; apply Z.eqb_neq; lia).
  rewrite bind_modify. unfold ret. f_equal.
  rewrite <- Hc. destruct p; reflexivity.
Qed.

(** [incLevel] where it does not panic: a flag is pushed. *)
Lemma incLevel_pushes p :
  level p <= lastLevel p \/ levelIncs p <> [] ->
  exists lv init b,
    incLevel p = Ok tt (set_levelIncs (init ++ [b])%list (set_level lv p)) /\
    List.length init = List.length (levelIncs p).
Proof.
  intros Hsafe. unfold incLevel. rewrite !bind_gets.
  destruct (level p <=? lastLevel p) eqn:E.
  - exists (add (level p) 1), (levelIncs p), true. split; reflexivity.
  - assert (Hne : levelIncs p <> []).
    { destruct Hsafe as [H|H]; [|exact H].
      apply Z.leb_le in H. congruence. }
    rewrite bind_assoc_gets.
    pose proof (unsnoc_spec (levelIncs p)) as Hu.
    destruct (unsnoc (levelIncs p)) as [[init [|]]|]; [| |contradiction].
    + exists (level p), (init ++ [false])%list, true. split.
      * reflexivity.
      * rewrite Hu, !length_app. reflexivity.
    + exists (level p), (levelIncs p), false. split.
      * reflexivity.
      * reflexivity.
Qed.

(** [decLevel] on a stack that is not empty: the flag is popped. *)
Lemma decLevel_pops q init b :
  levelIncs q = (init ++ [b])%list ->
  exists lv, decLevel q = Ok tt (set_level lv (set_levelIncs init q)).
Proof.
  intros H. unfold decLevel. rewrite bind_gets, H, unsnoc_snoc, bind_modify.
  destruct b; cbn [when].
  - eexists. reflexivity.
  - exists (level q). reflexivity.
Qed.

Lemma length_snoc_inv {A} (l : list A) (k : nat) :
  List.length l = S k -> exists init b, l = (init ++ [b])%list /\
                                        List.length init = k.
Proof.
  intros H. pose proof (unsnoc_spec l) as Hu.
  destruct (unsnoc l) as [[init b]|].
  - exists init, b. split; [exact Hu|]. rewrite Hu, length_app in H.
    simpl in H. lia.
  - subst l. discriminate.
Qed.

(** [nestedStmts] around a list of statements that stays on the line. *)
Lemma nested_on_line (self : rec) (l : list Stmt) p t s (b ws : bool) :
  level p <= lastLevel p \/ levelIncs p <> [] ->
  (forall lv st, st <> [] ->
     exists q',
       stmts self l (set_levelIncs st (set_level lv p)) = Ok b q' /\
       w q' = BytesBuffer (t ++ s) /\
       same_line (set_levelIncs st (set_level lv p)) q' /\
       wantSpace q' = ws) ->
  exists p',
    nestedStmts self l p = Ok b p' /\
    w p' = BytesBuffer (t ++ s) /\ same_line p p' /\ wantSpace p' = ws.
Proof.
  intros Hsafe Hst. unfold nestedStmts.
  destruct (incLevel_pushes p Hsafe) as (lv & init & b0 & E1 & Hlen).
  rewrite (bind_Ok _ E1).
  destruct (Hst lv (init ++ [b0])%list) as (q' & E2 & Hw2 & Hl2 & Hs2).
  { destruct init; discriminate. }
  rewrite (bind_Ok _ E2).
  assert (Hq : List.length (levelIncs q') = S (List.length init)).
  { destruct Hl2 as (_ & _ & _ & _ & _ & _ & _ & Hl2). rewrite Hl2.
    cbn [levelIncs set_levelIncs]. rewrite length_app. simpl. lia. }
  destruct (@length_snoc_inv _ _ _ Hq) as (init' & b' & Hi' & Hlen').
  destruct (@decLevel_pops q' init' b' Hi') as (lv' & E3).
  rewrite (bind_Ok _ E3). eexists. split; [reflexivity|].
  cbn [w wantSpace set_level set_levelIncs]. split; [exact Hw2|].
  split; [|exact Hs2].
  unfold same_line in *.
  cbn [f c curLine comments wantNewline pendingHdocs lastLevel levelIncs
       set_level set_levelIncs] in *.
  rewrite Hlen', Hlen. tauto.
Qed.

Lemma spacedTok_layout s b p t :
  w p = BytesBuffer t ->
  exists p',
    spacedTok s b p = Ok tt p' /\
    w p' = BytesBuffer (t ++ (if wantSpace p then " " else "") ++ s) /\
    same_layout p p' /\ wantSpace p' = b.
Proof.
  intros Hw. unfold spacedTok. rewrite bind_gets.
  assert (H1 : exists p1, when (wantSpace p) space p = Ok tt p1 /\
                 w p1 = BytesBuffer (t ++ if wantSpace p then " " else "") /\
                 same_layout p p1).
  { destruct (wantSpace p); cbn [when].
    - apply space_plain. exact Hw.
    - exists p. rewrite append_nil_r. auto using same_layout_refl. }
  destruct H1 as (p1 & E1 & Hw1 & Hl1). rewrite (bind_Ok _ E1), bind_modify.
  assert (Hw1' : w (set_wantSpace b p1)
                 = BytesBuffer (t ++ if wantSpace p then " " else ""))
    by exact Hw1.
  rewrite (str_buffer s Hw1'). eexists. split; [reflexivity|].
  cbn [w wantSpace set_w set_err set_wantSpace].
  split; [rewrite append_assoc; reflexivity|]. split; [|reflexivity].
  apply (same_layout_trans Hl1). unfold same_layout.
  cbn [f c nestedBinary wantNewline wantSpaces curLine lastLevel level
       levelIncs comments pendingHdocs set_w set_err set_wantSpace]. tauto.
Qed.

(** A closing token on the line being printed. *)
Lemma sepTok_line (n : nat) s (pos : Position) p t ln :
  lineState p ln -> Line pos = ln ->
  w p = BytesBuffer t ->
  exists p',
    sepTok (run (S n)) s pos p = Ok tt p' /\
    w p' = BytesBuffer
             (t ++ (if negb (String.eqb s ")") && wantSpace p then " " else "")
                ++ s) /\
    same_line p p' /\ wantSpace p' = true.
Proof.
  intros Hl Hpos Hw. pose proof Hl as (Hc & Hln & Hcm & Hn).
  unfold sepTok. rewrite bind_modify.
  change (commentsUpTo_r (run (S n))) with (commentsUpTo (run n)).
  rewrite (bind_Ok _ (commentsUpTo_none (run n) _
                        (set_level (add (level p) 1) p) Hcm)).
  rewrite bind_modify.
  set (pa := set_level (sub (level (set_level (add (level p) 1) p)) 1)
               (set_level (add (level p) 1) p)).
  assert (Hla : lineState pa ln) by exact Hl.
  rewrite (bind_Ok _ (@didSeparate_line n pos pa ln Hla Hpos)).
  rewrite bind_gets. change (wantSpace pa) with (wantSpace p).
  assert (Hwa : w pa = BytesBuffer t) by exact Hw.
  assert (H1 : exists p1,
    when (negb (String.eqb s ")") && wantSpace p) space pa = Ok tt p1 /\
    w p1 = BytesBuffer
             (t ++ if negb (String.eqb s ")") && wantSpace p then " " else "") /\
    same_layout pa p1).
  { destruct (negb (String.eqb s ")") && wantSpace p); cbn [when].
    - apply space_plain. exact Hwa.
    - exists pa. rewrite append_nil_r. auto using same_layout_refl. }
  destruct H1 as (p1 & E1 & Hw1 & Hl1). rewrite (bind_Ok _ E1).
  rewrite (bind_Ok _ (str_buffer s Hw1)). unfold modify.
  eexists. split; [reflexivity|].
  cbn [w wantSpace set_w set_err set_wantSpace].
  split; [rewrite append_assoc; reflexivity|]. split; [|reflexivity].
  apply layout_line in Hl1. unfold same_line in *.
  cbn [f c curLine comments wantNewline pendingHdocs lastLevel levelIncs
       set_w set_err set_wantSpace] in *.
  unfold pa in Hl1.
  cbn [f c curLine comments wantNewline pendingHdocs lastLevel levelIncs
       set_level] in Hl1. exact Hl1.
Qed.

(** A list of one statement that starts on the current line. *)
Lemma stmts_single (n : nat) (st : Stmt) p ln :
  lineState p ln -> Line (File_Position (f p) (Stmt_pos st)) = ln ->
  stmts (run (S n)) [st] p = (stmt (run n) st ;; ret false) p.
Proof.
  intros Hl Hpos. pose proof Hl as (Hc & _).
  unfold stmts, position. rewrite !bind_gets, Hpos, Hc, Z.eqb_refl.
  cbn [andb].
  rewrite (bind_Ok _ (@didSeparate_line n _ p ln Hl Hpos)). reflexivity.
Qed.

(** A nested list of one simple command on the line. *)
Lemma nested_call_line (n : nat) (pos : Pos) (args : list Word) p t ln :
  lineState p ln ->
  level p <= lastLevel p \/ levelIncs p <> [] ->
  callOn (f p) ln pos args ->
  w p = BytesBuffer t ->
  exists p',
    nestedStmts (run (S (S n))) [simpleCall pos args] p = Ok false p' /\
    w p' = BytesBuffer (t ++ joinFrom (wantSpace p) args) /\
    same_line p p' /\
    wantSpace p' = match args with [] => wantSpace p | _ => true end.
Proof.
  intros Hl Hsafe (Hpos & Hon & Hsw) Hw.
  apply nested_on_line; [exact Hsafe|]. intros lv st _.
  set (q := set_levelIncs st (set_level lv p)).
  assert (Hlq : lineState q ln) by exact Hl.
  rewrite (@stmts_single (S n) (simpleCall pos args) q ln Hlq Hpos).
  assert (Honq : onLine (f q) (curLine q) args = true).
  { change (f q) with (f p). change (curLine q) with (curLine p).
    destruct Hl as (-> & _). exact Hon. }
  assert (Hwq : w q = BytesBuffer t) by exact Hw.
  destruct (@stmt_simpleCall n pos args q t Honq Hwq Hsw)
    as (q' & E & Hw' & Hl' & Hs').
  rewrite (bind_Ok _ E). exists q'. split; [reflexivity|].
  split; [exact Hw'|]. split; [exact (layout_line Hl')|exact Hs'].
Qed.

(** A subshell of one simple command, as a statement on the line. *)
Lemma subshell_stmt_line (n : nat) (ipos cpos : Pos) (cargs : list Word)
      (irparen : Pos) p t ln :
  lineState p ln ->
  level p <= lastLevel p \/ levelIncs p <> [] ->
  callOn (f p) ln cpos cargs ->
  Line (File_Position (f p) irparen) = ln ->
  w p = BytesBuffer t ->
  exists p',
    stmt (run (S (S n))) (subshellStmt ipos cpos cargs irparen) p = Ok tt p' /\
    w p' = BytesBuffer
             (t ++ (if wantSpace p then " " else "")
                ++ "(" ++ joinFrom false cargs ++ ")") /\
    same_line p p' /\ wantSpace p' = true.
Proof.
  intros Hl Hsafe Hc Hrp Hw. unfold subshellStmt, stmt. cbn [when].
  rewrite bind_ret.
  change (assigns (run (S (S n))) []) with
    (anyNewline <- ret false ;; when anyNewline decLevel).
  rewrite (bind_Ok _ (a:=tt) (p':=p)) by reflexivity.
  assert (HC : exists p',
    command (run (S (S n))) (Subshell [simpleCall cpos cargs] irparen) [] p
      = Ok O p' /\
    w p' = BytesBuffer
             (t ++ (if wantSpace p then " " else "")
                ++ "(" ++ joinFrom false cargs ++ ")") /\
    same_line p p' /\ wantSpace p' = true).
  { unfold command. cbn [startsWithLparen simpleCall Stmt_Cmd when].
    destruct (spacedTok_layout "(" false p Hw) as (p1 & E1 & Hw1 & Hl1 & Hs1).
    rewrite (bind_Ok _ E1), bind_ret.
    pose proof (layout_line Hl1) as Hl1'.
    assert (Hsafe1 : level p1 <= lastLevel p1 \/ levelIncs p1 <> []).
    { unfold same_layout in Hl1.
      assert (level p1 = level p) as -> by tauto.
      assert (lastLevel p1 = lastLevel p) as -> by tauto.
      assert (levelIncs p1 = levelIncs p) as -> by tauto. exact Hsafe. }
    assert (Hc1 : callOn (f p1) ln cpos cargs).
    { destruct Hl1 as (-> & _). exact Hc. }
    destruct (@nested_call_line n cpos cargs p1 _ ln
                (lineState_line Hl Hl1') Hsafe1 Hc1 Hw1)
      as (p2 & E2 & Hw2 & Hl2 & _).
    fold (simpleCall cpos cargs). rewrite (bind_Ok _ E2).
    pose proof (same_line_trans Hl1' Hl2) as Hl12.
    unfold position. rewrite bind_gets.
    assert (Hrp2 : Line (File_Position (f p2) irparen) = ln).
    { destruct Hl12 as (-> & _). exact Hrp. }
    destruct (@sepTok_line (S n) ")" _ p2 _ ln (lineState_line Hl Hl12)
                Hrp2 Hw2) as (p3 & E3 & Hw3 & Hl3 & Hs3).
    rewrite (bind_Ok _ E3). exists p3. split; [reflexivity|].
    split; [|split; [exact (same_line_trans Hl12 Hl3)|exact Hs3]].
    rewrite Hw3, Hs1. cbn [String.eqb Ascii.eqb negb andb].
    rewrite !append_assoc. reflexivity. }
  destruct HC as (p' & E & Hw' & Hl' & Hs').
  rewrite (bind_Ok _ E). cbn [skipn foldM]. rewrite bind_ret.
  cbn [when]. exists p'. auto.
Qed.

Lemma nested_subshell_line (n : nat) (ipos cpos : Pos) (cargs : list Word)
      (irparen : Pos) p t ln :
  lineState p ln ->
  level p <= lastLevel p \/ levelIncs p <> [] ->
  wantSpace p = false ->
  callOn (f p) ln cpos cargs ->
  allOn (f p) ln [ipos; irparen] ->
  w p = BytesBuffer t ->
  exists p',
    nestedStmts (run (S (S (S n)))) [subshellStmt ipos cpos cargs irparen] p
      = Ok false p' /\
    w p' = BytesBuffer (t ++ "(" ++ joinFrom false cargs ++ ")") /\
    same_line p p' /\ wantSpace p' = true.
Proof.
  intros Hl Hsafe Hs Hc Hps Hw.
  assert (Hip : Line (File_Position (f p) ipos) = ln)
    by (inversion Hps; assumption).
  assert (Hrp : Line (File_Position (f p) irparen) = ln).
  { inversion Hps as [|? ? _ H]. inversion H. assumption. }
  apply nested_on_line; [exact Hsafe|]. intros lv st Hst.
  set (q := set_levelIncs st (set_level lv p)).
  assert (Hlq : lineState q ln) by exact Hl.
  rewrite (@stmts_single (S (S n)) (subshellStmt ipos cpos cargs irparen)
             q ln Hlq Hip).
  assert (Hwq : w q = BytesBuffer t) by exact Hw.
  destruct (@subshell_stmt_line n ipos cpos cargs irparen q t ln Hlq
              (or_intror Hst) Hc Hrp Hwq) as (q' & E & Hw' & Hl' & Hs').
  rewrite (bind_Ok _ E). exists q'. split; [reflexivity|].
  split; [|split; [exact Hl'|exact Hs']].
  rewrite Hw'. change (wantSpace q) with (wantSpace p). rewrite Hs.
  reflexivity.
Qed.

(** X15: where a subshell or a command substitution begins with a
    subshell, a space is put after its opening, so that the two opening
    parentheses do not read as the start of an arithmetic expression.  A
    subshell of one simple command, inside a subshell or inside a command
    substitution on the line being printed, is printed in full as
    [( (cmd))], [$( (cmd))] and, with backquotes, [` (cmd)`]; and whatever
    the statements after the first subshell are, what such a subshell or
    substitution has written when it returns begins with the opening and
    the space. *)
Theorem lparen_spaced (n : nat) (p : printer) (t : string) (ln : int)
        (ipos cpos : Pos) (cargs : list Word) (irparen rparen pos : Pos)
        (redirs : list Redirect) :
  oneLine p ln ->
  callOn (f p) ln cpos cargs ->
  allOn (f p) ln [ipos; irparen; rparen] ->
  w p = BytesBuffer t ->
  (exists p',
      command (run (S (S (S n))))
        (Subshell [subshellStmt ipos cpos cargs irparen] rparen) redirs p
        = Ok O p' /\
      w p' = BytesBuffer
               (t ++ (if wantSpace p then " " else "")
                  ++ "( (" ++ joinFrom false cargs ++ "))")) /\
  (exists p',
      wordPart (run (S (S (S n))))
        (CmdSubst pos false [subshellStmt ipos cpos cargs irparen] rparen) p
        = Ok tt p' /\
      w p' = BytesBuffer (t ++ "$( (" ++ joinFrom false cargs ++ "))")) /\
  (exists p',
      wordPart (run (S (S (S n))))
        (CmdSubst pos true [subshellStmt ipos cpos cargs irparen] rparen) p
        = Ok tt p' /\
      w p' = BytesBuffer (t ++ "` (" ++ joinFrom false cargs ++ ")`")) /\
  (forall m sts rparen' redirs' k p',
      startsWithLparen sts = true ->
      command (run m) (Subshell sts rparen') redirs' p = Ok k p' ->
      exists y, w p' = BytesBuffer
                         (t ++ (if wantSpace p then " " else "") ++ "( " ++ y))
  /\
  (forall m pos' backquotes sts right_ p',
      startsWithLparen sts = true ->
      wordPart (run m) (CmdSubst pos' backquotes sts right_) p = Ok tt p' ->
      exists y, w p' = BytesBuffer
                         (t ++ (if backquotes then "` " else "$( ") ++ y)).
Proof.
  intros Ho Hc Hps Hw.
  pose proof (oneLine_lineState Ho) as Hl.
  assert (Hsafe : level p <= lastLevel p \/ levelIncs p <> [])
    by (left; unfold oneLine in Ho; tauto).
  assert (Hps2 : allOn (f p) ln [ipos; irparen]).
  { inversion Hps as [|? ? Ha Hr]. inversion Hr as [|? ? Hb _].
    repeat constructor; assumption. }
  assert (Hrp : Line (File_Position (f p) rparen) = ln).
  { inversion Hps as [|? ? _ Hr]. inversion Hr as [|? ? _ Hr']. inversion Hr'.
    assumption. }
  (* the nested subshell, from a state [q] on the line *)
  assert (Hnest : forall q u,
    same_layout p q -> w q = BytesBuffer u -> wantSpace q = false ->
    exists q1,
      nestedStmts (run (S (S (S n)))) [subshellStmt ipos cpos cargs irparen] q
        = Ok false q1 /\
      w q1 = BytesBuffer (u ++ "(" ++ joinFrom false cargs ++ ")") /\
      lineState q1 ln /\ Line (File_Position (f q1) rparen) = ln /\
      wantSpace q1 = true).
  { intros q u Hlq Hwq Hsq.
    pose proof (layout_line Hlq) as Hlq'.
    assert (Hfq : f q = f p) by (destruct Hlq; assumption).
    assert (Hsafeq : level q <= lastLevel q \/ levelIncs q <> []).
    { unfold same_layout in Hlq.
      assert (level q = level p) as -> by tauto.
      assert (lastLevel q = lastLevel p) as -> by tauto.
      assert (levelIncs q = levelIncs p) as -> by tauto. exact Hsafe. }
    assert (Hcq : callOn (f q) ln cpos cargs) by (rewrite Hfq; exact Hc).
    assert (Hpq : allOn (f q) ln [ipos; irparen]) by (rewrite Hfq; exact Hps2).
    destruct (@nested_subshell_line n ipos cpos cargs irparen q u ln
                (lineState_line Hl Hlq') Hsafeq Hsq Hcq Hpq Hwq)
      as (q1 & E1 & Hw1 & Hl1 & Hs1).
    exists q1. split; [exact E1|]. split; [exact Hw1|].
    pose proof (same_line_trans Hlq' Hl1) as Hl01.
    split; [exact (lineState_line Hl Hl01)|]. split; [|exact Hs1].
    destruct Hl01 as (-> & _). exact Hrp. }
  assert (Hspace : forall q u, w q = BytesBuffer u ->
    exists q2, space q = Ok tt q2 /\ w q2 = BytesBuffer (u ++ " ") /\
               same_layout q q2 /\ wantSpace q2 = false).
  { intros q u Hq. destruct (space_plain Hq) as (q2 & E2 & Hw2 & Hl2).
    exists q2. split; [exact E2|]. split; [exact Hw2|]. split; [exact Hl2|].
    unfold space in E2. apply bind_inv in E2 as (? & ? & _ & E2).
    apply modify_inv in E2. subst q2. reflexivity. }
  split; [|split; [|split; [|split]]].
  - unfold command. cbn [startsWithLparen subshellStmt Stmt_Cmd when].
    fold (subshellStmt ipos cpos cargs irparen).
    destruct (spacedTok_layout "(" false p Hw) as (p1 & E1 & Hw1 & Hl1 & Hs1).
    rewrite (bind_Ok _ E1).
    destruct (Hspace p1 _ Hw1) as (p2 & E2 & Hw2 & Hl2 & Hs2).
    rewrite (bind_Ok _ E2).
    destruct (Hnest p2 _ (same_layout_trans Hl1 Hl2) Hw2 Hs2)
      as (q1 & E3 & Hw3 & Hl3 & Hrp3 & Hs3).
    rewrite (bind_Ok _ E3). unfold position. rewrite bind_gets.
    destruct (@sepTok_line (S (S n)) ")" _ q1 _ ln Hl3 Hrp3 Hw3)
      as (q2 & E4 & Hw4 & _).
    rewrite (bind_Ok _ E4). exists q2. split; [reflexivity|].
    rewrite Hw4. cbn [String.eqb Ascii.eqb negb andb].
    rewrite !append_assoc. reflexivity.
  - unfold wordPart. cbn [startsWithLparen subshellStmt Stmt_Cmd when].
    fold (subshellStmt ipos cpos cargs irparen).
    assert (Hw0 : w (set_wantSpace false p) = BytesBuffer t) by exact Hw.
    destruct (str_plain "$(" Hw0) as (p1 & E1 & Hw1 & Hl1).
    destruct (Hspace p1 _ Hw1) as (p2 & E2 & Hw2 & Hl2 & Hs2).
    assert (Hl02 : same_layout p p2).
    { apply (@same_layout_trans p (set_wantSpace false p)).
      - unfold same_layout. cbn. tauto.
      - exact (same_layout_trans Hl1 Hl2). }
    destruct (Hnest p2 _ Hl02 Hw2 Hs2) as (q1 & E3 & Hw3 & Hl3 & Hrp3 & Hs3).
    destruct (@sepTok_line (S (S n)) ")" _ q1 _ ln Hl3 Hrp3 Hw3)
      as (q2 & E4 & Hw4 & _).
    rewrite (bind_Ok _ (a:=tt) (p':=q2)).
    2:{ rewrite bind_modify, (bind_Ok _ E1), (bind_Ok _ E2), (bind_Ok _ E3).
        unfold position. rewrite bind_gets. exact E4. }
    unfold modify. eexists. split; [reflexivity|].
    cbn [w set_wantSpace]. rewrite Hw4.
    cbn [String.eqb Ascii.eqb negb andb]. rewrite !append_assoc. reflexivity.
  - unfold wordPart. cbn [startsWithLparen subshellStmt Stmt_Cmd when].
    fold (subshellStmt ipos cpos cargs irparen).
    assert (Hw0 : w (set_wantSpace false p) = BytesBuffer t) by exact Hw.
    destruct (byte_plain "`" Hw0) as (p1 & E1 & Hw1 & Hl1).
    destruct (Hspace p1 _ Hw1) as (p2 & E2 & Hw2 & Hl2 & Hs2).
    assert (Hl02 : same_layout p p2).
    { apply (@same_layout_trans p (set_wantSpace false p)).
      - unfold same_layout. cbn. tauto.
      - exact (same_layout_trans Hl1 Hl2). }
    destruct (Hnest p2 _ Hl02 Hw2 Hs2) as (q1 & E3 & Hw3 & Hl3 & Hrp3 & Hs3).
    assert (Hl3' : lineState (set_wantSpace false q1) ln) by exact Hl3.
    assert (Hw3' : w (set_wantSpace false q1)
                   = BytesBuffer (((t ++ "`") ++ " ")
                                    ++ "(" ++ joinFrom false cargs ++ ")"))
      by exact Hw3.
    destruct (@sepTok_line (S (S n)) "`" _ (set_wantSpace false q1) _ ln
                Hl3' Hrp3 Hw3') as (q2 & E4 & Hw4 & _).
    rewrite (bind_Ok _ (a:=tt) (p':=q2)).
    2:{ rewrite bind_modify, (bind_Ok _ E1), (bind_Ok _ E2), (bind_Ok _ E3).
        unfold position. rewrite bind_gets, bind_modify. exact E4. }
    unfold modify. eexists. split; [reflexivity|].
    cbn [w set_wantSpace]. rewrite Hw4.
    cbn [wantSpace set_wantSpace andb]. rewrite andb_false_r.
    rewrite !append_assoc. reflexivity.
  - intros m sts rparen' redirs' k p' Hs H. unfold command in H.
    rewrite Hs in H. cbn [when] in H.
    destruct (@spacedTok_plain "(" false _ _ Hw) as (p1 & E1 & Hw1).
    rewrite (bind_Ok _ E1) in H.
    destruct (space_plain Hw1) as (p2 & E2 & Hw2 & _).
    rewrite (bind_Ok _ E2) in H.
    apply bind_inv in H as (sep & q1 & H1 & H).
    apply bind_inv in H as (rp & q2 & H2 & H).
    apply bind_inv in H as ([] & q3 & H3 & H).
    inversion H. subst q3 k. clear H.
    assert (E : (_ <- nestedStmts (run m) sts ;;
                 rp <- position rparen' ;;
                 if false then
                   modify (set_wantSpace false) ;; sepTok (run m) "`" rp
                 else sepTok (run m) ")" rp) p2
                = Ok tt p').
    { rewrite (bind_Ok _ H1), (bind_Ok _ H2). exact H3. }
    eapply appends_only in E as [y Hy];
      [|apply (@nested_close_pre m _ sts rparen' false)|exact Hw2].
    exists y. rewrite Hy. rewrite !append_assoc. reflexivity.
  - intros m pos' backquotes sts right_ p' Hs H. unfold wordPart in H.
    apply bind_inv in H as ([] & q & H & Hm).
    apply modify_inv in Hm. subst p'. rewrite Hs in H. cbn [when] in H.
    rewrite bind_modify in H.
    assert (Hw0 : w (set_wantSpace false p) = BytesBuffer t) by exact Hw.
    assert (H1 : exists p1,
      (if backquotes then byte "`" else str "$(") (set_wantSpace false p)
        = Ok tt p1 /\
      w p1 = BytesBuffer (t ++ if backquotes then "`" else "$(")).
    { destruct backquotes.
      - destruct (byte_plain "`" Hw0) as (p1 & E1 & Hw1 & _). eauto.
      - destruct (str_plain "$(" Hw0) as (p1 & E1 & Hw1 & _). eauto. }
    destruct H1 as (p1 & E1 & Hw1). rewrite (bind_Ok _ E1) in H.
    destruct (space_plain Hw1) as (p2 & E2 & Hw2 & _).
    rewrite (bind_Ok _ E2) in H.
    eapply appends_only in H as [y Hy];
      [|apply (@nested_close_pre m _ sts right_ backquotes)|exact Hw2].
    exists y. cbn [w set_wantSpace]. rewrite Hy.
    destruct backquotes; rewrite !append_assoc; reflexivity.
Qed.

Lemma lparen_spaced_witness :
  exists p',
    command (run 3)
      (Subshell [subshellStmt 103 104 (litWords 104 ["a"]) 105] 106) []
      (set_curLine 1 fresh_buffer) = Ok O p' /\
    w p' = BytesBuffer "( (a))".
Proof.
  destruct (@lparen_spaced 0 (set_curLine 1 fresh_buffer) "" 1
              103 104 (litWords 104 ["a"]) 105 106 101 [])
    as ((p' & E & Hw) & _).
  - vm_compute. repeat split; try reflexivity; discriminate.
  - repeat split; reflexivity.
  - repeat constructor.
  - reflexivity.
  - exists p'. split; [exact E|exact Hw].
Defined.

(** ** Heredocs in their place *)

(** A redirection on the line being printed. *)
Lemma stmt_redir_line (n : nat) (any : bool) (r : Redirect) p t ln :
  lineState p ln -> redirOn (f p) ln r ->
  w p = BytesBuffer t ->
  exists p',
    stmt_redir (run (S n)) any r p = Ok any p' /\
    w p' = BytesBuffer (t ++ (if wantSpace p then " " else "") ++ redirText r) /\
    pendingHdocs p'
      = (pendingHdocs p ++ heredocsOf [r])%list /\
    wantSpace p' = true /\
    same_layout (set_pendingHdocs (pendingHdocs p') p) p'.
Proof.
  intros Hl (Hpos & Hsw) Hw. pose proof Hl as (Hc & Hln & Hcm & Hn).
  unfold stmt_redir, position. rewrite !bind_gets, Hpos, Hc.
  rewrite (@gtb_false ln ln) by lia. rewrite andb_false_r, bind_ret.
  rewrite (bind_Ok _ (@didSeparate_line n _ p ln Hl Hpos)).
  rewrite bind_gets.
  assert (H1 : exists p1, when (wantSpace p) space p = Ok tt p1 /\
                 w p1 = BytesBuffer (t ++ if wantSpace p then " " else "") /\
                 same_layout p p1).
  { destruct (wantSpace p); cbn [when].
    - apply space_plain. exact Hw.
    - exists p. rewrite append_nil_r. auto using same_layout_refl. }
  destruct H1 as (p1 & E1 & Hw1 & Hl1). rewrite (bind_Ok _ E1).
  assert (H2 : exists p2,
    match Redirect_N r with Some d => str (Value d) | None => ret tt end p1
      = Ok tt p2 /\
    w p2 = BytesBuffer
             ((t ++ if wantSpace p then " " else "")
                ++ match Redirect_N r with Some d => Value d | None => "" end)
    /\ same_layout p1 p2).
  { destruct (Redirect_N r) as [d|].
    - apply str_plain. exact Hw1.
    - exists p1. rewrite append_nil_r. auto using same_layout_refl. }
  destruct H2 as (p2 & E2 & Hw2 & Hl2). rewrite (bind_Ok _ E2).
  destruct (str_plain (redirectOp (Redirect_Op r)) Hw2)
    as (p3 & E3 & Hw3 & Hl3).
  rewrite (bind_Ok _ E3), bind_modify.
  unfold simpleWord in Hsw.
  destruct (Word_Parts (Redirect_Word r)) as [|wp0 parts0] eqn:Ep;
    [discriminate|].
  assert (Hw3' : w (set_wantSpace true p3)
                 = BytesBuffer
                     (((t ++ if wantSpace p then " " else "")
                         ++ match Redirect_N r with
                            | Some d => Value d | None => "" end)
                        ++ redirectOp (Redirect_Op r))) by exact Hw3.
  destruct (@forM_lits_space n (wp0 :: parts0) (set_wantSpace true p3) _
              Hsw Hw3') as (p4 & E4 & Hw4 & Hl4 & Hs4).
  unfold word. rewrite Ep, (bind_Ok _ E4).
  assert (Hl04 : same_layout p p4).
  { apply (same_layout_trans Hl1). apply (same_layout_trans Hl2).
    apply (same_layout_trans Hl3).
    apply (@same_layout_trans p3 (set_wantSpace true p3)); [|exact Hl4].
    unfold same_layout. cbn. tauto. }
  assert (Hq4 : pendingHdocs p4 = pendingHdocs p)
    by (unfold same_layout in Hl04; tauto).
  assert (Htxt : w p4 = BytesBuffer
                   (t ++ (if wantSpace p then " " else "") ++ redirText r)).
  { rewrite Hw4. unfold redirText, wordText. rewrite Ep.
    rewrite !append_assoc. reflexivity. }
  unfold heredocsOf. cbn [filter].
  destruct (isHeredoc (Redirect_Op r)); cbn [when].
  - rewrite bind_modify. eexists. split; [reflexivity|].
    cbn [w pendingHdocs wantSpace set_pendingHdocs].
    split; [exact Htxt|]. split; [rewrite Hq4; reflexivity|].
    split; [exact Hs4|].
    unfold same_layout in *.
    cbn [f c nestedBinary wantNewline wantSpaces curLine lastLevel level
         levelIncs comments pendingHdocs set_pendingHdocs]. tauto.
  - rewrite bind_ret. exists p4. split; [reflexivity|].
    split; [exact Htxt|]. split; [rewrite Hq4, app_nil_r; reflexivity|].
    split; [exact Hs4|].
    unfold same_layout in *.
    cbn [f c nestedBinary wantNewline wantSpaces curLine lastLevel level
         levelIncs comments pendingHdocs set_pendingHdocs]. tauto.
Qed.

Lemma lineState_layout p q ln : lineState p ln -> same_layout p q -> lineState q ln.
Proof. intros H1 H2. exact (lineState_line H1 (layout_line H2)). Qed.

(** The redirections of a statement, all on the line being printed: the
    heredocs among them join the queue in their order. *)
Lemma redirs_line (n : nat) (rs : list Redirect) : forall (any : bool) p t ln,
  lineState p ln -> Forall (redirOn (f p) ln) rs ->
  w p = BytesBuffer t ->
  exists p',
    foldM (stmt_redir (run (S n))) any rs p = Ok any p' /\
    w p' = BytesBuffer (t ++ redirsText (wantSpace p) rs) /\
    pendingHdocs p' = (pendingHdocs p ++ heredocsOf rs)%list /\
    wantSpace p' = match rs with [] => wantSpace p | _ => true end /\
    same_layout (set_pendingHdocs (pendingHdocs p') p) p'.
Proof.
  induction rs as [|r rs IH]; intros any p t ln Hl Hall Hw.
  - exists p. cbn [foldM redirsText heredocsOf filter].
    rewrite append_nil_r, app_nil_r. split; [reflexivity|].
    split; [exact Hw|]. split; [reflexivity|]. split; [reflexivity|].
    unfold same_layout. cbn. tauto.
  - inversion Hall as [|r0 rs0 Hr Hrs]. subst r0 rs0.
    destruct (@stmt_redir_line n any r p t ln Hl Hr Hw)
      as (p1 & E1 & Hw1 & Hq1 & Hs1 & Hl1).
    cbn [foldM]. rewrite (bind_Ok _ E1).
    assert (Hf1 : f p1 = f p) by (destruct Hl1 as (H & _); exact H).
    assert (Hl1' : lineState p1 ln).
    { apply (@lineState_layout (set_pendingHdocs (pendingHdocs p1) p) p1 ln);
        [exact Hl|exact Hl1]. }
    assert (Hall1 : Forall (redirOn (f p1) ln) rs) by (rewrite Hf1; exact Hrs).
    destruct (IH any p1 _ ln Hl1' Hall1 Hw1)
      as (p2 & E2 & Hw2 & Hq2 & Hs2 & Hl2).
    exists p2. split; [exact E2|]. split.
    { rewrite Hw2, Hs1. cbn [redirsText]. rewrite !append_assoc. reflexivity. }
    split.
    { rewrite Hq2, Hq1. unfold heredocsOf. cbn [filter].
      destruct (isHeredoc (Redirect_Op r));
        rewrite <- app_assoc; reflexivity. }
    split; [destruct rs; [rewrite Hs2; exact Hs1|exact Hs2]|].
    unfold same_layout in *.
    cbn [f c nestedBinary wantNewline wantSpaces curLine lastLevel level
         levelIncs comments pendingHdocs set_pendingHdocs] in *.
    intuition congruence.
Qed.

Lemma heredocsOf_all (rs : list Redirect) :
  forallb (fun r => isHeredoc (Redirect_Op r)) rs = true -> heredocsOf rs = rs.
Proof.
  unfold heredocsOf. induction rs as [|r rs IH]; [reflexivity|].
  cbn [forallb filter]. intros H. apply andb_true_iff in H as [-> H].
  rewrite (IH H). reflexivity.
Qed.

(** The words of a call whose redirections begin with a heredoc, or that
    has none: no redirection is printed among the words. *)
Lemma command_call_hdocs (n : nat) (args : list Word) (rs : list Redirect)
      p t :
  onLine (f p) (curLine p) args = true ->
  w p = BytesBuffer t ->
  forallb simpleWord args = true ->
  match rs with [] => True | r :: _ => isHeredoc (Redirect_Op r) = true end ->
  exists p',
    command (run (S n)) (CallExpr args) rs p = Ok O p' /\
    w p' = BytesBuffer (t ++ joinFrom (wantSpace p) args) /\
    same_layout p p' /\
    wantSpace p' = match args with [] => wantSpace p | _ => true end.
Proof.
  intros Hc Hw Hall Hrs. unfold command.
  destruct args as [|a0 [|a1 more]].
  - destruct (wordJoin_simple n true [] p Hc Hw Hall) as (p' & E & Hw' & Hl & Hs).
    rewrite (bind_Ok _ E). exists p'. split; [reflexivity|]. auto.
  - destruct (wordJoin_simple n true [a0] p Hc Hw Hall)
      as (p' & E & Hw' & Hl & Hs).
    rewrite (bind_Ok _ E). exists p'. split; [reflexivity|]. auto.
  - simpl in Hall. apply andb_true_iff in Hall as [H0 Hall].
    simpl in Hc. apply andb_true_iff in Hc as [Hc0 Hc].
    assert (Hc0' : onLine (f p) (curLine p) [a0] = true).
    { simpl. rewrite Hc0. reflexivity. }
    assert (H0' : forallb simpleWord [a0] = true).
    { simpl. rewrite H0. reflexivity. }
    destruct (wordJoin_simple n true [a0] p Hc0' Hw H0')
      as (p1 & E1 & Hw1 & Hl1 & Hs1).
    assert (Hc1 : onLine (f p1) (curLine p1) (a1 :: more) = true).
    { unfold same_layout in Hl1.
      assert (f p1 = f p) as -> by tauto.
      assert (curLine p1 = curLine p) as -> by tauto. exact Hc. }
    destruct (wordJoin_simple n true (a1 :: more) p1 Hc1 Hw1 Hall)
      as (p2 & E2 & Hw2 & Hl2 & Hs2).
    assert (Er : command_redirs (run (S n)) (Word_pos a1) O rs p1 = Ok O p1).
    { destruct rs as [|r rs]; [reflexivity|]. cbn [command_redirs].
      rewrite Hrs. destruct (Redirect_pos r >? Word_pos a1); reflexivity. }
    rewrite (bind_Ok _ E1), (bind_Ok _ Er), (bind_Ok _ E2).
    exists p2. split; [reflexivity|]. split.
    { rewrite Hw2, Hs1. change (a0 :: a1 :: more) with ([a0] ++ a1 :: more)%list.
      rewrite joinFrom_app by discriminate. rewrite append_assoc. reflexivity. }
    split; [eapply same_layout_trans; eauto|exact Hs2].
Qed.

(** A call with heredoc redirections, all on the line being printed. *)
Lemma stmt_call_hdocs (n : nat) (pos : Pos) (a0 : Word) (more : list Word)
      (rs : list Redirect) p t ln :
  lineState p ln ->
  callOn (f p) ln pos (a0 :: more) ->
  Forall (redirOn (f p) ln) rs ->
  forallb (fun r => isHeredoc (Redirect_Op r)) rs = true ->
  w p = BytesBuffer t ->
  exists p',
    stmt (run (S n)) (mkStmt pos false [] (CallExpr (a0 :: more)) rs false) p
      = Ok tt p' /\
    w p' = BytesBuffer
             (t ++ joinFrom (wantSpace p) (a0 :: more) ++ redirsText true rs) /\
    pendingHdocs p' = (pendingHdocs p ++ rs)%list /\
    same_layout (set_pendingHdocs (pendingHdocs p') p) p'.
Proof.
  intros Hl (Hpos & Hon & Hsw) Hrs Hh Hw. pose proof Hl as (Hc & _).
  unfold stmt. cbn [when]. rewrite bind_ret.
  change (assigns (run (S n)) []) with
    (anyNewline <- ret false ;; when anyNewline decLevel).
  rewrite (bind_Ok _ (a:=tt) (p':=p)) by reflexivity.
  assert (Hon' : onLine (f p) (curLine p) (a0 :: more) = true)
    by (rewrite Hc; exact Hon).
  assert (Hfirst : match rs with
                   | [] => True
                   | r :: _ => isHeredoc (Redirect_Op r) = true
                   end).
  { destruct rs as [|r rs]; [exact I|]. cbn [forallb] in Hh.
    apply andb_true_iff in Hh. tauto. }
  destruct (@command_call_hdocs n (a0 :: more) rs p t Hon' Hw Hsw Hfirst)
    as (p1 & E1 & Hw1 & Hl1 & Hs1).
  rewrite (bind_Ok _ E1). cbn [skipn].
  assert (Hrs1 : Forall (redirOn (f p1) ln) rs).
  { destruct Hl1 as (-> & _). exact Hrs. }
  destruct (@redirs_line n rs false p1 _ ln (lineState_layout Hl Hl1) Hrs1 Hw1)
    as (p2 & E2 & Hw2 & Hq2 & _ & Hl2).
  rewrite (bind_Ok _ E2). cbn [when]. rewrite bind_ret.
  exists p2. split; [reflexivity|]. split.
  { rewrite Hw2, Hs1, append_assoc. reflexivity. }
  assert (Hq1 : pendingHdocs p1 = pendingHdocs p)
    by (unfold same_layout in Hl1; tauto).
  split; [rewrite Hq2, Hq1, (heredocsOf_all rs Hh); reflexivity|].
  unfold same_layout in *.
  cbn [f c nestedBinary wantNewline wantSpaces curLine lastLevel level
       levelIncs comments pendingHdocs set_pendingHdocs] in *.
  intuition congruence.
Qed.

(** [cmd <<EOF] followed by [cmd2], in general: a call with heredoc
    redirections and the simple command after it. *)
Lemma heredoc_placed (n : nat) (cfg : PrintConfig) (posfn : Pos -> Position)
      (pos1 : Pos) (a0 : Word) (more : list Word) (rs : list Redirect)
      (pos2 : Pos) (args2 : list Word) :
  let fl := heredoc_script posfn pos1 (a0 :: more) rs pos2 args2 in
  let l1 := Line (posfn pos1) in
  let l2 := Line (posfn pos2) in
  0 < l1 ->
  callOn fl l1 pos1 (a0 :: more) ->
  Forall (redirOn fl l1) rs ->
  forallb (fun r => isHeredoc (Redirect_Op r)) rs = true ->
  plainHdocs rs = true ->
  onLine fl l2 args2 = true ->
  forallb simpleWord args2 = true ->
  rendered (render (S (S n)) cfg fl)
    = Some (joinFrom false (a0 :: more) ++ redirsText true rs ++ nl
              ++ drainText rs
              ++ (if l2 >? add (drainLine l1 rs) 1 then nl else "")
              ++ joinFrom false args2 ++ nl).
Proof.
  intros fl l1 l2 Hl1 Hc1 Hrs Hh Hplain Hon2 Hsw2.
  unfold render, traversal. rewrite bind_modify.
  set (p0 := set_comments (File_Comments fl)
               (new_printer (BytesBuffer "") fl cfg)).
  set (s1 := mkStmt pos1 false [] (CallExpr (a0 :: more)) rs false).
  set (s2 := simpleCall pos2 args2).
  (* the first statement *)
  set (pA := set_curLine l1 p0).
  assert (HlA : lineState pA l1).
  { unfold lineState, pA, p0. cbn. auto. }
  assert (HwA : w pA = BytesBuffer "") by reflexivity.
  destruct (@stmt_call_hdocs n pos1 a0 more rs pA "" l1 HlA Hc1 Hrs Hh HwA)
    as (p1 & E1 & Hw1 & Hq1 & Hla1).
  assert (Hq1' : pendingHdocs p1 = rs) by exact Hq1.
  unfold same_layout in Hla1.
  cbn [f c nestedBinary wantNewline wantSpaces curLine lastLevel level
       levelIncs comments pendingHdocs set_pendingHdocs] in Hla1.
  assert (Hf1 : f p1 = fl) by (destruct Hla1 as (H & _); exact H).
  assert (Hcm1 : comments p1 = []) by (transitivity (comments pA); [tauto|reflexivity]).
  assert (Hcl1 : curLine p1 = l1) by (transitivity (curLine pA); [tauto|reflexivity]).
  assert (Hcf1 : c p1 = cfg) by (transitivity (c pA); [tauto|reflexivity]).
  assert (Hlv1 : level p1 = 0) by (transitivity (level pA); [tauto|reflexivity]).
  (* the line break before the second, with the queue *)
  assert (Hp1 : plainHdocs (pendingHdocs p1) = true) by (rewrite Hq1'; exact Hplain).
  destruct (newlines_page (S n) (posfn pos2) p1 Hp1 Hw1)
    as (p2 & E2 & Hw2 & Hc2 & Hq2 & Hs2 & _ & Hf2 & _ & _ & _ & _ & _ & Hcm2).
  assert (Hon2' : onLine (f p2) (curLine p2) args2 = true).
  { rewrite Hf2, Hf1, Hc2. exact Hon2. }
  destruct (@stmt_simpleCall n pos2 args2 p2 _ Hon2' Hw2 Hsw2)
    as (p3 & E3 & Hw3 & Hl3 & _).
  unfold same_layout in Hl3.
  assert (Hcm3 : comments p3 = []) by (rewrite <- Hcm1, <- Hcm2; tauto).
  assert (Hq3 : pendingHdocs p3 = []) by (rewrite <- Hq2; tauto).
  assert (ES : stmts (run (S (S n))) (File_Stmts fl) p0
               = Ok true (set_wantNewline true p3)).
  { change (File_Stmts fl) with [s1; s2].
    unfold stmts, position. rewrite !bind_gets. cbn [andb].
    rewrite (bind_Ok _ (a:=tt) (p':=p3)); [reflexivity|].
    cbn [stmts_loop]. unfold position. rewrite bind_gets.
    assert (EA : alwaysSeparate (run (S (S n)))
                   (File_Position (f p0) (Stmt_pos s1)) p0 = Ok tt pA).
    { unfold alwaysSeparate.
      change (commentsUpTo_r (run (S (S n)))) with (commentsUpTo (run (S n))).
      rewrite (bind_Ok _ (commentsUpTo_none (run (S n)) _ p0 eq_refl)).
      reflexivity. }
    rewrite (bind_Ok _ EA).
    change (stmt_r (run (S (S n)))) with (stmt (run (S n))).
    rewrite (bind_Ok _ E1). cbv zeta. unfold hasInline.
    rewrite bind_gets, Hcm1. cbn [hasInline_loop negb].
    unfold position. rewrite bind_gets.
    assert (EB : alwaysSeparate (run (S (S n)))
                   (File_Position (f p1) (Stmt_pos s2)) p1 = Ok tt p2).
    { unfold alwaysSeparate.
      change (commentsUpTo_r (run (S (S n)))) with (commentsUpTo (run (S n))).
      rewrite (bind_Ok _ (commentsUpTo_none (run (S n)) _ p1 Hcm1)).
      rewrite bind_gets, Hcl1. rewrite (gtb_true Hl1).
      rewrite Hf1. exact E2. }
    rewrite (bind_Ok _ EB). rewrite (bind_Ok _ E3). cbv zeta.
    rewrite bind_gets, Hcm3. cbn [hasInline_loop negb]. reflexivity. }
  rewrite (bind_Ok _ ES).
  rewrite (bind_Ok _ (commentsUpTo_none (run (S (S n))) 0
                        (set_wantNewline true p3) Hcm3)).
  assert (HpM : plainHdocs (pendingHdocs (set_wantNewline true p3)) = true).
  { change (pendingHdocs (set_wantNewline true p3)) with (pendingHdocs p3).
    rewrite Hq3. reflexivity. }
  assert (HwM : w (set_wantNewline true p3) = w p3) by reflexivity.
  rewrite Hw3 in HwM.
  destruct (newline_drain (S n) (set_wantNewline true p3) HpM HwM)
    as (p' & E' & Hw' & _).
  rewrite E'. unfold rendered, Buffer_String. rewrite Hw'.
  change (pendingHdocs (set_wantNewline true p3)) with (pendingHdocs p3).
  rewrite Hq3, Hs2, Hq1', Hcl1, Hcf1, Hlv1. cbn [drainText map fold_right].
  change (indentText cfg 0) with "".
  fold l2. cbn [append]. rewrite !append_assoc, ?append_nil_r.
  reflexivity.
Qed.

(** C1 as stated fails twice.  The newline that continues a line, written
    after a backslash when a redirection begins on a later line, does not
    drain the queue: the body of [<<EOF] comes after the line of [>out].
    And in a tree whose positions are all on line zero no line break
    separates the statements: [cmd2] comes before the body. *)
Lemma heredoc_newline_counterexample :
  (exists p s,
      Fprint 2 config0 reliable_sink continuation_file = Ok None p /\
      sink_of p = Some s /\
      sink_text s = "cat <<EOF " ++ String bslash_byte nl
                      ++ String tab_byte ">out" ++ nl
                      ++ "body" ++ nl ++ "EOF" ++ nl /\
      afterNewline (sink_text s)
        = String tab_byte ">out" ++ nl ++ "body" ++ nl ++ "EOF" ++ nl) /\
  (exists p s,
      Fprint 2 config0 reliable_sink line0_file = Ok None p /\
      sink_of p = Some s /\
      sink_text s = "cmd <<EOF cmd2" ++ nl ++ "body" ++ nl ++ "EOF" ++ nl).
Proof.
  split.
  - eexists. eexists. split; [vm_compute; reflexivity|].
    split; [reflexivity|]. split; reflexivity.
  - eexists. eexists. split; [vm_compute; reflexivity|].
    split; reflexivity.
Qed.

(** C1, as amended: the heredoc redirections of a statement join the queue
    at its tail, in their order, when they are printed; each call of
    [newline] writes the newline and then drains the queue in order, for
    each entry its body, its terminator word unquoted and a newline,
    advancing the line counter, and leaves the queue empty; the queue is
    empty when [Fprint] returns; and for a command with heredocs on a line
    past zero, followed by a simple command, the bodies and the terminators
    lie between the newline that ends the line of the first and the
    second. *)
Theorem heredoc_queue (n : nat) :
  (forall rs any p t ln,
      lineState p ln -> Forall (redirOn (f p) ln) rs ->
      w p = BytesBuffer t ->
      exists p',
        foldM (stmt_redir (run (S n))) any rs p = Ok any p' /\
        w p' = BytesBuffer (t ++ redirsText (wantSpace p) rs) /\
        pendingHdocs p' = (pendingHdocs p ++ heredocsOf rs)%list) /\
  (forall self any r p any' p',
      stmt_redir self any r p = Ok any' p' ->
      isHeredoc (Redirect_Op r) = true ->
      exists hs, pendingHdocs p' = (hs ++ [r])%list) /\
  (forall p t,
      plainHdocs (pendingHdocs p) = true ->
      w p = BytesBuffer t ->
      exists p',
        newline (run (S n)) p = Ok tt p' /\
        w p' = BytesBuffer (t ++ nl ++ drainText (pendingHdocs p)) /\
        curLine p' = drainLine (curLine p) (pendingHdocs p) /\
        pendingHdocs p' = []) /\
  (forall self p u p', newline self p = Ok u p' -> pendingHdocs p' = []) /\
  (forall cfg sink fl e p,
      Fprint n cfg sink fl = Ok e p -> pendingHdocs p = []) /\
  (forall cfg posfn pos1 a0 more rs pos2 args2,
      let fl := heredoc_script posfn pos1 (a0 :: more) rs pos2 args2 in
      let l1 := Line (posfn pos1) in
      let l2 := Line (posfn pos2) in
      0 < l1 ->
      callOn fl l1 pos1 (a0 :: more) ->
      Forall (redirOn fl l1) rs ->
      forallb (fun r => isHeredoc (Redirect_Op r)) rs = true ->
      plainHdocs rs = true ->
      onLine fl l2 args2 = true ->
      forallb simpleWord args2 = true ->
      rendered (render (S (S n)) cfg fl)
        = Some (joinFrom false (a0 :: more) ++ redirsText true rs ++ nl
                  ++ drainText rs
                  ++ (if l2 >? add (drainLine l1 rs) 1 then nl else "")
                  ++ joinFrom false args2 ++ nl)) /\
  (exists p,
      Fprint 2 config0 reliable_sink heredoc_file = Ok None p /\
      sink_of p = Some (mkWriter
        ["cmd <<EOF" ++ nl ++ "body" ++ nl ++ "EOF" ++ nl ++ "cmd2" ++ nl]
        (answer reliable_sink))).
Proof.
  split; [|split; [|split; [|split; [|split; [|split]]]]].
  - intros rs any p t ln Hl Hrs Hw.
    destruct (@redirs_line n rs any p t ln Hl Hrs Hw)
      as (p' & E & Hw' & Hq & _).
    exists p'. auto.
  - intros. eapply stmt_redir_enqueues; eauto.
  - intros p t Hp Hw.
    destruct (newline_drain n p Hp Hw) as (p' & E & Hw' & Hc & Hq & _).
    exists p'. auto.
  - intros. eapply newline_clears; eauto.
  - intros. eapply Fprint_queue_empty; eauto.
  - intros. eapply heredoc_placed; eauto.
  - exact heredoc_file_output.
Qed.

Lemma heredoc_queue_witness :
  rendered (render 2 config0 heredoc_file)
    = Some ("cmd <<EOF" ++ nl ++ "body" ++ nl ++ "EOF" ++ nl ++ "cmd2" ++ nl) /\
  (exists p',
      foldM (stmt_redir (run 1)) false
            [mkRedirect 105 105 SHL None (litWord 107 "A") (mkLit ("a" ++ nl));
             mkRedirect 109 109 GTR None (litWord 110 "out") (mkLit "");
             mkRedirect 114 114 DHEREDOC None (litWord 117 "B") (mkLit ("b" ++ nl))]
            (set_pendingHdocs
               [mkRedirect 101 101 SHL None (litWord 103 "Z") (mkLit "")]
               (set_curLine 1 (new_printer (BytesBuffer "cat") heredoc_file config0)))
        = Ok false p' /\
      w p' = BytesBuffer "cat<<A >out <<-B" /\
      pendingHdocs p'
        = [mkRedirect 101 101 SHL None (litWord 103 "Z") (mkLit "");
           mkRedirect 105 105 SHL None (litWord 107 "A") (mkLit ("a" ++ nl));
           mkRedirect 114 114 DHEREDOC None (litWord 117 "B") (mkLit ("b" ++ nl))]).
Proof.
  destruct (heredoc_queue 0) as (Hq & _ & _ & _ & _ & Hp & _).
  split.
  - apply (Hp config0 line_col 101 (litWord 101 "cmd") []
              [mkRedirect 105 105 SHL None (litWord 107 "EOF")
                          (mkLit ("body" ++ nl))]
              401 (litWords 401 ["cmd2"])).
    + reflexivity.
    + vm_compute. repeat split; reflexivity.
    + repeat constructor.
    + reflexivity.
    + reflexivity.
    + reflexivity.
    + reflexivity.
  - destruct (Hq [mkRedirect 105 105 SHL None (litWord 107 "A") (mkLit ("a" ++ nl));
                  mkRedirect 109 109 GTR None (litWord 110 "out") (mkLit "");
                  mkRedirect 114 114 DHEREDOC None (litWord 117 "B") (mkLit ("b" ++ nl))]
                 false
                 (set_pendingHdocs
                    [mkRedirect 101 101 SHL None (litWord 103 "Z") (mkLit "")]
                    (set_curLine 1 (new_printer (BytesBuffer "cat") heredoc_file config0)))
                 "cat" 1) as (p' & E & Hw & Hq').
    + vm_compute. repeat split; try reflexivity; discriminate.
    + repeat constructor.
    + reflexivity.
    + exists p'. split; [exact E|]. split; [exact Hw|exact Hq'].
Defined.
